(* ===== verification/_CoqProject ===== *)
-Q . S2P
Prelude.v
JsRuntime.v
Poller.v
DateIso.v
JsString.v
Screenshot.v
PollerMachine.v
ConsoleCapture.v
ScreenshotName.v
Exports.v
