(* ===== verification/Prelude.v ===== *)
(** * Verification of the web-app testing helpers

    The program is [src/.github/skills/webapp-testing/test-helper.js], a
    CommonJS module of three helpers for Playwright test scripts, run by
    Node.js:

    - [waitForCondition(condition, timeout = 5000, interval = 100)]
      (lines 11-20): an [async] loop that reads [Date.now()], calls and
      awaits [condition()] while less than [timeout] ms have elapsed,
      resolves to [true] as soon as the awaited value is truthy, sleeps
      [interval] ms through [setTimeout] otherwise, and rejects with
      [new Error("在超时时间内条件未满足")] once the deadline has passed;
    - [captureConsoleLogs(page)] (lines 27-37): allocates an array,
      registers on the page a ["console"] listener that pushes
      [{type, text, timestamp}] records into that array, and returns the
      array itself, which keeps growing after the call returns;
    - [captureScreenshot(page, name)] (lines 44-50): formats the current
      time with [toISOString], replaces [:] and [.] by [-], builds
      [name-<stamp>.png], awaits [page.screenshot], prints a confirmation
      line and resolves to the file name; [name] goes through
      JavaScript's [ToString], whatever its type.

    The helpers share no state with each other; each talks to its
    environment: the clock and the timers of Node, the user's callback,
    the Playwright page (its console events and its screenshot method),
    standard output. [module.exports] (lines 52-56) hands the three to a
    test script, where they meet in one event loop: the array of
    [captureConsoleLogs] fills while [waitForCondition] sleeps.

    ** Layout (files in dependency order)

    - [Prelude] (this file): the outcome of an asynchronous computation
      ([Done], [Raise], [OutOfFuel]); the traced state monad [M] in which
      the async functions are written ([let*] in [js_scope]), whose runs
      return the final world, the list of events performed and the
      outcome; the monad laws as rewrite hints ([js_run], [run_simpl]);
      [map_trace], which renames the events of a computation;
      the hint database [js]; counting events ([count_if]); string
      predicates ([str_forall], [str_has]) with their append lemmas.
    - [JsRuntime]: what the code relies on from JavaScript and Node.js,
      written from their definitions (not repository code): numbers and
      values ([jsnum], [jsval]), truthiness ([truthy], the test of line
      14), the comparison of line 13 ([js_lt]), default parameters
      ([param_default]), rejection reasons ([exn]), Node's normalisation
      of a timer delay ([timer_delay]: outside [1, 2^31-1] it is 1 ms), and
      the interface [Runtime] (a type class: [clock], [date_now_tick],
      [timer_wait]) with its laws [RuntimeLaws] (the clock never goes back,
      a timer never fires early). [sim_runtime] is an executable instance
      (simulated clock, [scripted] conditions).
    - [Poller]: [waitForCondition] and its [while] loop [poll_loop], line
      by line in the monad over any [Runtime]; [Date.now()], the awaited
      call and the awaited timer are the events [EvNow], [EvCall] and
      [EvSleep]; [poll_spec] is the abstract contract of the loop.
    - [DateIso]: [Date.prototype.toISOString] ([to_iso_string]): civil
      date from the day number, zero-padded fields, [+/-YYYYYY] years
      outside 0-9999, [RangeError] beyond 8.64e15 ms.
    - [JsString]: ECMAScript [ToString] ([js_to_string]) and
      [Number::toString] ([number_to_string]), which the template literal
      of line 46 applies to [name]; platform semantics, not repository
      code.
    - [Screenshot]: [captureScreenshot] in the monad; the page's
      [screenshot] method is its argument, the clock read, the screenshot
      request and the printed line are events; [captureScreenshot_js]
      takes a name of any type and prints it with [js_to_string].
    - [ConsoleCapture]: [captureConsoleLogs] over an explicit shared store
      (a [gmap] of arrays, the next free location, the clock, the listeners
      of each page); Node's [EventEmitter] dispatch; the step relation
      [cstep] of captures, console messages, time, other listeners and the
      caller's own mutations of its arrays; the invariant [wf].
    - [ScreenshotName]: a parser [parse_screenshot_name] of the names
      line 46 builds (a tool of the proofs, not code of the program),
      which reads the stamp back through the calendar inverse
      [days_from_civil] of [DateIso]: a file name gives back its base name
      and its millisecond.

    - [PollerMachine]: [waitForCondition] as a labelled small-step
      machine of the event loop ([pc], [pstate], [pstep]): the points
      where the async function is suspended, with a nondeterministic
      environment (clock reads, durations and answers of the condition,
      timers that fire no earlier than their delay); stdpp's [sn], [nf],
      [rtc] and [nsteps].
    - [Exports]: [module.exports] as the record [test_helper] of the three
      functions ([module_exports]) over one event loop [eworld]: the
      console state of [ConsoleCapture] and the queue of messages the
      pages will log, delivered during the poller's timers by console
      steps; a client script [wait_for_log_script].

    ** Theorems (claims C1-C39; C1-C21 in order of importance, then the
       later additions)

    - Poller: termination within [Z.to_nat timeout + 1] rounds (C1);
      refinement of [poll_spec] by every settled run (C2); at most
      [ceil (timeout / d)] calls, [d = timer_delay interval] (C3); no call
      at all for a timeout [<= 0] (C4); the timeout error never comes
      before the deadline (C5) and, on a runtime with bounded overruns,
      less than [timeout + c + d + j + a] ms after the start (C6); success
      resolves [true] right after a truthy answer (C7); the condition's
      errors are never caught: a call that throws is the last event and
      the promise rejects with its value, and only then (C8);
      out-of-range intervals poll every 1 ms (C9); a positive timeout
      calls the condition at least once (C10); on a runtime without
      overruns an always-falsy condition is called exactly
      [ceil (timeout / d)] times and the error comes exactly that many
      intervals after the start (C11); under the JSDoc contract (a
      boolean condition, lines 5-10) it settles only as documented,
      [true] or the timeout [Error] (C22); whatever values the condition
      answers, the poller resolves at exactly the first truthy one
      (C24). The spec's scenarios A and B are examples of the file.
    - Console capture: [wf] holds of every reachable state (C12); a
      capture allocates a fresh empty array and appends one listener (C13);
      a message appends exactly one entry to every array listening on its
      page (C14) and touches no other (C15); the returned array is the one
      that fills (C16); arrays only grow except by the caller (C17); an
      invalid clock drops the message and raises the [RangeError] (C18);
      the returned array holds, after any run that leaves it to the
      helper, exactly the entries [logged_messages] computes from the run:
      one per message of its page on a valid clock, in order (C23), with
      non-decreasing times between the capture and the current clock,
      each [timestamp] being [toISOString] of its time (C25); two
      captures on one page return distinct arrays that both receive
      every later message (C26). Scenario C is an example.
    - Screenshot: success resolves the path that was written, then prints
      one line naming it (C19); failure prints nothing and propagates the
      page's error (C20); the stamp keeps [T] and [Z] and loses every [:]
      and [.] (C21); [toISOString] throws exactly when the clock is out
      of range, and then the page is never asked for a screenshot and
      nothing is printed (C27); the returned name parses back to [ToString] of the name
      argument and the time value read (C29), so two captures return the
      same name if and only if their names print the same and they read
      the same millisecond (C30): [1] and ["1"] collide. These rest
      on the calendar round trip [civil_roundtrip] ([days_from_civil]
      after [civil_from_days] is the identity on every day number, proved
      by the era decomposition, with no bound) and on the digit reader
      [read_digits_pad].
    - Poller machine: with a timeout other than [+Infinity] every
      execution is finite, can always still settle and stops only
      settled (C31), within [3 * timeout + 5] steps (C32); with
      [Infinity] an infinite execution exists (C33); the machine's runs
      from the loop test are exactly the timed traces of [poll_spec]
      (C34); every settled run of the monadic [waitForCondition] on a
      lawful runtime is a run of the machine (C35).
    - Composition through [module_exports]: a script that captures a
      page's console and waits for [logs.length > 0] resolves [true] with
      the logged entry when the page logs one interval before the
      deadline (C36), rejects with an empty array when it logs one
      interval after it (C37), and then the whole script rejects before
      [captureScreenshot] runs (C28); as a whole it returns the array and
      the file name stamped with the time the poller resolved, the
      poller's events before the screenshot's (C38). Scenario D of the
      spec is an example of [Screenshot].
    - Types: every entry of every captured array carries a [timestamp]
      that [toISOString] produced for a past time, in every reachable
      state where the caller's own edits keep entries well typed (C39).

    Every theorem with hypotheses has a witness ([..._witness], ending in
    [Defined]) that applies it on the simulated runtime.

    ** Fuel and bounds

    JavaScript's [while] is not structural: [poll_loop] takes fuel and
    answers [OutOfFuel] when it runs out. C1 shows [Z.to_nat timeout + 1]
    rounds suffice for a finite timeout (each round that sleeps advances
    the clock by at least 1 ms, since [timer_delay >= 1]); C11 and C24
    need [Z.to_nat timeout + 1] and [k] rounds. With an infinite timeout the real loop may run
    forever, which the model shows as [OutOfFuel] for every fuel, and
    the machine of [PollerMachine] as an execution that never reaches a
    normal form (C33); that machine needs no fuel, and its liveness (C31)
    uses the measure [pmeasure] (three steps per millisecond left). The
    client of [Exports] needs fuel [tm - start + 2] rounds to see a
    message logged at [tm] (one round per millisecond at least).
    Integers are [Z] milliseconds; the only machine-width bound in play is
    Node's 32-bit timer limit [TIMEOUT_MAX = 2^31 - 1].

    ** Not modelled, and the plan

    Not modelled: [require] itself (module loading); arguments of
    [waitForCondition] other than numbers or [undefined] ([null] or strings
    coerced by [<]); a [condition] that is not callable; fractional
    milliseconds; time passing inside one synchronous console dispatch;
    console listeners of other code that throw (they would stop Node's
    dispatch before the helper's listener; [OtherListener] never
    throws); the wall clock is taken monotone ([RuntimeLaws]), an
    explicit hypothesis of the theorems that need it;
    Playwright itself and the file system (external, as in the spec).
    The test scripts of [Exports] are clients, not code of the
    repository. The JSDoc comments are modelled where they state a
    contract: [condition_returns_boolean] and [wait_outcome_documented]
    (lines 5-7) for C22, [logged_messages] (lines 22-26) for C23 and C25,
    the [string] type of [name] (line 42) by [captureScreenshot_js],
    which drops it. Planned next: the poller as an interaction tree; a
    boolean [wf] with its reflection lemma; scripts with several pages
    and messages. *)

From Stdlib Require Import ZArith List String Ascii Lia Bool.
Import ListNotations.

Declare Scope js_scope.
Delimit Scope js_scope with js.

(** ** Outcomes of an asynchronous computation *)

(** [Done a]: the promise resolves with [a]; [Raise e]: it rejects with
    [e]; [OutOfFuel]: the model stopped before the code settled. *)
Inductive outcome (X A : Type) : Type :=
| Done (a : A)
| Raise (e : X)
| OutOfFuel.
Arguments Done {X A} a.
Arguments Raise {X A} e.
Arguments OutOfFuel {X A}.

Definition settled {X A} (o : outcome X A) : bool :=
  match o with OutOfFuel => false | _ => true end.

(** ** The traced state monad

    A computation of [M W E X A] runs from a world [W], and returns the
    final world, the list of events of type [E] it performed (in order),
    and its outcome. *)
Record run (W E X A : Type) : Type := mkRun {
  r_world : W;
  r_trace : list E;
  r_result : outcome X A
}.
Arguments mkRun {W E X A} _ _ _.
Arguments r_world {W E X A} _.
Arguments r_trace {W E X A} _.
Arguments r_result {W E X A} _.

Definition M (W E X A : Type) : Type := W -> run W E X A.

Section Monad.
Context {W E X : Type}.

Definition ret {A} (a : A) : M W E X A := fun w => mkRun w [] (Done a).

Definition raise {A} (e : X) : M W E X A := fun w => mkRun w [] (Raise e).

Definition out_of_fuel {A} : M W E X A := fun w => mkRun w [] OutOfFuel.

Definition bind {A B} (m : M W E X A) (k : A -> M W E X B) : M W E X B :=
  fun w =>
    let r1 := m w in
    match r_result r1 with
    | Done a =>
        let r2 := k a (r_world r1) in
        mkRun (r_world r2) (r_trace r1 ++ r_trace r2) (r_result r2)
    | Raise e => mkRun (r_world r1) (r_trace r1) (Raise e)
    | OutOfFuel => mkRun (r_world r1) (r_trace r1) OutOfFuel
    end.

Lemma run_eta {A} (r : run W E X A) : mkRun (r_world r) (r_trace r) (r_result r) = r.
Proof. now destruct r. Qed.

Lemma bind_ret_l {A B} (a : A) (k : A -> M W E X B) w : bind (ret a) k w = k a w.
Proof. unfold bind, ret; simpl. apply run_eta. Qed.

Lemma bind_raise {A B} (e : X) (k : A -> M W E X B) w :
  bind (raise e) k w = mkRun w [] (Raise e).
Proof. reflexivity. Qed.

Lemma bind_assoc {A B C} (m : M W E X A) (k : A -> M W E X B)
      (h : B -> M W E X C) w :
  bind (bind m k) h w = bind m (fun a => bind (k a) h) w.
Proof.
  unfold bind. destruct (r_result (m w)); simpl; auto.
  destruct (r_result (k a (r_world (m w)))); simpl; auto.
  now rewrite app_assoc.
Qed.
End Monad.

(** A computation whose events are renamed by [f], for composing
    computations with different kinds of events. *)
Definition map_trace {W E1 E2 X A} (f : E1 -> E2) (m : M W E1 X A) : M W E2 X A :=
  fun w => let r := m w in mkRun (r_world r) (List.map f (r_trace r)) (r_result r).

Lemma bind_map_trace_done {W E1 E2 X A B} (f : E1 -> E2) (m : M W E1 X A)
      (k : A -> M W E2 X B) w a :
  r_result (m w) = Done a ->
  bind (map_trace f m) k w =
  mkRun (r_world (k a (r_world (m w))))
        (List.map f (r_trace (m w)) ++ r_trace (k a (r_world (m w))))
        (r_result (k a (r_world (m w)))).
Proof. intros Hr. unfold bind, map_trace. cbn. rewrite Hr. reflexivity. Qed.

Lemma bind_map_trace_raise {W E1 E2 X A B} (f : E1 -> E2) (m : M W E1 X A)
      (k : A -> M W E2 X B) w e :
  r_result (m w) = Raise e ->
  bind (map_trace f m) k w = mkRun (r_world (m w)) (List.map f (r_trace (m w))) (Raise e).
Proof. intros Hr. unfold bind, map_trace. cbn. rewrite Hr. reflexivity. Qed.

Notation "'let*' x ':=' m 'in' k" := (bind m (fun x => k))
  (at level 10, x name, m at level 100, k at level 200) : js_scope.

(** ** Automation *)

Create HintDb js discriminated.
Create Rewrite HintDb js_run.
#[export] Hint Rewrite @bind_ret_l @bind_raise @bind_assoc : js_run.

(** [run_simpl] normalises a goal about a monadic run: it rewrites with
    the monad laws and unfolds the projections of [mkRun]. *)
Ltac run_simpl :=
  repeat (autorewrite with js_run in *; cbn [r_world r_trace r_result app] in *).

(** [zdiv_lia] closes linear goals over [Z] with divisions and moduli by
    constants: each [a / b] and [a mod b] becomes a quotient and a
    remainder bounded by [b], then [lia] decides. *)
Ltac zdiv_lia := Z.to_euclidean_division_equations; lia.

(** ** Generic lemmas on traces and integer division *)

(** Counting the events of a trace that satisfy a test. *)
Definition count_if {E} (p : E -> bool) (tr : list E) : nat :=
  List.length (filter p tr).

Lemma count_if_app {E} (p : E -> bool) l1 l2 :
  count_if p (l1 ++ l2) = (count_if p l1 + count_if p l2)%nat.
Proof. unfold count_if. now rewrite filter_app, length_app. Qed.

Lemma count_if_cons {E} (p : E -> bool) x l :
  count_if p (x :: l) = ((if p x then 1 else 0) + count_if p l)%nat.
Proof. unfold count_if; simpl. now destruct (p x). Qed.

Lemma count_if_nil {E} (p : E -> bool) : count_if p [] = 0%nat.
Proof. reflexivity. Qed.

#[export] Hint Rewrite @count_if_app @count_if_cons @count_if_nil : js_run.

(** If the [n]-th attempt, spaced [d > 0] apart, still starts below [t],
    then [n] is at most [ceil (t / d)]. *)
Lemma attempts_le_ceil (n : nat) (d t : Z) :
  (0 < d -> (Z.of_nat n - 1) * d < t -> Z.of_nat n <= (t + d - 1) / d)%Z.
Proof.
  intros Hd Hlt. apply Z.div_le_lower_bound; [lia|]. nia.
Qed.

(** ** Strings *)

(** Every character of [s] passes the test [p]. *)
Fixpoint str_forall (p : ascii -> bool) (s : string) : bool :=
  match s with
  | EmptyString => true
  | String c s' => p c && str_forall p s'
  end.

(** The character [c] occurs in [s]. *)
Fixpoint str_has (c : ascii) (s : string) : bool :=
  match s with
  | EmptyString => false
  | String c' s' => Ascii.eqb c' c || str_has c s'
  end.

Lemma str_forall_app p s1 s2 :
  str_forall p (s1 ++ s2)%string = str_forall p s1 && str_forall p s2.
Proof.
  induction s1 as [|c s1 IH]; simpl; [reflexivity|].
  now rewrite IH, andb_assoc.
Qed.

Lemma str_has_app c s1 s2 :
  str_has c (s1 ++ s2)%string = str_has c s1 || str_has c s2.
Proof.
  induction s1 as [|c' s1 IH]; simpl; [reflexivity|].
  now rewrite IH, orb_assoc.
Qed.

Lemma string_length_app s1 s2 :
  String.length (s1 ++ s2)%string = (String.length s1 + String.length s2)%nat.
Proof. induction s1; simpl; auto. Qed.



Lemma string_app_assoc s1 s2 s3 :
  ((s1 ++ s2) ++ s3)%string = (s1 ++ (s2 ++ s3))%string.
Proof. induction s1; simpl; congruence. Qed.

Lemma string_app_nil_r s : (s ++ "")%string = s.
Proof. induction s; simpl; congruence. Qed.

#[export] Hint Rewrite str_forall_app str_has_app string_length_app : js_run.
