(* ===== verification/JsRuntime.v ===== *)
(** * The JavaScript and Node.js runtime as the helpers see it

    Values, truthiness and number comparison (ECMAScript), the delay
    normalisation of Node's [setTimeout], rejection reasons, and the
    [Runtime] interface through which [waitForCondition] reads the clock
    and waits for timers. These definitions model the language and the
    platform, not code of the repository. [SimWorld] is an executable
    runtime (a simulated clock and a scripted condition). *)

From Stdlib Require Import ZArith List String Lia Bool.
From S2P Require Import Prelude.
Import ListNotations.
Local Open Scope Z_scope.

(** ** Numbers and values *)

(** A JavaScript number as the helpers use it: a whole number of
    milliseconds, an infinity, or NaN. *)
Inductive jsnum : Type :=
| JFin (z : Z)
| JPosInf
| JNegInf
| JNaN.

(** A JavaScript value, as returned by a user callback. Objects
    (including arrays and functions) are known by their identity. *)
Inductive jsval : Type :=
| JUndefined
| JNull
| JBool (b : bool)
| JNumber (n : jsnum)
| JString (s : string)
| JObject (id : nat).

(** ToBoolean: [undefined], [null], [false], [0], [NaN] and [""] are
    falsy, everything else is truthy. *)
Definition truthy (v : jsval) : bool :=
  match v with
  | JUndefined | JNull => false
  | JBool b => b
  | JNumber (JFin z) => negb (z =? 0)
  | JNumber JNaN => false
  | JNumber _ => true
  | JString s => negb (String.eqb s "")
  | JObject _ => true
  end.

(** [x < n] for a finite [x] (a difference of two [Date.now()] values):
    NaN compares false, the infinities compare as expected. *)
Definition js_lt (x : Z) (n : jsnum) : bool :=
  match n with
  | JFin z => x <? z
  | JPosInf => true
  | JNegInf | JNaN => false
  end.

(** ** Rejection reasons and completions *)

(** The reason a promise rejects with: an [Error] object built by the
    code with its message, or any value thrown by a user callback. *)
Inductive exn : Type :=
| ErrorObject (message : string)
| RangeErrorObject (message : string)
| ThrownValue (v : jsval).

(** The [RangeError] of [toISOString] on an invalid date (V8's message). *)
Definition invalid_time_value : exn := RangeErrorObject "Invalid time value".

(** How one call of a user callback ends, once awaited. *)
Inductive completion : Type :=
| Normal (v : jsval)
| Threw (v : jsval).

(** The monad of an async function of the helpers. *)
Abbreviation JsM W E A := (M W E exn A).

(** ** Node.js timers *)

(** The largest delay Node accepts, [2^31 - 1] ms (TIMEOUT_MAX). *)
Definition TIMEOUT_MAX : Z := 2 ^ 31 - 1.

(** Node's [setTimeout] normalises its delay: [after *= 1; if (!(after >=
    1 && after <= TIMEOUT_MAX)) after = 1]. NaN, the infinities, 0, the
    negative delays and the delays above [TIMEOUT_MAX] all become 1 ms. *)
Definition timer_delay (n : jsnum) : Z :=
  match n with
  | JFin z => if (1 <=? z) && (z <=? TIMEOUT_MAX) then z else 1
  | _ => 1
  end.

Lemma timer_delay_pos n : 1 <= timer_delay n.
Proof.
  destruct n as [z| | |]; simpl; try lia.
  destruct (Z.leb_spec 1 z); destruct (Z.leb_spec z TIMEOUT_MAX); simpl; lia.
Qed.

Lemma timer_delay_le_max n : timer_delay n <= TIMEOUT_MAX.
Proof.
  destruct n as [z| | |]; simpl; try (unfold TIMEOUT_MAX; lia).
  destruct (Z.leb_spec 1 z); destruct (Z.leb_spec z TIMEOUT_MAX); simpl;
    unfold TIMEOUT_MAX in *; lia.
Qed.


#[export] Hint Resolve timer_delay_pos timer_delay_le_max : js.

(** ** The runtime interface of the poller

    [clock w] is the value [Date.now()] returns in world [w];
    [date_now_tick w] is the world after the synchronous call
    [Date.now()] (wall-clock time may pass); [timer_wait d w] is the world
    once [await new Promise(r => setTimeout(r, ..))] resumes, for a
    normalised delay [d]; other tasks of the event loop may have run. *)
Class Runtime (W : Type) := {
  clock : W -> Z;
  date_now_tick : W -> W;
  timer_wait : Z -> W -> W
}.

(** What the platform guarantees: the clock never goes back, and a timer
    of [d] ms never resumes its continuation less than [d] ms later.
    A user callback is a world transformer [cond : W -> W * completion];
    its own law ([cond_mono] in [Poller]) is stated where it is used. *)
Class RuntimeLaws (W : Type) `{Runtime W} := {
  date_now_tick_mono : forall w, clock w <= clock (date_now_tick w);
  timer_wait_delay : forall d w, clock w + d <= clock (timer_wait d w)
}.

(** A default parameter: [undefined] ([None]) takes the default. *)
Definition param_default (d : jsnum) (arg : option jsnum) : jsnum :=
  match arg with Some v => v | None => d end.

(** ** An executable runtime

    A simulated world: the clock and the number of calls the condition
    has received so far. [Date.now()] does not advance the clock and a
    timer resumes exactly on time. *)
Record sim_world : Type := SimWorld {
  sw_clock : Z;
  sw_calls : nat
}.

#[export] Instance sim_runtime : Runtime sim_world := {
  clock := sw_clock;
  date_now_tick := fun w => w;
  timer_wait := fun d w => SimWorld (sw_clock w + d) (sw_calls w)
}.

#[export] Instance sim_runtime_laws : RuntimeLaws sim_world.
Proof. split; intros; simpl; lia. Qed.

(** A scripted condition: the [k]-th call (from 1) returns [answer k] and
    takes [cost] ms. *)
Definition scripted (cost : nat) (answer : nat -> completion) (w : sim_world)
  : sim_world * completion :=
  let k := S (sw_calls w) in
  (SimWorld (sw_clock w + Z.of_nat cost) k, answer k).

Lemma scripted_mono cost answer w :
  sw_clock w <= sw_clock (fst (scripted cost answer w)).
Proof. simpl. lia. Qed.

(** A counter condition that becomes true on its [n]-th call. *)
Definition true_on_call (n : nat) : nat -> completion :=
  fun k => Normal (JBool (Nat.leb n k)).

(** A condition that always answers [v]. *)
Definition always (v : jsval) : nat -> completion := fun _ => Normal v.
