(* ===== verification/Poller.v ===== *)
(** * The condition poller: [waitForCondition]

    [src/.github/skills/webapp-testing/test-helper.js], lines 11-20. The
    async function is written in the traced monad of [Prelude]: each
    [Date.now()] read, each awaited call of [condition()] and each awaited
    [setTimeout] promise is an event of the trace. The section is generic
    in the runtime ([Runtime] of [JsRuntime]); the user's condition is a
    world transformer passed as the argument [condition].

    Theorems: the unfolding of one round of the loop, termination for a
    finite timeout, the refinement of the abstract contract
    [poll_spec], the bounds on the number of calls and on the elapsed
    time, the propagation of the condition's errors, the exact number of
    calls on a runtime without overruns, the first truthy answer
    stopping the poller whatever its type, the JSDoc contract, and the
    spec's scenarios A and B on [SimWorld]. *)

From Stdlib Require Import ZArith List String Lia Bool.
From S2P Require Import Prelude JsRuntime.
Import ListNotations.
Local Open Scope Z_scope.
Local Open Scope js_scope.

(** What the poller does to its environment, in order. *)
Inductive poll_event : Type :=
| EvNow (t : Z)               (** [Date.now()] returned [t] *)
| EvCall (c : completion)     (** [await condition()] ended with [c] *)
| EvSleep (d : Z).            (** a [setTimeout] of [d] ms was awaited *)

Definition is_call (e : poll_event) : bool :=
  match e with EvCall _ => true | _ => false end.

(** The message of the error thrown at line 19. *)
Definition timeout_message : string := "在超时时间内条件未满足".

(** [new Error("在超时时间内条件未满足")] *)
Definition timeout_error : exn := ErrorObject timeout_message.

(** ** The abstract contract of the loop

    [poll_spec s T I tr r]: from a start time [s], with timeout [T] and
    interval [I], the loop may perform the events [tr] and settle with
    [r]. A round reads the clock at [t]; below the deadline it calls the
    condition; a truthy value resolves to [true] at once, a thrown value
    rejects with it, a falsy value sleeps [timer_delay I] ms and starts a
    new round; at or past the deadline the loop rejects with the timeout
    error without calling the condition. *)
Inductive poll_spec (s : Z) (T I : jsnum) : list poll_event -> outcome exn jsval -> Prop :=
| spec_deadline t :
    js_lt (t - s) T = false ->
    poll_spec s T I [EvNow t] (Raise timeout_error)
| spec_satisfied t v :
    js_lt (t - s) T = true -> truthy v = true ->
    poll_spec s T I [EvNow t; EvCall (Normal v)] (Done (JBool true))
| spec_thrown t v :
    js_lt (t - s) T = true ->
    poll_spec s T I [EvNow t; EvCall (Threw v)] (Raise (ThrownValue v))
| spec_retry t v tr r :
    js_lt (t - s) T = true -> truthy v = false ->
    poll_spec s T I tr r ->
    poll_spec s T I (EvNow t :: EvCall (Normal v) :: EvSleep (timer_delay I) :: tr) r.

(** What the contract says of the last round. *)
Lemma poll_spec_done s T I tr v :
  poll_spec s T I tr (Done v) ->
  v = JBool true /\
  exists pre t u, tr = pre ++ [EvNow t; EvCall (Normal u)] /\ truthy u = true.
Proof.
  intros Hs. remember (Done v) as r eqn:Er.
  induction Hs as [| t u Ht Hu | | t u tr r Ht Hu Hs IH]; try discriminate.
  - injection Er as <-. split; [reflexivity|]. now exists [], t, u.
  - destruct (IH Er) as [-> [pre [t' [u' [-> Hu']]]]]. split; [reflexivity|].
    now exists (EvNow t :: EvCall (Normal u) :: EvSleep (timer_delay I) :: pre), t', u'.
Qed.

Lemma poll_spec_thrown s T I tr e :
  poll_spec s T I tr (Raise (ThrownValue e)) ->
  exists pre t, tr = pre ++ [EvNow t; EvCall (Threw e)].
Proof.
  intros Hs. remember (Raise (ThrownValue e)) as r eqn:Er.
  induction Hs as [| | t u Ht | t u tr r Ht Hu Hs IH]; try discriminate.
  - injection Er as <-. now exists [], t.
  - destruct (IH Er) as [pre [t' ->]].
    now exists (EvNow t :: EvCall (Normal u) :: EvSleep (timer_delay I) :: pre), t'.
Qed.

(** A rejection of the contract is the timeout error or a value a call
    of the condition threw. *)
Lemma poll_spec_raise s T I tr e :
  poll_spec s T I tr (Raise e) ->
  e = timeout_error \/ exists v, e = ThrownValue v /\ In (EvCall (Threw v)) tr.
Proof.
  intros Hs. remember (Raise e) as r eqn:Er.
  induction Hs as [t Ht| |t v Ht|t u tr r Ht Hu Hs IH]; try discriminate.
  - injection Er as <-. now left.
  - injection Er as <-. right. exists v. split; [reflexivity|]. right. now left.
  - destruct (IH Er) as [He|[v [-> Hin]]]; [now left|]. right. exists v.
    split; [reflexivity|]. now do 3 right.
Qed.

Section Poller.
Context {W : Type} `{Runtime W}.

(** [Date.now()] *)
Definition date_now : JsM W poll_event Z :=
  fun w =>
    let w' := date_now_tick w in
    mkRun w' [EvNow (clock w')] (Done (clock w')).

(** [await condition()]: a value the condition throws, or a promise it
    returns that rejects, makes the [await] throw. *)
Definition call_condition (condition : W -> W * completion)
  : JsM W poll_event jsval :=
  fun w =>
    let (w', c) := condition w in
    mkRun w' [EvCall c]
          (match c with
           | Normal v => Done v
           | Threw v => Raise (ThrownValue v)
           end).

(** [await new Promise((resolve) => setTimeout(resolve, interval))] *)
Definition sleep (interval : jsnum) : JsM W poll_event unit :=
  fun w =>
    let d := timer_delay interval in
    mkRun (timer_wait d w) [EvSleep d] (Done tt).

(** Lines 13-19: [while (Date.now() - startTime < timeout) { if (await
    condition()) return true; await sleep; } throw new Error(..)]. *)
Fixpoint poll_loop (fuel : nat) (condition : W -> W * completion)
         (startTime : Z) (timeout interval : jsnum)
  : JsM W poll_event jsval :=
  match fuel with
  | O => out_of_fuel
  | S fuel' =>
      let* now := date_now in
      if js_lt (now - startTime) timeout then
        let* v := call_condition condition in
        if truthy v then ret (JBool true)
        else
          let* _ := sleep interval in
          poll_loop fuel' condition startTime timeout interval
      else raise timeout_error
  end.

(** Lines 11-12: the default parameters ([undefined] is [None]) and the
    start time, then the loop. *)
Definition waitForCondition (fuel : nat) (condition : W -> W * completion)
           (timeout interval : option jsnum) : JsM W poll_event jsval :=
  let timeout := param_default (JFin 5000) timeout in
  let interval := param_default (JFin 100) interval in
  let* startTime := date_now in
  poll_loop fuel condition startTime timeout interval.

(** The JSDoc of lines 5-10. Line 7, [@param {Function} condition -
    返回 boolean 的函数]: the condition is a function returning a boolean. *)
Definition condition_returns_boolean (condition : W -> W * completion) : Prop :=
  forall w, exists b, snd (condition w) = Normal (JBool b).

(** Line 6, [等待条件为真，超时则抛出错误]: the promise resolves when the
    condition is true, and the function throws on timeout. *)
Definition wait_outcome_documented (r : outcome exn jsval) : Prop :=
  r = Done (JBool true) \/ r = Raise timeout_error.

(** ** One round of the loop *)

Lemma bind_date_now {A} (k : Z -> JsM W poll_event A) w :
  bind date_now k w =
  mkRun (r_world (k (clock (date_now_tick w)) (date_now_tick w)))
        (EvNow (clock (date_now_tick w))
           :: r_trace (k (clock (date_now_tick w)) (date_now_tick w)))
        (r_result (k (clock (date_now_tick w)) (date_now_tick w))).
Proof. reflexivity. Qed.

(** The loop body, unfolded once: the test, the call, and either the
    return, the propagated error, or the sleep and the next round. *)
Lemma poll_loop_S fuel condition s T I w :
  poll_loop (S fuel) condition s T I w =
  let w1 := date_now_tick w in
  let t := clock w1 in
  if js_lt (t - s) T then
    let (w2, c) := condition w1 in
    match c with
    | Normal v =>
        if truthy v then mkRun w2 [EvNow t; EvCall c] (Done (JBool true))
        else
          let r := poll_loop fuel condition s T I (timer_wait (timer_delay I) w2) in
          mkRun (r_world r)
                (EvNow t :: EvCall c :: EvSleep (timer_delay I) :: r_trace r)
                (r_result r)
    | Threw v => mkRun w2 [EvNow t; EvCall c] (Raise (ThrownValue v))
    end
  else mkRun w1 [EvNow t] (Raise timeout_error).
Proof.
  simpl. unfold bind at 1. simpl.
  destruct (js_lt _ T); [|reflexivity].
  unfold bind, call_condition. destruct (condition (date_now_tick w)) as [w2 [v|v]]; simpl;
    [|reflexivity].
  destruct (truthy v); reflexivity.
Qed.

Lemma waitForCondition_unfold fuel condition T I w :
  waitForCondition fuel condition T I w =
  let w0 := date_now_tick w in
  let r := poll_loop fuel condition (clock w0)
             (param_default (JFin 5000) T) (param_default (JFin 100) I) w0 in
  mkRun (r_world r) (EvNow (clock w0) :: r_trace r) (r_result r).
Proof. reflexivity. Qed.

Section Loop.
Variable condition : W -> W * completion.
Variables (s : Z) (T I : jsnum).

(** Every settled run of the loop follows the contract. *)
Lemma poll_loop_refines n w :
  settled (r_result (poll_loop n condition s T I w)) = true ->
  poll_spec s T I (r_trace (poll_loop n condition s T I w))
                  (r_result (poll_loop n condition s T I w)).
Proof.
  revert w. induction n as [|n IH]; intros w Hs; [discriminate|].
  rewrite poll_loop_S in *; cbv zeta in *.
  destruct (js_lt _ _) eqn:Ht; [|now constructor].
  destruct (condition _) as [w2 [v|v]]; cbn in *; [|now constructor].
  destruct (truthy v) eqn:Hv; cbn in *; [now constructor|].
  constructor; auto.
Qed.

(** The loop rejects with the timeout error only from a round whose
    test read the final clock at or past the deadline. *)
Lemma poll_loop_deadline n w :
  r_result (poll_loop n condition s T I w) = Raise timeout_error ->
  js_lt (clock (r_world (poll_loop n condition s T I w)) - s) T = false.
Proof.
  revert w. induction n as [|n IH]; intros w Hr; [discriminate|].
  rewrite poll_loop_S in *; cbv zeta in *.
  destruct (js_lt _ _) eqn:Ht; [|exact Ht].
  destruct (condition _) as [w2 [v|v]]; cbn in *; [|discriminate].
  destruct (truthy v); cbn in *; [discriminate|auto].
Qed.

(** Every completion of a call in the trace is an answer of the
    condition. *)
Lemma poll_loop_call_from n w c :
  In (EvCall c) (r_trace (poll_loop n condition s T I w)) ->
  exists w', snd (condition w') = c.
Proof.
  revert w. induction n as [|n IH]; intros w Hin; [destruct Hin|].
  rewrite poll_loop_S in Hin; cbv zeta in Hin.
  destruct (js_lt _ _) in Hin; [|destruct Hin as [Hin|[]]; discriminate].
  destruct (condition (date_now_tick w)) as [w2 c'] eqn:Hc.
  assert (Hhere : EvCall c' = EvCall c -> exists w', snd (condition w') = c)
    by (intros [= <-]; exists (date_now_tick w); now rewrite Hc).
  destruct c' as [v|v]; [destruct (truthy v)|];
    cbn [r_trace In] in Hin; destruct Hin as [Hin|[Hin|Hin]]; try discriminate;
    try contradiction; auto.
  destruct Hin as [Hin|Hin]; [discriminate|eauto].
Qed.

(** A call that threw ends the loop: the run rejects with the thrown
    value, and that call is the last event of the trace. *)
Lemma poll_loop_threw n w e :
  In (EvCall (Threw e)) (r_trace (poll_loop n condition s T I w)) ->
  r_result (poll_loop n condition s T I w) = Raise (ThrownValue e) /\
  exists pre t, r_trace (poll_loop n condition s T I w) = pre ++ [EvNow t; EvCall (Threw e)].
Proof.
  revert w. induction n as [|n IH]; intros w Hin; [destruct Hin|].
  rewrite poll_loop_S in *; cbv zeta in *.
  destruct (js_lt _ _); [|destruct Hin as [Hin|[]]; discriminate].
  destruct (condition (date_now_tick w)) as [w2 [v|v]].
  - destruct (truthy v); cbn [r_trace r_result In] in *;
      destruct Hin as [Hin|[Hin|Hin]]; try discriminate; try contradiction.
    destruct Hin as [Hin|Hin]; [discriminate|].
    destruct (IH _ Hin) as [Hr (pre & t & Htr)]. split; [exact Hr|].
    rewrite Htr. now eexists (_ :: _ :: _ :: pre), t.
  - cbn [r_trace r_result In] in *.
    destruct Hin as [Hin|[Hin|[]]]; [discriminate|]. injection Hin as ->.
    split; [reflexivity|]. now exists [], (clock (date_now_tick w)).
Qed.

(** Every sleep of the loop lasts the normalised interval. *)
Lemma poll_loop_sleeps n w d :
  In (EvSleep d) (r_trace (poll_loop n condition s T I w)) ->
  d = timer_delay I.
Proof.
  revert w. induction n as [|n IH]; intros w Hin; [destruct Hin|].
  rewrite poll_loop_S in Hin; cbv zeta in Hin.
  destruct (js_lt _ _) in Hin; [|destruct Hin as [Hin|[]]; discriminate].
  destruct (condition _) as [w2 [v|v]] in Hin;
    [|destruct Hin as [Hin|[Hin|[]]]; discriminate].
  destruct (truthy v) in Hin; [destruct Hin as [Hin|[Hin|[]]]; discriminate|].
  destruct Hin as [Hin|[Hin|[Hin|Hin]]]; try discriminate.
  - congruence.
  - eauto.
Qed.
End Loop.

(** ** Progress of the clock *)

Section Timed.
Context `{!RuntimeLaws W}.
Variable condition : W -> W * completion.
(** A call of the condition does not turn the clock back. *)
Hypothesis cond_mono : forall w, clock w <= clock (fst (condition w)).
Variables (s Tms : Z) (I : jsnum).

(** A round that sleeps ends at least [timer_delay I] ms after the
    clock it read, itself no earlier than the clock it started from. *)
Lemma round_progress w w2 v :
  condition (date_now_tick w) = (w2, v) ->
  clock w <= clock (date_now_tick w) /\
  clock (date_now_tick w) + timer_delay I
    <= clock (timer_wait (timer_delay I) w2).
Proof.
  intros Hc. pose proof (cond_mono (date_now_tick w)) as Hm.
  rewrite Hc in Hm. cbn in Hm.
  pose proof (timer_wait_delay (timer_delay I) w2).
  pose proof (date_now_tick_mono w). lia.
Qed.

(** Termination measure: the milliseconds left before the deadline. *)
Lemma poll_loop_settles n w :
  (Z.to_nat (Tms - (clock w - s)) < n)%nat ->
  settled (r_result (poll_loop n condition s (JFin Tms) I w)) = true.
Proof.
  revert w. induction n as [|n IH]; intros w Hn; [lia|].
  rewrite poll_loop_S; cbv zeta.
  destruct (js_lt _ _) eqn:Ht; [|reflexivity].
  destruct (condition _) as [w2 [v|v]] eqn:Hc; [|reflexivity].
  destruct (truthy v); [reflexivity|].
  cbn. apply IH.
  destruct (round_progress _ _ _ Hc).
  pose proof (timer_delay_pos I).
  cbn in Ht. apply Z.ltb_lt in Ht. lia.
Qed.

(** Each call after the first comes at least [timer_delay I] ms after
    the previous one, and every call starts before the deadline. *)
Lemma poll_loop_calls n w :
  let k := Z.of_nat (count_if is_call (r_trace (poll_loop n condition s (JFin Tms) I w))) in
  k = 0 \/ (k - 1) * timer_delay I < Tms - (clock w - s).
Proof.
  revert w. induction n as [|n IH]; intros w; cbv zeta; [now left|].
  rewrite poll_loop_S; cbv zeta.
  destruct (js_lt _ _) eqn:Ht; [|now left].
  cbn in Ht. apply Z.ltb_lt in Ht.
  pose proof (date_now_tick_mono w).
  destruct (condition _) as [w2 [v|v]] eqn:Hc;
    [destruct (truthy v)|]; cbn [r_trace];
    rewrite ?count_if_cons, ?count_if_nil; cbn [is_call];
    try (right; lia).
  right. destruct (round_progress _ _ _ Hc).
  specialize (IH (timer_wait (timer_delay I) w2)). cbv zeta in IH.
  pose proof (timer_delay_pos I). nia.
Qed.
End Timed.

(** ** Overrun of the deadline *)

Section Overrun.
Variable condition : W -> W * completion.
(** How far each step of the runtime may overrun: [Date.now()] by [a],
    a call of the condition by [c], a timer by [j] past its delay. *)
Variables (a c j : Z).
Hypothesis tick_upper : forall w, clock (date_now_tick w) <= clock w + a.
Hypothesis cond_upper : forall w, clock (fst (condition w)) <= clock w + c.
Hypothesis timer_upper : forall d w, clock (timer_wait d w) <= clock w + d + j.
Variables (s Tms : Z) (I : jsnum).

Lemma poll_loop_overrun n w :
  clock w - s <= Tms - 1 + c + timer_delay I + j ->
  r_result (poll_loop n condition s (JFin Tms) I w) = Raise timeout_error ->
  clock (r_world (poll_loop n condition s (JFin Tms) I w)) - s
    <= Tms - 1 + c + timer_delay I + j + a.
Proof.
  revert w. induction n as [|n IH]; intros w Hw Hr; [discriminate|].
  rewrite poll_loop_S in *; cbv zeta in *.
  pose proof (tick_upper w).
  destruct (js_lt _ _) eqn:Ht; [|cbn; lia].
  cbn in Ht. apply Z.ltb_lt in Ht.
  destruct (condition _) as [w2 [v|v]] eqn:Hc; cbn in *; [|discriminate].
  destruct (truthy v); cbn in *; [discriminate|].
  apply IH; auto.
  pose proof (cond_upper (date_now_tick w)) as Hm. rewrite Hc in Hm. cbn in Hm.
  pose proof (timer_upper (timer_delay I) w2). lia.
Qed.
End Overrun.

(** ** Properties of [waitForCondition] *)

(** C1. Termination: with a finite timeout of [Tms] ms, on a runtime
    whose clock never goes back and whose timers never fire early, and a
    condition that does not turn the clock back, the promise of
    [waitForCondition] settles (resolves or rejects) within
    [Z.to_nat Tms + 1] rounds of the loop, whatever the condition
    answers. *)
Theorem waitForCondition_settles `{!RuntimeLaws W}
        (condition : W -> W * completion)
        (cond_mono : forall w, clock w <= clock (fst (condition w)))
        fuel Tms I w :
  (Z.to_nat Tms < fuel)%nat ->
  settled (r_result (waitForCondition fuel condition (Some (JFin Tms)) I w)) = true.
Proof.
  intros Hf. rewrite waitForCondition_unfold. cbv zeta. cbn [r_result].
  apply poll_loop_settles; auto. now rewrite Z.sub_diag, Z.sub_0_r.
Qed.

(** C2. Refinement: every settled run of [waitForCondition] reads the
    start time [t0] and then follows the contract [poll_spec] of the
    loop, for the timeout and interval after the defaults 5000 and 100
    are applied. *)
Theorem waitForCondition_refines fuel (condition : W -> W * completion) T I w :
  let r := waitForCondition fuel condition T I w in
  settled (r_result r) = true ->
  exists t0 tr, r_trace r = EvNow t0 :: tr /\
    poll_spec t0 (param_default (JFin 5000) T) (param_default (JFin 100) I)
              tr (r_result r).
Proof.
  rewrite waitForCondition_unfold. cbv zeta. cbn [r_trace r_result].
  intros Hs. eexists _, _. split; [reflexivity|]. now apply poll_loop_refines.
Qed.

(** C3. Bound on the calls: with a timeout of [Tms >= 0] ms, the
    condition is called at most [ceil (Tms / d)] times, [d] the
    normalised interval [timer_delay interval] (the spec's bound
    [ceil (timeout / interval) + 1] holds a fortiori). *)
Theorem waitForCondition_calls_bound `{!RuntimeLaws W}
        (condition : W -> W * completion)
        (cond_mono : forall w, clock w <= clock (fst (condition w)))
        fuel Tms I w :
  0 <= Tms ->
  let d := timer_delay (param_default (JFin 100) I) in
  Z.of_nat (count_if is_call
              (r_trace (waitForCondition fuel condition (Some (JFin Tms)) I w)))
    <= (Tms + d - 1) / d.
Proof.
  intros HT. cbv zeta. rewrite waitForCondition_unfold. cbv zeta. cbn [r_trace].
  rewrite count_if_cons. cbn [is_call].
  pose proof (timer_delay_pos (param_default (JFin 100) I)) as Hd.
  destruct (poll_loop_calls condition cond_mono (clock (date_now_tick w)) Tms
              (param_default (JFin 100) I) fuel (date_now_tick w)) as [H0|Hlt];
    simpl Nat.add.
  - rewrite H0. apply Z.div_pos; lia.
  - apply attempts_le_ceil; lia.
Qed.

(** C4. A timeout of zero or less rejects with the timeout error
    without ever calling the condition: the test of line 13 comes
    before the first call (the spec says the condition is evaluated
    once). *)
Theorem waitForCondition_nonpositive_timeout `{!RuntimeLaws W}
        fuel (condition : W -> W * completion) Tms I w :
  Tms <= 0 -> (0 < fuel)%nat ->
  let r := waitForCondition fuel condition (Some (JFin Tms)) I w in
  r_result r = Raise timeout_error /\ count_if is_call (r_trace r) = 0%nat.
Proof.
  intros HT Hf. destruct fuel as [|fuel]; [lia|].
  rewrite waitForCondition_unfold. cbv zeta. rewrite poll_loop_S. cbv zeta.
  pose proof (date_now_tick_mono (date_now_tick w)).
  replace (js_lt _ _) with false; [split; reflexivity|].
  symmetry. apply Z.ltb_ge. lia.
Qed.

(** C5. Never early: when the promise rejects with the timeout error,
    the clock of the final world is at least [Tms] ms past the start
    time read at line 12. *)
Theorem waitForCondition_never_early fuel (condition : W -> W * completion) Tms I w :
  let r := waitForCondition fuel condition (Some (JFin Tms)) I w in
  r_result r = Raise timeout_error ->
  exists t0 tr, r_trace r = EvNow t0 :: tr /\ t0 + Tms <= clock (r_world r).
Proof.
  rewrite waitForCondition_unfold. cbv zeta. cbn [r_trace r_result r_world].
  intros Hr. eexists _, _. split; [reflexivity|].
  apply poll_loop_deadline in Hr. cbn [js_lt] in Hr. apply Z.ltb_ge in Hr. lia.
Qed.

(** C6. Bounded overrun: on a runtime where [Date.now()] advances the
    clock by at most [a] ms, a call of the condition takes at most [c]
    ms and a timer resumes at most [j] ms late, the timeout error comes
    less than [Tms + c + d + j + a] ms after the start, [d] the
    normalised interval (the spec's "timeout + interval + one
    evaluation"). *)
Theorem waitForCondition_overrun (condition : W -> W * completion) (a c j : Z)
        (tick_upper : forall w, clock (date_now_tick w) <= clock w + a)
        (cond_upper : forall w, clock (fst (condition w)) <= clock w + c)
        (timer_upper : forall d w, clock (timer_wait d w) <= clock w + d + j)
        fuel Tms I w :
  0 <= Tms -> 0 <= c -> 0 <= j ->
  let r := waitForCondition fuel condition (Some (JFin Tms)) I w in
  r_result r = Raise timeout_error ->
  exists t0 tr, r_trace r = EvNow t0 :: tr /\
    clock (r_world r) - t0 < Tms + c + timer_delay (param_default (JFin 100) I) + j + a.
Proof.
  intros HT Hc Hj. rewrite waitForCondition_unfold. cbv zeta.
  cbn [r_trace r_result r_world param_default]. intros Hr. eexists _, _. split; [reflexivity|].
  pose proof (timer_delay_pos (param_default (JFin 100) I)).
  eapply poll_loop_overrun in Hr; eauto; lia.
Qed.

(** C7. Success: the promise resolves only with [true] (not with the
    condition's value), right after a call whose awaited value is
    truthy: no sleep follows the successful call. *)
Theorem waitForCondition_resolves_true fuel (condition : W -> W * completion) T I w v :
  let r := waitForCondition fuel condition T I w in
  r_result r = Done v ->
  v = JBool true /\
  exists pre t u, r_trace r = pre ++ [EvNow t; EvCall (Normal u)] /\ truthy u = true.
Proof.
  rewrite waitForCondition_unfold. cbv zeta. cbn [r_trace r_result]. intros Hr.
  pose proof (poll_loop_refines condition (clock (date_now_tick w)) (param_default (JFin 5000) T)
                (param_default (JFin 100) I) fuel (date_now_tick w)) as Hs.
  rewrite Hr in Hs. apply poll_spec_done in Hs as [-> [pre [t [u [Htr Hu]]]]]; [|reflexivity].
  split; [reflexivity|]. rewrite Htr. now exists (EvNow (clock (date_now_tick w)) :: pre), t, u.
Qed.

(** C8. Errors of the condition are never caught: as soon as a call
    of the condition throws (or returns a promise that rejects) with
    [e], the promise of [waitForCondition] rejects with [e], and that
    call is the last event of the run: no retry, no sleep after it.
    Conversely a rejection with a thrown value comes from such a call. *)
Theorem waitForCondition_propagates fuel (condition : W -> W * completion) T I w e :
  let r := waitForCondition fuel condition T I w in
  In (EvCall (Threw e)) (r_trace r) <->
  r_result r = Raise (ThrownValue e) /\
  exists pre t, r_trace r = pre ++ [EvNow t; EvCall (Threw e)].
Proof.
  rewrite waitForCondition_unfold. cbv zeta. cbn [r_trace r_result]. split.
  - intros [Hin|Hin]; [discriminate|].
    destruct (poll_loop_threw condition _ _ _ fuel _ e Hin) as [Hr (pre & t & Htr)].
    split; [exact Hr|]. rewrite Htr. now exists (EvNow (clock (date_now_tick w)) :: pre), t.
  - intros [_ (pre & t & ->)]. apply in_or_app. right. right. left. reflexivity.
Qed.

(** C9. Interval normalisation: an interval below 1 ms or above
    [TIMEOUT_MAX] (2^31 - 1 ms, about 24.8 days) makes every sleep of
    the loop last 1 ms: the poller then polls as fast as the timers
    allow. *)
Theorem waitForCondition_interval_clamped fuel (condition : W -> W * completion)
        T z w d :
  (z < 1 \/ TIMEOUT_MAX < z) ->
  In (EvSleep d) (r_trace (waitForCondition fuel condition T (Some (JFin z)) w)) ->
  d = 1.
Proof.
  intros Hz Hin. rewrite waitForCondition_unfold in Hin. cbv zeta in Hin.
  destruct Hin as [Hin|Hin]; [discriminate|].
  apply poll_loop_sleeps in Hin. rewrite Hin. cbn [param_default timer_delay].
  destruct (Z.leb_spec 1 z); destruct (Z.leb_spec z TIMEOUT_MAX); simpl; lia.
Qed.

(** C10. With a positive timeout, and a [Date.now()] that does not
    advance within the synchronous start of the function, the condition
    is called at least once. *)
Theorem waitForCondition_calls_once `{!RuntimeLaws W}
        (tick_same : forall w, clock (date_now_tick w) = clock w)
        fuel (condition : W -> W * completion) Tms I w :
  0 < Tms -> (0 < fuel)%nat ->
  (1 <= count_if is_call
          (r_trace (waitForCondition fuel condition (Some (JFin Tms)) I w)))%nat.
Proof.
  intros HT Hf. destruct fuel as [|fuel]; [lia|].
  rewrite waitForCondition_unfold. cbv zeta. rewrite poll_loop_S. cbv zeta.
  rewrite tick_same. cbn [param_default js_lt].
  replace (_ <? Tms) with true by (symmetry; apply Z.ltb_lt; lia).
  destruct (condition _) as [w2 [v|v]]; [destruct (truthy v)|]; cbn [r_trace];
    rewrite !count_if_cons; cbn [is_call]; lia.
Qed.

(** ** A runtime without overruns

    [Date.now()] reads the clock without moving it, the condition takes
    no time and a timer of [d] ms resumes exactly [d] ms later; the
    condition answers a falsy value every time. *)
Section Exact.
Variable condition : W -> W * completion.
Hypothesis tick_same : forall w, clock (date_now_tick w) = clock w.
Hypothesis cond_instant : forall w, clock (fst (condition w)) = clock w.
Hypothesis timer_exact : forall d w, clock (timer_wait d w) = clock w + d.
Hypothesis cond_falsy : forall w, exists v, snd (condition w) = Normal v /\ truthy v = false.
Variables (s Tms : Z) (I : jsnum).

(** From a round whose test reads [e = clock w - s], the loop calls the
    condition [k] times, the least [k] with [Tms <= e + k * d], and
    rejects [k * d] ms later. *)
Lemma poll_loop_falsy_exact n w :
  (Z.to_nat (Tms - (clock w - s)) < n)%nat ->
  let r := poll_loop n condition s (JFin Tms) I w in
  exists k : nat,
    r_result r = Raise timeout_error /\ count_if is_call (r_trace r) = k /\
    clock (r_world r) = clock w + Z.of_nat k * timer_delay I /\
    Tms <= clock w - s + Z.of_nat k * timer_delay I /\
    (k = 0%nat \/ clock w - s + (Z.of_nat k - 1) * timer_delay I < Tms).
Proof.
  revert w. induction n as [|n IH]; intros w Hn; [lia|].
  pose proof (timer_delay_pos I) as Hd.
  rewrite poll_loop_S. cbv zeta. rewrite tick_same. cbn [js_lt].
  destruct (Z.ltb_spec (clock w - s) Tms) as [Hlt|Hge].
  - destruct (cond_falsy (date_now_tick w)) as (v & Hc & Hv).
    pose proof (cond_instant (date_now_tick w)) as Hi.
    destruct (condition (date_now_tick w)) as [w2 c]. cbn [fst snd] in Hc, Hi. subst c.
    rewrite Hv. set (w' := timer_wait (timer_delay I) w2).
    assert (Hw' : clock w' = clock w + timer_delay I)
      by (unfold w'; rewrite timer_exact, Hi, tick_same; reflexivity).
    destruct (IH w') as (k & Hr & Hk & Hc' & Hge' & Hlt'); [rewrite Hw'; lia|].
    exists (S k). cbn [r_result r_world r_trace]. rewrite !count_if_cons, Hk.
    cbn [is_call]. rewrite Nat2Z.inj_succ.
    split; [exact Hr|]. split; [lia|]. split; [nia|]. split; [nia|].
    right. destruct Hlt' as [->|Hlt']; [cbn; lia|nia].
  - exists 0%nat. cbn [r_result r_world r_trace]. rewrite !count_if_cons, count_if_nil.
    cbn [is_call]. rewrite tick_same.
    split; [reflexivity|]. split; [reflexivity|]. split; [lia|]. split; [lia|left; reflexivity].
Qed.
End Exact.

(** C11. Exactness: on a runtime without overruns, a condition that
    always answers a falsy value is called exactly [k] times, [k] the
    least number with [Tms <= k * d] ([k = ceil (Tms / d)], [d] the
    normalised interval), and the timeout error comes exactly [k * d] ms
    after the start: the bound of C3 is reached, and the rejection
    comes neither early nor late. *)
Theorem waitForCondition_falsy_exact (condition : W -> W * completion)
        (tick_same : forall w, clock (date_now_tick w) = clock w)
        (cond_instant : forall w, clock (fst (condition w)) = clock w)
        (timer_exact : forall d w, clock (timer_wait d w) = clock w + d)
        (cond_falsy : forall w, exists v, snd (condition w) = Normal v /\ truthy v = false)
        fuel Tms I w :
  0 < Tms -> (Z.to_nat Tms < fuel)%nat ->
  let d := timer_delay (param_default (JFin 100) I) in
  let r := waitForCondition fuel condition (Some (JFin Tms)) I w in
  exists k : nat,
    r_result r = Raise timeout_error /\ count_if is_call (r_trace r) = k /\
    clock (r_world r) = clock w + Z.of_nat k * d /\
    (Z.of_nat k - 1) * d < Tms <= Z.of_nat k * d.
Proof.
  intros HT Hf. rewrite waitForCondition_unfold. cbv zeta. cbn [param_default r_result r_world r_trace].
  destruct (poll_loop_falsy_exact condition tick_same cond_instant timer_exact cond_falsy
              (clock (date_now_tick w)) Tms (param_default (JFin 100) I) fuel (date_now_tick w))
    as (k & Hr & Hk & Hc & Hge & Hlt); [rewrite Z.sub_diag, Z.sub_0_r; exact Hf|].
  rewrite Z.sub_diag in Hge, Hlt.
  exists k. rewrite count_if_cons, Hk. cbn [is_call].
  split; [exact Hr|]. split; [reflexivity|]. split; [rewrite Hc, tick_same; reflexivity|]. split; [|lia].
  destruct Hlt as [->|Hlt]; [cbn in Hge; lia|lia].
Qed.

(** C22. The JSDoc contract (lines 5-10): with arguments of the
    documented types, a condition returning booleans and a timeout of
    [Tms] milliseconds, on a lawful runtime, the promise settles and only
    as documented: it resolves [true] or rejects with the timeout
    [Error]. *)
Theorem waitForCondition_jsdoc `{!RuntimeLaws W} (condition : W -> W * completion)
        (Hdoc : condition_returns_boolean condition)
        (cond_mono : forall w, clock w <= clock (fst (condition w)))
        fuel Tms I w :
  (Z.to_nat Tms < fuel)%nat ->
  wait_outcome_documented (r_result (waitForCondition fuel condition (Some (JFin Tms)) I w)).
Proof.
  intros Hf. rewrite waitForCondition_unfold. cbv zeta. cbn [r_result param_default].
  set (w0 := date_now_tick w).
  assert (Hs : settled (r_result (poll_loop fuel condition (clock w0) (JFin Tms)
                                   (param_default (JFin 100) I) w0)) = true)
    by (apply poll_loop_settles; auto; rewrite Z.sub_diag, Z.sub_0_r; exact Hf).
  pose proof (poll_loop_refines condition _ _ _ fuel w0 Hs) as Hspec.
  destruct (r_result (poll_loop _ _ _ _ _ _)) as [v|e|] eqn:Hr; [| |discriminate].
  - left. apply poll_spec_done in Hspec as [-> _]. reflexivity.
  - right. apply poll_spec_raise in Hspec as [-> | (v & -> & Hin)]; [reflexivity|].
    apply poll_loop_call_from in Hin as [w' Hw']. destruct (Hdoc w') as [b Hb]. congruence.
Qed.
End Poller.


(** ** Scenarios of the spec on the simulated runtime *)

(** The simulated world at time 0, before any call. *)
Definition sim0 : sim_world := SimWorld 0 0.

(** Scenario A: a condition true on its third call, [interval = 100],
    [timeout = 5000], calls costing no time: the promise resolves with
    [true] after exactly 3 calls, 200 ms after the start. *)
Example scenario_A :
  let r := waitForCondition 100 (scripted 0 (true_on_call 3))
                            (Some (JFin 5000)) (Some (JFin 100)) sim0 in
  r_result r = Done (JBool true) /\ count_if is_call (r_trace r) = 3%nat
  /\ sw_clock (r_world r) = 200.
Proof. vm_compute. auto. Qed.

(** Scenario B: a condition always false, [interval = 50],
    [timeout = 200]: the promise rejects with the timeout error after
    exactly 4 calls (at 0, 50, 100 and 150 ms), 200 ms after the start. *)
Example scenario_B :
  let r := waitForCondition 100 (scripted 0 (always (JBool false)))
                            (Some (JFin 200)) (Some (JFin 50)) sim0 in
  r_result r = Raise timeout_error /\ count_if is_call (r_trace r) = 4%nat
  /\ sw_clock (r_world r) = 200.
Proof. vm_compute. auto. Qed.

(** A condition on the simulated runtime that answers [ans j] at its
    [j]-th call and takes no time. *)
Definition answers (ans : nat -> jsval) : sim_world -> sim_world * completion :=
  scripted 0 (fun j => Normal (ans j)).

(** From a world that has seen [sw_calls w] calls, with the [k]-th call
    to come the first whose answer is truthy, and before the deadline:
    the loop resolves [true] after exactly [k] calls, [k - 1] intervals
    later. *)
Lemma poll_loop_first_truthy ans s Tms I k :
  forall n w, (1 <= k <= n)%nat ->
  (forall j, (1 <= j < k)%nat -> truthy (ans (sw_calls w + j)%nat) = false) ->
  truthy (ans (sw_calls w + k)%nat) = true ->
  sw_clock w - s + (Z.of_nat k - 1) * timer_delay I < Tms ->
  let r := poll_loop n (answers ans) s (JFin Tms) I w in
  r_result r = Done (JBool true) /\ count_if is_call (r_trace r) = k /\
  sw_clock (r_world r) = sw_clock w + (Z.of_nat k - 1) * timer_delay I.
Proof.
  pose proof (timer_delay_pos I) as Hd.
  induction k as [|k IH]; intros n w Hk Hfalsy Htrue HT; [lia|].
  destruct n as [|n]; [lia|]. rewrite poll_loop_S. cbv zeta. cbn [js_lt clock date_now_tick sim_runtime].
  rewrite (proj2 (Z.ltb_lt _ _)) by nia. cbn [answers scripted].
  destruct k as [|k].
  - rewrite Nat.add_1_r in Htrue. rewrite Htrue. cbn. split; [reflexivity|]. split; [reflexivity|lia].
  - assert (H1 := Hfalsy 1%nat ltac:(lia)). rewrite Nat.add_1_r in H1. rewrite H1.
    destruct (IH n (timer_wait (timer_delay I) (SimWorld (sw_clock w + Z.of_nat 0) (S (sw_calls w)))))
      as (Hr & Hc & Hw); cbn [timer_wait sim_runtime sw_calls sw_clock] in *; [lia| | |nia|].
    { intros j Hj. replace (S (sw_calls w) + j)%nat with (sw_calls w + S j)%nat by lia.
      apply Hfalsy. lia. }
    { replace (S (sw_calls w) + S k)%nat with (sw_calls w + S (S k))%nat by lia. exact Htrue. }
    cbn [r_result r_trace r_world]. rewrite !count_if_cons, Hc. cbn [is_call].
    split; [exact Hr|]. split; [lia|]. rewrite Hw. nia.
Qed.

(** C24. Truthiness: whatever JavaScript values the condition answers
    (on the simulated runtime, calls taking no time), the poller resolves
    [true] at exactly the first call whose answer is truthy (line 14
    tests [if (await condition())]: the string ["false"], an object or
    [-1] stop it, [0], [""], [null], [undefined] and [NaN] do not),
    provided that call comes before the deadline; it happens [k - 1]
    intervals after the start. *)
Theorem waitForCondition_first_truthy (ans : nat -> jsval) k fuel Tms I :
  (1 <= k <= fuel)%nat ->
  (forall j, (1 <= j < k)%nat -> truthy (ans j) = false) -> truthy (ans k) = true ->
  (Z.of_nat k - 1) * timer_delay (param_default (JFin 100) I) < Tms ->
  let r := waitForCondition fuel (answers ans) (Some (JFin Tms)) I sim0 in
  r_result r = Done (JBool true) /\ count_if is_call (r_trace r) = k /\
  sw_clock (r_world r) = (Z.of_nat k - 1) * timer_delay (param_default (JFin 100) I).
Proof.
  intros Hk Hfalsy Htrue HT. rewrite waitForCondition_unfold. cbv zeta.
  cbn [param_default r_result r_trace r_world].
  destruct (poll_loop_first_truthy ans (clock (date_now_tick sim0)) Tms
              (param_default (JFin 100) I) k fuel (date_now_tick sim0))
    as (Hr & Hc & Hw); [lia|exact Hfalsy|exact Htrue|cbn; lia|].
  rewrite count_if_cons, Hc. split; [exact Hr|]. split; [reflexivity|exact Hw].
Qed.

(** ** Witnesses: the theorems applied where their hypotheses hold *)

(** A condition that answers [false] on its first call and throws the
    string ["boom"] on the second. *)
Definition throws_second : nat -> completion :=
  fun k => if Nat.eqb k 2 then Threw (JString "boom") else Normal (JBool false).

Lemma waitForCondition_settles_witness :
  settled (r_result (waitForCondition 6 (scripted 0 (always (JBool false)))
                                      (Some (JFin 5)) (Some (JFin 1)) sim0)) = true.
Proof.
  apply (waitForCondition_settles (W:=sim_world) (scripted 0 (always (JBool false)))).
  - intros w. apply scripted_mono.
  - simpl. lia.
Defined.

Lemma waitForCondition_refines_witness :
  exists t0 tr,
    r_trace (waitForCondition 10 (scripted 0 (true_on_call 2)) None None sim0)
      = EvNow t0 :: tr /\
    poll_spec t0 (JFin 5000) (JFin 100) tr
      (r_result (waitForCondition 10 (scripted 0 (true_on_call 2)) None None sim0)).
Proof.
  apply (waitForCondition_refines (W:=sim_world) 10 (scripted 0 (true_on_call 2))
           None None sim0).
  vm_compute. reflexivity.
Defined.

Lemma waitForCondition_calls_bound_witness :
  Z.of_nat (count_if is_call
              (r_trace (waitForCondition 300 (scripted 0 (always (JBool false)))
                                         (Some (JFin 250)) (Some (JFin 100)) sim0)))
    <= (250 + 100 - 1) / 100.
Proof.
  apply (waitForCondition_calls_bound (W:=sim_world) (scripted 0 (always (JBool false)))).
  - intros w. apply scripted_mono.
  - lia.
Defined.

Lemma waitForCondition_nonpositive_timeout_witness :
  r_result (waitForCondition 1 (scripted 0 (always (JBool true)))
                             (Some (JFin 0)) None sim0) = Raise timeout_error /\
  count_if is_call (r_trace (waitForCondition 1 (scripted 0 (always (JBool true)))
                                              (Some (JFin 0)) None sim0)) = 0%nat.
Proof.
  apply (waitForCondition_nonpositive_timeout (W:=sim_world)); lia.
Defined.

Lemma waitForCondition_never_early_witness :
  exists t0 tr,
    r_trace (waitForCondition 100 (scripted 0 (always (JBool false)))
                              (Some (JFin 200)) (Some (JFin 50)) sim0) = EvNow t0 :: tr /\
    t0 + 200 <= clock (r_world (waitForCondition 100 (scripted 0 (always (JBool false)))
                                                 (Some (JFin 200)) (Some (JFin 50)) sim0)).
Proof.
  apply (waitForCondition_never_early (W:=sim_world)).
  vm_compute. reflexivity.
Defined.

Lemma waitForCondition_overrun_witness :
  exists t0 tr,
    r_trace (waitForCondition 100 (scripted 7 (always (JBool false)))
                              (Some (JFin 200)) (Some (JFin 50)) sim0) = EvNow t0 :: tr /\
    clock (r_world (waitForCondition 100 (scripted 7 (always (JBool false)))
                                     (Some (JFin 200)) (Some (JFin 50)) sim0)) - t0
      < 200 + 7 + timer_delay (param_default (JFin 100) (Some (JFin 50))) + 0 + 0.
Proof.
  apply (waitForCondition_overrun (W:=sim_world) (scripted 7 (always (JBool false))) 0 7 0).
  - intros w. simpl. lia.
  - intros w. simpl. lia.
  - intros d w. simpl. lia.
  - lia.
  - lia.
  - lia.
  - vm_compute. reflexivity.
Defined.

Lemma waitForCondition_resolves_true_witness :
  JBool true = JBool true /\
  exists pre t u,
    r_trace (waitForCondition 100 (scripted 0 (true_on_call 3)) None None sim0)
      = pre ++ [EvNow t; EvCall (Normal u)] /\ truthy u = true.
Proof.
  apply (waitForCondition_resolves_true (W:=sim_world) 100 (scripted 0 (true_on_call 3))
           None None sim0 (JBool true)).
  vm_compute. reflexivity.
Defined.

Lemma waitForCondition_propagates_witness :
  let r := waitForCondition 100 (scripted 0 throws_second) None None sim0 in
  r_result r = Raise (ThrownValue (JString "boom")) /\
  exists pre t, r_trace r = pre ++ [EvNow t; EvCall (Threw (JString "boom"))].
Proof.
  apply (proj1 (waitForCondition_propagates (W:=sim_world) 100 (scripted 0 throws_second)
                  None None sim0 (JString "boom"))).
  vm_compute. auto 10.
Defined.

Lemma waitForCondition_interval_clamped_witness :
  In (EvSleep 1) (r_trace (waitForCondition (W:=sim_world) 10 (scripted 0 (always (JBool false)))
                                            (Some (JFin 5)) (Some (JFin (2 ^ 31))) sim0)) /\
  1 = 1.
Proof.
  assert (Hin : In (EvSleep 1) (r_trace (waitForCondition (W:=sim_world) 10
                  (scripted 0 (always (JBool false))) (Some (JFin 5)) (Some (JFin (2 ^ 31))) sim0)))
    by (vm_compute; auto 10).
  split; [exact Hin|].
  apply (waitForCondition_interval_clamped (W:=sim_world) 10
           (scripted 0 (always (JBool false))) (Some (JFin 5)) (2 ^ 31) sim0 1); [|exact Hin].
  right. unfold TIMEOUT_MAX. lia.
Defined.

Lemma waitForCondition_jsdoc_witness :
  wait_outcome_documented
    (r_result (waitForCondition 501 (scripted 10 (true_on_call 3)) (Some (JFin 500)) None sim0)).
Proof.
  refine (waitForCondition_jsdoc (W:=sim_world) (scripted 10 (true_on_call 3)) _
            (scripted_mono 10 (true_on_call 3)) 501 500 None sim0 _).
  - intros w. eexists. reflexivity.
  - lia.
Defined.

Lemma waitForCondition_calls_once_witness :
  (1 <= count_if is_call (r_trace (waitForCondition 1 (scripted 0 (always (JBool false)))
                                                    (Some (JFin 1)) None sim0)))%nat.
Proof.
  apply (waitForCondition_calls_once (W:=sim_world)).
  - intros w. reflexivity.
  - lia.
  - lia.
Defined.

(** Answers [0], [""], then the string ["false"]: the third call
    stops the poller. *)
Definition answers_third (j : nat) : jsval :=
  match j with
  | 1%nat => JNumber (JFin 0)
  | 2%nat => JString ""
  | _ => JString "false"
  end.

Lemma waitForCondition_first_truthy_witness :
  let r := waitForCondition 10 (answers answers_third) (Some (JFin 5000)) None sim0 in
  r_result r = Done (JBool true) /\ count_if is_call (r_trace r) = 3%nat /\
  sw_clock (r_world r) = (Z.of_nat 3 - 1) * timer_delay (param_default (JFin 100) None).
Proof.
  apply (waitForCondition_first_truthy answers_third 3 10 5000 None);
    [lia | intros j Hj; destruct j as [|[|[|j]]]; try lia; reflexivity | reflexivity | cbn; lia].
Defined.

Lemma waitForCondition_falsy_exact_witness :
  let r := waitForCondition 201 (scripted 0 (always (JBool false)))
                            (Some (JFin 200)) (Some (JFin 50)) sim0 in
  exists k : nat,
    r_result r = Raise timeout_error /\ count_if is_call (r_trace r) = k /\
    clock (r_world r) = clock sim0 + Z.of_nat k * timer_delay (JFin 50) /\
    (Z.of_nat k - 1) * timer_delay (JFin 50) < 200 <= Z.of_nat k * timer_delay (JFin 50).
Proof.
  apply (waitForCondition_falsy_exact (W:=sim_world) (scripted 0 (always (JBool false))));
    [intros; reflexivity | intros; cbn; lia | intros; reflexivity
    | intros w; exists (JBool false); split; reflexivity | lia | cbn; lia].
Defined.
