(* ===== verification/DateIso.v ===== *)
(** * [Date.prototype.toISOString]

    The ECMAScript formatting of a time value (milliseconds since the
    epoch) as [YYYY-MM-DDTHH:mm:ss.sssZ], used by [captureConsoleLogs]
    (line 33) and [captureScreenshot] (line 45). A platform function,
    modelled from the ECMAScript definition: the day number is split into
    a civil date (proleptic Gregorian calendar, by the usual era/day-of-era
    decomposition), the time within the day into hours, minutes, seconds
    and milliseconds; a year outside [0, 9999] is written with a sign and
    six digits; a time value beyond 8.64e15 ms is invalid and
    [toISOString] throws a [RangeError] ([None] here). [days_from_civil]
    is the inverse calendar map, and [civil_roundtrip] shows it undoes
    [civil_from_days] on every day number. *)

From Stdlib Require Import ZArith List String Ascii Lia Bool.
From S2P Require Import Prelude.
Import ListNotations.
Local Open Scope string_scope.
Local Open Scope Z_scope.

Definition ms_per_day : Z := 86400000.

(** The largest time value: 100 000 000 days on each side of the epoch. *)
Definition max_time : Z := 8640000000000000.

(** Civil date [(year, month, day)] of a day number counted from
    1970-01-01, with floor division so that days before the epoch work. *)
Definition civil_from_days (z0 : Z) : Z * Z * Z :=
  let z := z0 + 719468 in
  let era := z / 146097 in
  let doe := z mod 146097 in
  let yoe := (doe - doe / 1460 + doe / 36524 - doe / 146096) / 365 in
  let doy := doe - (365 * yoe + yoe / 4 - yoe / 100) in
  let mp := (5 * doy + 2) / 153 in
  let d := doy - (153 * mp + 2) / 5 + 1 in
  let m := if mp <? 10 then mp + 3 else mp - 9 in
  let y := yoe + era * 400 + (if m <=? 2 then 1 else 0) in
  (y, m, d).

(** The decimal digit [n] (for [0 <= n <= 9]) as a character. *)
Definition digit (n : Z) : ascii := ascii_of_N (Z.to_N (48 + n)).

(** The last [w] decimal digits of [n], with leading zeros. *)
Fixpoint pad (w : nat) (n : Z) : string :=
  match w with
  | O => ""
  | S w' => pad w' (n / 10) ++ String (digit (n mod 10)) ""
  end.

(** The year field: four digits, or a sign and six digits. *)
Definition year_string (y : Z) : string :=
  if (0 <=? y) && (y <=? 9999) then pad 4 y
  else (if y <? 0 then "-" else "+") ++ pad 6 (Z.abs y).

(** [new Date(t).toISOString()]; [None] is the [RangeError]. *)
Definition to_iso_string (t : Z) : option string :=
  if Z.abs t <=? max_time then
    let msd := t mod ms_per_day in
    let '(y, m, d) := civil_from_days (t / ms_per_day) in
    Some (year_string y ++ "-" ++ pad 2 m ++ "-" ++ pad 2 d ++ "T"
          ++ pad 2 (msd / 3600000) ++ ":" ++ pad 2 (msd / 60000 mod 60) ++ ":"
          ++ pad 2 (msd / 1000 mod 60) ++ "." ++ pad 3 (msd mod 1000) ++ "Z")
  else None.

Example to_iso_string_epoch : to_iso_string 0 = Some "1970-01-01T00:00:00.000Z".
Proof. vm_compute. reflexivity. Qed.

Example to_iso_string_2023 :
  to_iso_string 1700000000123 = Some "2023-11-14T22:13:20.123Z".
Proof. vm_compute. reflexivity. Qed.

Example to_iso_string_leap :
  to_iso_string 951782400000 = Some "2000-02-29T00:00:00.000Z".
Proof. vm_compute. reflexivity. Qed.

Example to_iso_string_before_epoch :
  to_iso_string (-1) = Some "1969-12-31T23:59:59.999Z".
Proof. vm_compute. reflexivity. Qed.

Example to_iso_string_extended :
  to_iso_string max_time = Some "+275760-09-13T00:00:00.000Z"
  /\ to_iso_string (- max_time) = Some "-271821-04-20T00:00:00.000Z"
  /\ to_iso_string (max_time + 1) = None.
Proof. vm_compute. auto. Qed.

(** ** Shape of the formatted string *)

Definition is_digit (c : ascii) : bool :=
  (48 <=? N_of_ascii c)%N && (N_of_ascii c <=? 57)%N.

Lemma digit_is_digit k : 0 <= k < 10 -> is_digit (digit k) = true.
Proof.
  intros Hk.
  assert (k = 0 \/ k = 1 \/ k = 2 \/ k = 3 \/ k = 4 \/ k = 5 \/ k = 6 \/ k = 7
          \/ k = 8 \/ k = 9) as Hc by lia.
  repeat destruct Hc as [-> | Hc]; try reflexivity. subst. reflexivity.
Qed.

Lemma pad_digits w n : str_forall is_digit (pad w n) = true.
Proof.
  revert n. induction w as [|w IH]; intros n; simpl; [reflexivity|].
  rewrite str_forall_app, IH. simpl.
  rewrite digit_is_digit; [reflexivity|]. apply Z.mod_pos_bound. lia.
Qed.

Lemma pad_length w n : String.length (pad w n) = w.
Proof.
  revert n. induction w as [|w IH]; intros n; simpl; [reflexivity|].
  rewrite string_length_app, IH. simpl. lia.
Qed.

(** A test that every digit passes holds of a padded number. *)
Lemma pad_forall (p : ascii -> bool) w n :
  (forall c, is_digit c = true -> p c = true) -> str_forall p (pad w n) = true.
Proof.
  intros Hp. pose proof (pad_digits w n) as Hd. revert Hd.
  generalize (pad w n). intros s. induction s as [|c s IH]; simpl; auto.
  intros Hcs. apply andb_true_iff in Hcs as [Hc Hs]. rewrite Hp, IH; auto.
Qed.

(** A character that is not a digit does not occur in a padded number. *)
Lemma pad_has_not c w n : is_digit c = false -> str_has c (pad w n) = false.
Proof.
  intros Hc. pose proof (pad_digits w n) as Hd. revert Hd.
  generalize (pad w n). intros s. induction s as [|c' s IH]; simpl; auto.
  intros Hcs. apply andb_true_iff in Hcs as [Hc' Hs]. rewrite IH; auto.
  destruct (Ascii.eqb_spec c' c); [congruence|reflexivity].
Qed.

(** The year field is four digits, or a sign and six digits. *)
Lemma year_string_cases y :
  year_string y = pad 4 y \/
  exists sign, (sign = "-"%char \/ sign = "+"%char) /\
               year_string y = String sign (pad 6 (Z.abs y)).
Proof.
  unfold year_string. destruct (_ && _); [now left|right].
  destruct (y <? 0); [exists "-"%char | exists "+"%char]; auto.
Qed.

(** The fields of a formatted time value, in order. *)
Lemma to_iso_string_fields t iso :
  to_iso_string t = Some iso ->
  exists y mo d h mi s ms,
    iso = (year_string y ++ "-" ++ pad 2 mo ++ "-" ++ pad 2 d ++ "T" ++ pad 2 h ++ ":"
           ++ pad 2 mi ++ ":" ++ pad 2 s ++ "." ++ pad 3 ms ++ "Z")%string.
Proof.
  unfold to_iso_string. destruct (Z.abs t <=? max_time); [|discriminate].
  destruct (civil_from_days _) as [[y mo] d]. intros [= <-].
  eexists y, mo, d, _, _, _, _. reflexivity.
Qed.

(** Every time value within [8.64e15] ms of the epoch is formatted. *)
Lemma to_iso_string_valid t : Z.abs t <= max_time -> exists iso, to_iso_string t = Some iso.
Proof.
  intros Ht. unfold to_iso_string. rewrite (proj2 (Z.leb_le _ _) Ht).
  destruct (civil_from_days _) as [[y mo] d]. eauto.
Qed.

(** ** Back from a civil date to the day number *)

(** The inverse of [civil_from_days] (same era decomposition, read
    backwards). It is a tool of the proofs, not code of the program. *)
Definition days_from_civil (y m d : Z) : Z :=
  let y' := y - (if m <=? 2 then 1 else 0) in
  let era := y' / 400 in
  let yoe := y' - era * 400 in
  let mp := if 2 <? m then m - 3 else m + 9 in
  let doy := (153 * mp + 2) / 5 + d - 1 in
  let doe := yoe * 365 + yoe / 4 - yoe / 100 + doy in
  era * 146097 + doe - 719468.

(** Within an era of 146097 days, the year of the era is in [0, 399] and
    the day of the (March-based) year in [0, 365]. *)
Lemma era_fields doe : 0 <= doe < 146097 ->
  let yoe := (doe - doe / 1460 + doe / 36524 - doe / 146096) / 365 in
  let doy := doe - (365 * yoe + yoe / 4 - yoe / 100) in
  0 <= yoe <= 399 /\ 0 <= doy <= 365.
Proof. intros H yoe doy. subst yoe doy. zdiv_lia. Qed.

Lemma month_fields doy : 0 <= doy <= 365 ->
  let mp := (5 * doy + 2) / 153 in
  0 <= mp <= 11 /\ 1 <= doy - (153 * mp + 2) / 5 + 1 <= 31.
Proof. intros H mp. subst mp. zdiv_lia. Qed.

(** The civil date of a day number has a month in [1, 12] and a day in
    [1, 31], and [days_from_civil] gives the day number back. *)
Lemma civil_roundtrip z :
  let '(y, m, d) := civil_from_days z in
  1 <= m <= 12 /\ 1 <= d <= 31 /\ days_from_civil y m d = z.
Proof.
  unfold civil_from_days, days_from_civil.
  pose proof (Z.mod_pos_bound (z + 719468) 146097 ltac:(lia)) as Hdoe.
  pose proof (Z.div_mod (z + 719468) 146097 ltac:(lia)) as Hz.
  set (doe := (z + 719468) mod 146097) in *. set (era := (z + 719468) / 146097) in *.
  destruct (era_fields doe Hdoe) as [Hy Hd].
  set (yoe := (doe - doe / 1460 + doe / 36524 - doe / 146096) / 365) in *.
  set (doy := doe - (365 * yoe + yoe / 4 - yoe / 100)) in *.
  destruct (month_fields doy Hd) as [Hm Hday].
  set (mp := (5 * doy + 2) / 153) in *.
  destruct (Z.ltb_spec mp 10); cbn zeta.
  - destruct (Z.leb_spec (mp + 3) 2); [lia|]. destruct (Z.ltb_spec 2 (mp + 3)); [|lia].
    replace (yoe + era * 400 + 0 - 0) with (era * 400 + yoe) by lia.
    rewrite Z.div_add_l, (Z.div_small yoe 400) by lia.
    replace (mp + 3 - 3) with mp by lia.
    split; [lia|]. split; [lia|].
    replace (era * 400 + yoe - (era + 0) * 400) with yoe by lia. subst doy. lia.
  - destruct (Z.leb_spec (mp - 9) 2); [|lia]. destruct (Z.ltb_spec 2 (mp - 9)); [lia|].
    replace (yoe + era * 400 + 1 - 1) with (era * 400 + yoe) by lia.
    rewrite Z.div_add_l, (Z.div_small yoe 400) by lia.
    replace (mp - 9 + 9) with mp by lia.
    split; [lia|]. split; [lia|].
    replace (era * 400 + yoe - (era + 0) * 400) with yoe by lia. subst doy. lia.
Qed.

(** The year of a valid time value has at most six digits. *)
Lemma civil_year_bound t :
  Z.abs t <= max_time -> Z.abs (fst (fst (civil_from_days (t / ms_per_day)))) <= 999999.
Proof.
  intros Ht. unfold civil_from_days, max_time, ms_per_day in *. cbn [fst].
  pose proof (Z.mod_pos_bound (t / 86400000 + 719468) 146097 ltac:(lia)) as Hdoe.
  destruct (era_fields _ Hdoe) as [Hy _].
  destruct (_ <=? 2); zdiv_lia.
Qed.

(** The time within the day splits into hours, minutes, seconds and
    milliseconds in range, and they add up to the time value. *)
Lemma time_fields t :
  let msd := t mod ms_per_day in
  0 <= msd / 3600000 <= 23 /\ 0 <= msd / 60000 mod 60 <= 59 /\
  0 <= msd / 1000 mod 60 <= 59 /\ 0 <= msd mod 1000 <= 999 /\
  t = t / ms_per_day * ms_per_day + msd / 3600000 * 3600000
      + msd / 60000 mod 60 * 60000 + msd / 1000 mod 60 * 1000 + msd mod 1000.
Proof. unfold ms_per_day. cbv zeta. zdiv_lia. Qed.
