(* ===== verification/JsString.v ===== *)
(** * ECMAScript [ToString] on the values of [JsRuntime]

    The template literal of line 46, [`${name}-${timestamp}.png`], turns
    [name] into a string with [ToString] (ECMAScript, 7.1.17):
    [undefined], [null] and the booleans give their names, a string is
    itself, a number is printed by [Number::toString] (7.1.12.1: decimal
    digits below [10^21], scientific notation [d.ddde+N] from there, a
    leading [-] for negatives, [NaN], [Infinity]), and an object is
    printed by its own [toString] method, which the model takes as the
    parameter [obj_str] (what each object's method returns). A platform
    function, modelled from the standard, not repository code.

    The examples check the three forms of [Number::toString] against the
    values the standard gives. *)

From Stdlib Require Import ZArith List String Ascii Lia Bool.
From S2P Require Import Prelude JsRuntime DateIso.
Import ListNotations.
Local Open Scope string_scope.
Local Open Scope Z_scope.

(** The number of decimal digits of a positive [n]: [fuel] divisions
    by ten at most; [log2 n + 1] of them are always enough. *)
Fixpoint count_digits (fuel : nat) (n : Z) : nat :=
  match fuel with
  | O => O
  | S f => if n <? 10 then 1%nat else S (count_digits f (n / 10))
  end.

Definition num_digits (n : Z) : nat := count_digits (S (Z.to_nat (Z.log2 n))) n.

(** The decimal digits of a positive [n]. *)
Definition decimal (n : Z) : string := pad (num_digits n) n.

(** The trailing zeros of a positive [n] ([fuel] bounds the count). *)
Fixpoint trailing_zeros (fuel : nat) (n : Z) : nat :=
  match fuel with
  | O => O
  | S f => if (n mod 10 =? 0) && (0 <? n) then S (trailing_zeros f (n / 10)) else O
  end.

(** [Number::toString] of a positive integer: [s] is [n] without its
    trailing zeros ([k] digits) and [n] has [e] digits. Below [10^21]
    the digits of [n]; from there [s]'s first digit, a [.] and the other
    digits of [s] when there are any, then [e+] and [e - 1]. *)
Definition positive_to_string (n : Z) : string :=
  if n <? 10 ^ 21 then decimal n
  else
    let z := trailing_zeros (num_digits n) n in
    let s := n / 10 ^ Z.of_nat z in
    let k := num_digits s in
    let e := num_digits n in
    let first := pad 1 (s / 10 ^ Z.of_nat (k - 1)) in
    let rest := pad (k - 1) s in
    first ++ (if (k =? 1)%nat then "" else "." ++ rest) ++ "e+" ++ decimal (Z.of_nat e - 1).

Definition number_to_string (n : jsnum) : string :=
  match n with
  | JNaN => "NaN"
  | JPosInf => "Infinity"
  | JNegInf => "-Infinity"
  | JFin z =>
      if z =? 0 then "0"
      else if z <? 0 then "-" ++ positive_to_string (- z) else positive_to_string z
  end.

(** [ToString(v)]; [obj_str id] is what the [toString] method of object
    [id] returns. *)
Definition js_to_string (obj_str : nat -> string) (v : jsval) : string :=
  match v with
  | JUndefined => "undefined"
  | JNull => "null"
  | JBool true => "true"
  | JBool false => "false"
  | JNumber n => number_to_string n
  | JString s => s
  | JObject id => obj_str id
  end.

Example number_to_string_examples :
  number_to_string (JFin 0) = "0" /\ number_to_string (JFin 1700) = "1700" /\
  number_to_string (JFin (-42)) = "-42" /\
  number_to_string (JFin (10 ^ 21)) = "1e+21" /\
  number_to_string (JFin (123 * 10 ^ 20)) = "1.23e+22" /\
  number_to_string JNaN = "NaN".
Proof. vm_compute. repeat split. Qed.
