(* ===== verification/Screenshot.v ===== *)
(** * Named screenshots: [captureScreenshot]

    [src/.github/skills/webapp-testing/test-helper.js], lines 44-50: the
    current time is formatted by [toISOString] ([DateIso]), its [:] and
    [.] are replaced by [-] (line 45), the file name is
    [`${name}-${timestamp}.png`] (line 46), [page.screenshot] is awaited
    with that path and [fullPage: true] (line 47), a confirmation line is
    printed (line 48) and the name is returned (line 49).

    The function is written in the traced monad of [Prelude] over any
    runtime of [JsRuntime]; the page's [screenshot] method is the argument
    [page], a world transformer like the poller's condition. The trace
    records the clock read, the screenshot request and the printed line.

    [captureScreenshot_js] takes a name of any JavaScript type, as the
    code does: the template literal converts it with [ToString]
    ([JsString]).

    Theorems: the shape of the time stamp (no [:] or [.] left, only
    digits, [-], [T], [Z] and a year sign), the order of the effects,
    the error paths (the page's error, and the [RangeError] of an
    out-of-range clock, which happens exactly beyond 8.64e15 ms and
    before any screenshot), and the spec's scenario D. *)

From Stdlib Require Import ZArith List String Ascii Lia Bool.
From S2P Require Import Prelude JsRuntime DateIso JsString.
Import ListNotations.
Local Open Scope string_scope.
Local Open Scope Z_scope.
Local Open Scope js_scope.

(** The options object [{ path: filename, fullPage: true }]. *)
Record screenshot_options : Type := ScreenshotOptions {
  so_path : string;
  so_fullPage : bool
}.

(** What [captureScreenshot] does to its environment, in order. *)
Inductive shot_event : Type :=
| ShotNewDate (t : Z)                                  (** [new Date()] *)
| ShotCapture (opts : screenshot_options) (c : completion)
                                                       (** [await page.screenshot(opts)] *)
| ShotStdout (line : string).                          (** [console.log(line)] *)

(** [.replace(/[:.]/g, "-")]: every [:] and every [.] becomes [-]. *)
Fixpoint replace_colon_dot (s : string) : string :=
  match s with
  | EmptyString => EmptyString
  | String c s' =>
      String (if Ascii.eqb c ":" || Ascii.eqb c "." then "-"%char else c)
             (replace_colon_dot s')
  end.

(** [`${name}-${timestamp}.png`] *)
Definition screenshot_filename (name timestamp : string) : string :=
  name ++ "-" ++ timestamp ++ ".png".

(** [`截图已保存: ${filename}`] *)
Definition saved_message (filename : string) : string :=
  "截图已保存: " ++ filename.

Section Screenshot.
Context {W : Type} `{Runtime W}.

(** [new Date()]: the current time value. *)
Definition new_date : JsM W shot_event Z :=
  fun w =>
    let w' := date_now_tick w in
    mkRun w' [ShotNewDate (clock w')] (Done (clock w')).

(** [await page.screenshot(opts)] *)
Definition page_screenshot (page : screenshot_options -> W -> W * completion)
           (opts : screenshot_options) : JsM W shot_event jsval :=
  fun w =>
    let (w', c) := page opts w in
    mkRun w' [ShotCapture opts c]
          (match c with
           | Normal v => Done v
           | Threw v => Raise (ThrownValue v)
           end).

(** [console.log(line)] *)
Definition console_log (line : string) : JsM W shot_event unit :=
  fun w => mkRun w [ShotStdout line] (Done tt).

(** Lines 44-50. *)
Definition captureScreenshot (page : screenshot_options -> W -> W * completion)
           (name : string) : JsM W shot_event jsval :=
  let* now := new_date in
  match to_iso_string now with
  | None => raise invalid_time_value
  | Some iso =>
      let timestamp := replace_colon_dot iso in
      let filename := screenshot_filename name timestamp in
      let* _ := page_screenshot page (ScreenshotOptions filename true) in
      let* _ := console_log (saved_message filename) in
      ret (JString filename)
  end.

(** Lines 44-50 for a [name] of any type: [name] is only read by the
    template literal of line 46, which applies [ToString]; [obj_str] is
    what the [toString] methods of objects return. *)
Definition captureScreenshot_js (obj_str : nat -> string)
           (page : screenshot_options -> W -> W * completion) (name : jsval)
  : JsM W shot_event jsval :=
  captureScreenshot page (js_to_string obj_str name).
End Screenshot.

(** ** The time stamp of line 45 *)

Lemma replace_colon_dot_app s1 s2 :
  replace_colon_dot (s1 ++ s2) = (replace_colon_dot s1 ++ replace_colon_dot s2)%string.
Proof. induction s1 as [|c s1 IH]; simpl; congruence. Qed.


Lemma replace_colon_dot_pad w n : replace_colon_dot (pad w n) = pad w n.
Proof.
  pose proof (pad_digits w n) as Hd. revert Hd. generalize (pad w n). intros s.
  induction s as [|c s IH]; simpl; auto.
  intros Hcs. apply andb_true_iff in Hcs as [Hc Hs]. rewrite IH; auto.
  unfold is_digit in Hc.
  destruct (Ascii.eqb_spec c ":"); [subst; discriminate|].
  destruct (Ascii.eqb_spec c "."); [subst; discriminate|]. reflexivity.
Qed.

#[export] Hint Rewrite replace_colon_dot_app replace_colon_dot_pad : js_run.

(** The characters a time stamp may contain: digits, [-], [T], [Z], and
    the sign of an extended year. *)
Definition stamp_char (c : ascii) : bool :=
  is_digit c || Ascii.eqb c "-" || Ascii.eqb c "T" || Ascii.eqb c "Z" || Ascii.eqb c "+".

Lemma pad_stamp_chars w n : str_forall stamp_char (pad w n) = true.
Proof. apply pad_forall. intros c Hc. unfold stamp_char. now rewrite Hc. Qed.

#[export] Hint Rewrite pad_stamp_chars : js_run.

(** The time stamp of a valid time value, field by field. *)
Lemma stamp_fields t iso :
  to_iso_string t = Some iso ->
  exists ys mo d h mi s ms,
    str_forall stamp_char ys = true /\
    str_has "T" ys = false /\ str_has "Z" ys = false /\
    str_has ":" ys = false /\ str_has "." ys = false /\
    (String.length ys = 4 \/ String.length ys = 7)%nat /\
    replace_colon_dot iso =
      (ys ++ "-" ++ pad 2 mo ++ "-" ++ pad 2 d ++ "T" ++ pad 2 h ++ "-"
       ++ pad 2 mi ++ "-" ++ pad 2 s ++ "-" ++ pad 3 ms ++ "Z")%string.
Proof.
  intros Hiso. apply to_iso_string_fields in Hiso as (y & mo & d & h & mi & s & ms & ->).
  exists (replace_colon_dot (year_string y)), mo, d, h, mi, s, ms.
  destruct (year_string_cases y) as [-> | (sign & Hsign & ->)].
  - rewrite replace_colon_dot_pad, pad_stamp_chars, pad_length, !pad_has_not by reflexivity.
    repeat split; auto. run_simpl. reflexivity.
  - destruct Hsign as [-> | ->]; run_simpl;
      cbn [replace_colon_dot Ascii.eqb Bool.eqb andb orb str_forall str_has String.length];
      rewrite ?replace_colon_dot_pad, ?pad_stamp_chars, ?pad_length, ?pad_has_not
        by reflexivity;
      repeat split; auto.
Qed.

Section ScreenshotProps.
Context {W : Type} `{Runtime W}.

(** One run of [captureScreenshot], unfolded: read the clock, format it,
    then either the [RangeError], or the screenshot and, if it succeeds,
    the printed line and the file name. *)
Lemma captureScreenshot_unfold page name w :
  captureScreenshot page name w =
  let w1 := date_now_tick w in
  let t := clock w1 in
  match to_iso_string t with
  | None => mkRun w1 [ShotNewDate t] (Raise invalid_time_value)
  | Some iso =>
      let f := screenshot_filename name (replace_colon_dot iso) in
      let (w2, c) := page (ScreenshotOptions f true) w1 in
      match c with
      | Normal _ => mkRun w2 [ShotNewDate t; ShotCapture (ScreenshotOptions f true) c;
                              ShotStdout (saved_message f)] (Done (JString f))
      | Threw v => mkRun w2 [ShotNewDate t; ShotCapture (ScreenshotOptions f true) c]
                         (Raise (ThrownValue v))
      end
  end.
Proof.
  unfold captureScreenshot, bind at 1, new_date. cbn [r_result r_world r_trace].
  destruct (to_iso_string _); [|reflexivity].
  unfold bind, page_screenshot, console_log, ret.
  destruct (page _ _) as [w2 [v|v]]; reflexivity.
Qed.

(** A resolved capture returns the file name built from the time
    value of its first event. *)
Lemma captureScreenshot_done page name w v :
  r_result (captureScreenshot page name w) = Done v ->
  exists iso,
    to_iso_string (clock (date_now_tick w)) = Some iso /\
    v = JString (screenshot_filename name (replace_colon_dot iso)) /\
    hd_error (r_trace (captureScreenshot page name w)) =
      Some (ShotNewDate (clock (date_now_tick w))).
Proof.
  rewrite captureScreenshot_unfold. cbv zeta.
  destruct (to_iso_string _) as [iso|] eqn:Hiso; [|discriminate].
  destruct (page _ _) as [w2 [img|e]]; intros Hr; [|discriminate].
  injection Hr as <-. exists iso. auto.
Qed.

(** C19. Success: the promise resolves with the very path the page was
    asked to write, with [fullPage: true]; the write completed before the
    single confirmation line, which names that path, was printed. *)
Theorem captureScreenshot_resolves page name w v :
  r_result (captureScreenshot page name w) = Done v ->
  exists t iso img,
    to_iso_string t = Some iso /\
    let f := screenshot_filename name (replace_colon_dot iso) in
    v = JString f /\
    r_trace (captureScreenshot page name w) =
      [ShotNewDate t; ShotCapture (ScreenshotOptions f true) (Normal img);
       ShotStdout (saved_message f)].
Proof.
  rewrite captureScreenshot_unfold. cbv zeta.
  destruct (to_iso_string _) as [iso|] eqn:Hiso; [|discriminate].
  destruct (page _ _) as [w2 [img|e]]; intros Hr; [|discriminate].
  injection Hr as <-. eexists _, iso, img. split; [exact Hiso|]. split; reflexivity.
Qed.

(** C20. Failure: when the promise rejects, nothing was printed; the
    reason is either the [RangeError] of an invalid clock (before any
    screenshot was requested) or exactly the error of [page.screenshot]. *)
Theorem captureScreenshot_rejects page name w e :
  r_result (captureScreenshot page name w) = Raise e ->
  (forall line, ~ In (ShotStdout line) (r_trace (captureScreenshot page name w))) /\
  ((e = invalid_time_value /\
    exists t, r_trace (captureScreenshot page name w) = [ShotNewDate t]) \/
   exists t opts v, e = ThrownValue v /\
     r_trace (captureScreenshot page name w) = [ShotNewDate t; ShotCapture opts (Threw v)]).
Proof.
  rewrite captureScreenshot_unfold. cbv zeta.
  destruct (to_iso_string _) as [iso|] eqn:Hiso.
  - destruct (page _ _) as [w2 [img|v]]; intros Hr; [discriminate|].
    injection Hr as <-. split.
    + intros line [Hl|[Hl|[]]]; discriminate.
    + right. eexists _, _, v. split; reflexivity.
  - intros Hr. injection Hr as <-. split.
    + intros line [Hl|[]]; discriminate.
    + left. split; [reflexivity|]. eexists; reflexivity.
Qed.

(** C21. The returned file name is [name-<stamp>.png] where the stamp
    has no [:] and no [.] left, only digits, [-], [T], [Z] and a year
    sign, 24 characters (27 for a year outside 0-9999), and always
    contains the letters [T] and [Z]: it is not made of digits and
    dashes only, as the spec's scenario D says. *)
Theorem captureScreenshot_filename_shape page name w v :
  r_result (captureScreenshot page name w) = Done v ->
  exists stamp,
    v = JString (name ++ "-" ++ stamp ++ ".png") /\
    str_forall stamp_char stamp = true /\
    str_has "T" stamp = true /\ str_has "Z" stamp = true /\
    str_has ":" stamp = false /\ str_has "." stamp = false /\
    (String.length stamp = 24 \/ String.length stamp = 27)%nat.
Proof.
  intros Hr. apply captureScreenshot_done in Hr as (iso & Hiso & -> & _).
  apply stamp_fields in Hiso as (ys & mo & d & h & mi & s & ms & Hys & HT & HZ & Hc & Hd & Hl & ->).
  eexists. split; [reflexivity|]. run_simpl.
  rewrite Hys, HT, HZ, Hc, Hd, !pad_has_not by reflexivity. cbn. repeat split.
  destruct Hl as [-> | ->]; [left|right]; reflexivity.
Qed.
(** C27. Error path of line 45: [new Date().toISOString()] throws
    exactly when the clock is more than 8.64e15 ms from the epoch, and
    then the whole run is the clock read and the [RangeError]: the page
    is never asked for a screenshot, nothing is printed, and the world
    is the one the clock read left. *)
Theorem captureScreenshot_invalid_clock page name w :
  let t := clock (date_now_tick w) in
  max_time < Z.abs t <->
  captureScreenshot page name w = mkRun (date_now_tick w) [ShotNewDate t] (Raise invalid_time_value).
Proof.
  cbv zeta. rewrite captureScreenshot_unfold. cbv zeta. unfold to_iso_string.
  destruct (Z.leb_spec (Z.abs (clock (date_now_tick w))) max_time) as [Hle|Hgt].
  - split; [lia|]. destruct (civil_from_days _) as [[y m] d].
    destruct (page _ _) as [w2 [v|v]]; intros Hr; injection Hr; discriminate.
  - split; [reflexivity|intros _; exact Hgt].
Qed.
End ScreenshotProps.

(** ** Scenarios on the simulated runtime *)

(** A page whose [screenshot] succeeds at once (Playwright resolves with
    the image buffer, an object here), and one whose target was closed. *)
Definition instant_page : screenshot_options -> sim_world -> sim_world * completion :=
  fun _ w => (w, Normal (JObject 0)).

Definition closed_page : screenshot_options -> sim_world -> sim_world * completion :=
  fun _ w => (w, Threw (JString "Target closed")).

(** Scenario D of the spec: at 2023-11-14T22:13:20.123Z, the base name ["home"]
    gives ["home-2023-11-14T22-13-20-123Z.png"]; exactly one screenshot is
    requested, with that path and [fullPage: true], then one line is
    printed. *)
Example scenario_D :
  let r := captureScreenshot instant_page "home" (SimWorld 1700000000123 0) in
  r_result r = Done (JString "home-2023-11-14T22-13-20-123Z.png") /\
  r_trace r = [ShotNewDate 1700000000123;
               ShotCapture (ScreenshotOptions "home-2023-11-14T22-13-20-123Z.png" true)
                           (Normal (JObject 0));
               ShotStdout "截图已保存: home-2023-11-14T22-13-20-123Z.png"].
Proof. vm_compute. auto. Qed.

(** ** Witnesses *)

Lemma captureScreenshot_resolves_witness :
  exists t iso img,
    to_iso_string t = Some iso /\
    let f := screenshot_filename "home" (replace_colon_dot iso) in
    JString "home-2023-11-14T22-13-20-123Z.png" = JString f /\
    r_trace (captureScreenshot instant_page "home" (SimWorld 1700000000123 0)) =
      [ShotNewDate t; ShotCapture (ScreenshotOptions f true) (Normal img);
       ShotStdout (saved_message f)].
Proof.
  apply (captureScreenshot_resolves (W:=sim_world)). vm_compute. reflexivity.
Defined.

Lemma captureScreenshot_rejects_witness :
  let w := SimWorld 1700000000123 0 in
  (forall line, ~ In (ShotStdout line) (r_trace (captureScreenshot closed_page "home" w))) /\
  ((ThrownValue (JString "Target closed") = invalid_time_value /\
    exists t, r_trace (captureScreenshot closed_page "home" w) = [ShotNewDate t]) \/
   exists t opts v, ThrownValue (JString "Target closed") = ThrownValue v /\
     r_trace (captureScreenshot closed_page "home" w) = [ShotNewDate t; ShotCapture opts (Threw v)]).
Proof.
  apply (captureScreenshot_rejects (W:=sim_world)). vm_compute. reflexivity.
Defined.

Lemma captureScreenshot_filename_shape_witness :
  exists stamp,
    JString "home-2023-11-14T22-13-20-123Z.png" = JString ("home" ++ "-" ++ stamp ++ ".png") /\
    str_forall stamp_char stamp = true /\
    str_has "T" stamp = true /\ str_has "Z" stamp = true /\
    str_has ":" stamp = false /\ str_has "." stamp = false /\
    (String.length stamp = 24 \/ String.length stamp = 27)%nat.
Proof.
  apply (captureScreenshot_filename_shape (W:=sim_world) instant_page "home"
           (SimWorld 1700000000123 0)).
  vm_compute. reflexivity.
Defined.

Lemma captureScreenshot_invalid_clock_witness :
  let w := SimWorld (max_time + 1) 0 in
  captureScreenshot instant_page "home" w =
  mkRun (date_now_tick w) [ShotNewDate (clock (date_now_tick w))] (Raise invalid_time_value).
Proof.
  cbv zeta.
  apply (proj1 (captureScreenshot_invalid_clock instant_page "home" (SimWorld (max_time + 1) 0))).
  cbn. unfold max_time. lia.
Defined.
