(* ===== verification/PollerMachine.v ===== *)
(** * The poller as a small-step machine of the event loop

    [waitForCondition] (lines 11-20) seen from the event loop: the async
    function runs until it reads the clock or reaches an [await], and
    the event loop resumes it later, at a time the environment chooses.
    [pc] names the points where the function is suspended or about to
    run (line 12, the test of line 13, the [await] of line 14, the
    [await] of line 17, settled); [pstep T I] is the labelled step
    relation, with the labels of [Poller] ([EvNow], [EvCall], [EvSleep]).
    The environment is nondeterministic: a clock read returns any time
    not earlier than the current one, a call of the condition takes any
    time and answers anything, a timer of [d] ms resumes at least [d] ms
    later (the laws [RuntimeLaws] of [JsRuntime]).

    Theorems: with a timeout other than [+Infinity] every execution is
    finite (strong normalisation, [sn] of stdpp), has at most
    [3 * timeout + 5] steps, and ends in a settled state; with
    [+Infinity] an infinite execution exists; the runs of the machine
    from the loop test are exactly the traces of the contract
    [poll_spec] whose clock reads respect the timers ([timed]); every
    settled run of [waitForCondition] on a lawful runtime is a run of
    the machine. *)

From stdpp Require Import base relations.
From Stdlib Require Import ZArith List String Lia Bool.
From S2P Require Import Prelude JsRuntime Poller.
Local Open Scope Z_scope.

(** Where the async function is: called and not yet started (line 12),
    at the loop test (line 13), awaiting [condition()] (line 14),
    awaiting the timer (line 17), or with its promise settled. *)
Inductive pc : Type :=
| PStart
| PTest (startTime : Z)
| PCall (startTime : Z)
| PSleep (startTime : Z)
| PSettled (r : outcome exn jsval).

(** The machine state: the clock of the event loop and the point. *)
Record pstate : Type := PState {
  ps_clock : Z;
  ps_pc : pc
}.

Section Machine.
Variables (T I : jsnum).

(** One step of the function between two suspensions: [c] is the clock
    before, the label what the function did. *)
Inductive pstep : pstate -> poll_event -> pstate -> Prop :=
| ps_start c t :
    c <= t ->
    pstep (PState c PStart) (EvNow t) (PState t (PTest t))
| ps_test_go c s t :
    c <= t -> js_lt (t - s) T = true ->
    pstep (PState c (PTest s)) (EvNow t) (PState t (PCall s))
| ps_test_stop c s t :
    c <= t -> js_lt (t - s) T = false ->
    pstep (PState c (PTest s)) (EvNow t) (PState t (PSettled (Raise timeout_error)))
| ps_call_truthy c c' s v :
    c <= c' -> truthy v = true ->
    pstep (PState c (PCall s)) (EvCall (Normal v)) (PState c' (PSettled (Done (JBool true))))
| ps_call_falsy c c' s v :
    c <= c' -> truthy v = false ->
    pstep (PState c (PCall s)) (EvCall (Normal v)) (PState c' (PSleep s))
| ps_call_throw c c' s v :
    c <= c' ->
    pstep (PState c (PCall s)) (EvCall (Threw v))
          (PState c' (PSettled (Raise (ThrownValue v))))
| ps_sleep c c' s :
    c + timer_delay I <= c' ->
    pstep (PState c (PSleep s)) (EvSleep (timer_delay I)) (PState c' (PTest s)).

(** The unlabelled step, for the vocabulary of stdpp's [relations]. *)
Definition pstep_any (x y : pstate) : Prop := exists e, pstep x e y.

(** Runs with their traces. *)
Inductive pruns : pstate -> list poll_event -> pstate -> Prop :=
| pruns_nil x : pruns x [] x
| pruns_cons x e y tr z : pstep x e y -> pruns y tr z -> pruns x (e :: tr) z.
End Machine.

#[export] Hint Constructors pstep pruns : js.

(** A trace respects the clock from [c]: each read is no earlier than
    the previous one, nor than the end of the timers awaited since. *)
Fixpoint timed (c : Z) (tr : list poll_event) : bool :=
  match tr with
  | [] => true
  | EvNow t :: tr' => (c <=? t) && timed t tr'
  | EvCall _ :: tr' => timed c tr'
  | EvSleep d :: tr' => timed (c + d) tr'
  end.

(** ** The termination measure

    [budget] is the number of milliseconds left before the deadline; a
    round costs three steps and ends at least one millisecond later. *)
Definition finite_part (T : jsnum) : Z :=
  match T with JFin n => n | _ => 0 end.

Definition budget (T : jsnum) (s c : Z) : nat := Z.to_nat (s + finite_part T - c).

Definition pmeasure (T : jsnum) (x : pstate) : nat :=
  match ps_pc x with
  | PStart => 3 * Z.to_nat (finite_part T) + 5
  | PTest s =>
      if s + finite_part T - ps_clock x <=? 0 then 1 else 3 * budget T s (ps_clock x) + 4
  | PCall s => 3 * budget T s (ps_clock x) + 3
  | PSleep s => 3 * budget T s (ps_clock x) + 2
  | PSettled _ => 0
  end.

(** A test that lets the loop go on is below a finite deadline. *)
Lemma js_lt_finite x T :
  T <> JPosInf -> js_lt x T = true -> x < finite_part T.
Proof. destruct T; simpl; try discriminate; [|congruence]. intros _. apply Z.ltb_lt. Qed.

Lemma pstep_measure T I x e y :
  T <> JPosInf -> pstep T I x e y -> (pmeasure T y < pmeasure T x)%nat.
Proof.
  intros HT Hs. pose proof (timer_delay_pos I).
  destruct Hs as [c t Hc|c s t Hc Ht|c s t Hc Ht|c c' s v Hc Hv|c c' s v Hc Hv|c c' s v Hc
                 |c c' s Hc];
    unfold pmeasure, budget; cbn [ps_pc ps_clock];
    repeat match goal with |- context [?a <=? ?b] => destruct (Z.leb_spec a b) end;
    try apply js_lt_finite in Ht; auto; lia.
Qed.

(** ** Strong normalisation and progress *)

#[export] Instance settled_dec x : Decision (exists r, ps_pc x = PSettled r).
Proof.
  destruct x as [c [| | | |r]]; [right..|left; eauto]; intros [r' Hr']; discriminate.
Defined.

Section Live.
Variables (T I : jsnum).
Hypothesis HT : T <> JPosInf.

Lemma pstep_sn_measure k x : (pmeasure T x < k)%nat -> sn (pstep_any T I) x.
Proof.
  revert x. induction k as [|k IH]; intros x Hk; [lia|].
  constructor. intros y [e Hs]. apply IH. pose proof (pstep_measure T I _ _ _ HT Hs). lia.
Qed.

Lemma pstep_nsteps_measure k x y : nsteps (pstep_any T I) k x y -> (k <= pmeasure T x)%nat.
Proof.
  induction 1 as [|k x1 x2 x3 [e Hs] _ IH]; [lia|].
  pose proof (pstep_measure T I _ _ _ HT Hs). lia.
Qed.
End Live.

(** A state that is not settled can always step: the environment has
    an answer for every suspension. *)
Lemma pstep_progress T I x : (forall r, ps_pc x <> PSettled r) -> red (pstep_any T I) x.
Proof.
  destruct x as [c [|s|s|s|r]]; cbn [ps_pc]; intros Hn.
  - exists (PState c (PTest c)), (EvNow c). constructor. lia.
  - destruct (js_lt (c - s) T) eqn:Ht.
    + exists (PState c (PCall s)), (EvNow c). constructor; [lia|exact Ht].
    + exists (PState c (PSettled (Raise timeout_error))), (EvNow c). constructor; [lia|exact Ht].
  - exists (PState c (PSettled (Raise (ThrownValue JUndefined)))), (EvCall (Threw JUndefined)).
    constructor. lia.
  - exists (PState (c + timer_delay I) (PTest s)), (EvSleep (timer_delay I)). constructor. lia.
  - destruct (Hn r). reflexivity.
Qed.

(** Normal forms are exactly the settled states. *)
Lemma nf_settled T I x : nf (pstep_any T I) x -> exists r, ps_pc x = PSettled r.
Proof.
  intros Hnf. destruct (ps_pc x) as [| | | |r] eqn:Hpc; eauto;
    exfalso; apply Hnf, pstep_progress; rewrite Hpc; discriminate.
Qed.

(** From a strongly normalising state, a settled state is reachable. *)
Lemma sn_reaches_settled T I x :
  sn (pstep_any T I) x -> exists z r, rtc (pstep_any T I) x z /\ ps_pc z = PSettled r.
Proof.
  induction 1 as [x _ IH].
  destruct (decide (exists r, ps_pc x = PSettled r)) as [[r Hr]|Hn].
  - exists x, r. split; [apply rtc_refl|exact Hr].
  - destruct (pstep_progress T I x) as [y Hy]; [intros r Hr; eauto|].
    destruct (IH y Hy) as (z & r & Hr & Hz). exists z, r. split; [|exact Hz].
    by apply (rtc_l _ x y z).
Qed.

(** With [+Infinity] a never-true condition keeps every state alive. *)
Lemma not_sn_infinite I x : (forall r, ps_pc x <> PSettled r) -> ~ sn (pstep_any JPosInf I) x.
Proof.
  intros Hx Hsn. induction Hsn as [x _ IH]. destruct x as [c [|s|s|s|r]]; cbn [ps_pc] in Hx.
  - apply (IH (PState c (PTest c))); [exists (EvNow c); constructor; lia|discriminate].
  - apply (IH (PState c (PCall s))); [exists (EvNow c); constructor; [lia|reflexivity]|discriminate].
  - apply (IH (PState c (PSleep s)));
      [exists (EvCall (Normal (JBool false))); constructor; [lia|reflexivity]|discriminate].
  - apply (IH (PState (c + timer_delay I) (PTest s)));
      [exists (EvSleep (timer_delay I)); constructor; lia|discriminate].
  - by destruct (Hx r).
Qed.

(** ** Runs of the machine and the contract [poll_spec] *)

Lemma timed_mono tr c1 c2 : c1 <= c2 -> timed c2 tr = true -> timed c1 tr = true.
Proof.
  revert c1 c2. induction tr as [|[t|v|d] tr IH]; intros c1 c2 Hc Ht; cbn in *; auto.
  - apply andb_true_iff in Ht as [Ht Hr]. apply Z.leb_le in Ht.
    apply andb_true_iff. split; [apply Z.leb_le; lia|exact Hr].
  - eauto.
  - apply (IH _ (c2 + d)); [lia|exact Ht].
Qed.

Lemma pruns_settled T I c r tr z :
  pruns T I (PState c (PSettled r)) tr z -> tr = [] /\ z = PState c (PSettled r).
Proof. intros Hr. inversion Hr as [|x e y tr' z' Hs]; [done|inversion Hs]. Qed.

(** The runs of the machine from the loop test to a settled state follow
    the contract, round by round, and respect the clock. *)
Lemma pruns_test_spec T I n : forall c s tr c' r,
  (List.length tr <= n)%nat ->
  pruns T I (PState c (PTest s)) tr (PState c' (PSettled r)) ->
  poll_spec s T I tr r /\ timed c tr = true.
Proof.
  induction n as [|n IH]; intros c s tr c' r Hl Hr;
    inversion Hr as [|x e y tr1 z Hs Hr1]; subst; cbn [List.length] in Hl; [lia|].
  inversion Hs as [|c0 s0 t Hc Ht|c0 s0 t Hc Ht| | | |]; subst.
  - inversion Hr1 as [|x e y tr2 z Hs2 Hr2]; subst.
    inversion Hs2 as [| | |c1 c1' s1 v Hc1 Hv|c1 c1' s1 v Hc1 Hv|c1 c1' s1 v Hc1|]; subst.
    + apply pruns_settled in Hr2 as [-> [= <-]].
      subst. split; [by constructor|]. cbn. rewrite andb_true_r. by apply Z.leb_le.
    + inversion Hr2 as [|x e y tr3 z Hs3 Hr3]; subst.
      inversion Hs3 as [| | | | | |c2 c2' s2 Hc2]; subst.
      cbn [List.length] in Hl. destruct (IH c2' s tr3 c' r) as [Hspec Htimed]; [lia|done|].
      split; [by constructor|]. cbn. apply andb_true_iff. split; [by apply Z.leb_le|].
      apply (timed_mono _ _ c2'); [lia|exact Htimed].
    + apply pruns_settled in Hr2 as [-> [= <-]].
      subst. split; [by constructor|]. cbn. rewrite andb_true_r. by apply Z.leb_le.
  - apply pruns_settled in Hr1 as [-> [= <-]].
    subst. split; [by constructor|]. cbn. rewrite andb_true_r. by apply Z.leb_le.
Qed.

(** Conversely every timed trace of the contract is a run of the
    machine, with the earliest clocks the trace allows. *)
Lemma poll_spec_pruns T I s tr r :
  poll_spec s T I tr r ->
  forall c, timed c tr = true ->
  exists c', pruns T I (PState c (PTest s)) tr (PState c' (PSettled r)).
Proof.
  induction 1 as [t Ht|t v Ht Hv|t v Ht|t v tr r Ht Hv Hs IH]; intros c Htm;
    cbn [timed] in Htm; apply andb_true_iff in Htm as [Hc Htm]; apply Z.leb_le in Hc.
  - exists t. apply (pruns_cons _ _ _ _ (PState t (PSettled (Raise timeout_error))));
      [by constructor|constructor].
  - exists t. apply (pruns_cons _ _ _ _ (PState t (PCall s))); [by constructor|].
    apply (pruns_cons _ _ _ _ (PState t (PSettled (Done (JBool true))))); [by constructor|].
    constructor.
  - exists t. apply (pruns_cons _ _ _ _ (PState t (PCall s))); [by constructor|].
    apply (pruns_cons _ _ _ _ (PState t (PSettled (Raise (ThrownValue v))))); [by constructor|].
    constructor.
  - destruct (IH (t + timer_delay I) Htm) as [c' Hr]. exists c'.
    apply (pruns_cons _ _ _ _ (PState t (PCall s))); [by constructor|].
    apply (pruns_cons _ _ _ _ (PState t (PSleep s))); [by constructor|].
    apply (pruns_cons _ _ _ _ (PState (t + timer_delay I) (PTest s))); [constructor; lia|].
    exact Hr.
Qed.

(** ** The monadic model runs on the machine *)

Section Simulation.
Context {W : Type} `{RuntimeLaws W}.
Variable condition : W -> W * completion.
Hypothesis cond_mono : forall w, clock w <= clock (fst (condition w)).

(** Each settled run of the loop is a run of the machine from the loop
    test, ending at the clock of the final world. *)
Lemma poll_loop_pruns n s T I w :
  settled (r_result (poll_loop n condition s T I w)) = true ->
  pruns T I (PState (clock w) (PTest s)) (r_trace (poll_loop n condition s T I w))
        (PState (clock (r_world (poll_loop n condition s T I w)))
                (PSettled (r_result (poll_loop n condition s T I w)))).
Proof.
  revert w. induction n as [|n IH]; intros w Hs; [discriminate|].
  rewrite poll_loop_S in *; cbv zeta in *.
  pose proof (date_now_tick_mono w) as Hw.
  destruct (js_lt _ _) eqn:Ht; [|by repeat econstructor].
  pose proof (cond_mono (date_now_tick w)) as Hc.
  destruct (condition _) as [w2 [v|v]]; cbn [fst] in Hc; cbn in Hs |- *.
  - destruct (truthy v) eqn:Hv; cbn in Hs |- *.
    + apply (pruns_cons _ _ _ _ (PState (clock (date_now_tick w)) (PCall s))); [by constructor|].
      by repeat econstructor.
    + apply (pruns_cons _ _ _ _ (PState (clock (date_now_tick w)) (PCall s))); [by constructor|].
      apply (pruns_cons _ _ _ _ (PState (clock w2) (PSleep s))); [by constructor|].
      eapply pruns_cons; [|by apply IH]. constructor. apply timer_wait_delay.
  - apply (pruns_cons _ _ _ _ (PState (clock (date_now_tick w)) (PCall s))); [by constructor|].
    by repeat econstructor.
Qed.

(** C35. Simulation: every settled run of [waitForCondition] on a
    runtime whose clock never goes back and whose timers never fire
    early, with a condition that does not turn the clock back, is a run
    of the machine from the call, with the same trace, ending settled
    with the same outcome at the clock of the final world. *)
Theorem waitForCondition_machine fuel T I w :
  let r := waitForCondition fuel condition T I w in
  settled (r_result r) = true ->
  pruns (param_default (JFin 5000) T) (param_default (JFin 100) I)
        (PState (clock w) PStart) (r_trace r)
        (PState (clock (r_world r)) (PSettled (r_result r))).
Proof.
  rewrite waitForCondition_unfold. cbv zeta. cbn [r_trace r_result r_world]. intros Hs.
  eapply pruns_cons; [constructor; apply date_now_tick_mono|]. by apply poll_loop_pruns.
Qed.
End Simulation.

(** ** Liveness of the machine *)

(** C31. Liveness: with a timeout other than [+Infinity] (a number of
    milliseconds, [-Infinity] or [NaN]), whatever the environment does,
    every execution of [waitForCondition] from its call is finite;
    from every state it reaches, a settled state is reachable, and every
    state it cannot leave is settled: the promise always settles. *)
Theorem poller_machine_live T I c :
  T <> JPosInf ->
  sn (pstep_any T I) (PState c PStart) /\
  (forall y, rtc (pstep_any T I) (PState c PStart) y ->
     (exists z r, rtc (pstep_any T I) y z /\ ps_pc z = PSettled r) /\
     (nf (pstep_any T I) y -> exists r, ps_pc y = PSettled r)).
Proof.
  intros HT.
  assert (Hsn : sn (pstep_any T I) (PState c PStart))
    by (apply (pstep_sn_measure T I HT (S (pmeasure T (PState c PStart)))); lia).
  split; [exact Hsn|]. intros y Hy. split; [|apply nf_settled].
  apply sn_reaches_settled. by eapply sn_step_rtc.
Qed.

(** C32. Bound: with a timeout of [n] ms, every execution has at most
    [3 * n + 5] steps (clock reads, calls and timers), whatever the
    environment does. *)
Theorem poller_machine_steps_bound n I c k y :
  nsteps (pstep_any (JFin n) I) k (PState c PStart) y ->
  (k <= 3 * Z.to_nat n + 5)%nat.
Proof. intros Hk. by apply (pstep_nsteps_measure (JFin n) I) in Hk. Qed.

(** C33. With [timeout = Infinity] the loop may run forever: an
    environment whose condition never answers a truthy value has an
    infinite execution (the machine is not strongly normalising). *)
Theorem poller_machine_diverges I c : ~ sn (pstep_any JPosInf I) (PState c PStart).
Proof. apply not_sn_infinite. discriminate. Qed.

(** C34. Equivalence: the runs of the machine from the loop test to a
    settled state are exactly the traces of the contract [poll_spec]
    whose clock reads never go back and come after the timers awaited. *)
Theorem pruns_iff_poll_spec T I c s tr r :
  (exists c', pruns T I (PState c (PTest s)) tr (PState c' (PSettled r))) <->
  poll_spec s T I tr r /\ timed c tr = true.
Proof.
  split.
  - intros [c' Hr]. by apply (pruns_test_spec T I (List.length tr) c s tr c' r).
  - intros [Hs Ht]. by apply poll_spec_pruns.
Qed.

(** ** Witnesses *)

Lemma waitForCondition_machine_witness :
  let r := waitForCondition 10 (scripted 10 (true_on_call 3)) None None (SimWorld 0 0) in
  settled (r_result r) = true /\
  pruns (JFin 5000) (JFin 100) (PState 0 PStart) (r_trace r)
        (PState (sw_clock (r_world r)) (PSettled (r_result r))).
Proof.
  cbv zeta. split; [vm_compute; reflexivity|].
  refine (waitForCondition_machine (W:=sim_world) (scripted 10 (true_on_call 3))
            _ 10 None None (SimWorld 0 0) _);
    [exact (scripted_mono 10 (true_on_call 3))|vm_compute; reflexivity].
Defined.

Lemma poller_machine_live_witness :
  JFin 5000 <> JPosInf /\ sn (pstep_any (JFin 5000) (JFin 100)) (PState 0 PStart).
Proof.
  split; [discriminate|].
  exact (proj1 (poller_machine_live (JFin 5000) (JFin 100) 0 ltac:(discriminate))).
Defined.

Lemma poller_machine_steps_bound_witness :
  nsteps (pstep_any (JFin 0) (JFin 100)) 2 (PState 0 PStart)
         (PState 0 (PSettled (Raise timeout_error))) /\
  (2 <= 3 * Z.to_nat 0 + 5)%nat.
Proof.
  assert (Hk : nsteps (pstep_any (JFin 0) (JFin 100)) 2 (PState 0 PStart)
                 (PState 0 (PSettled (Raise timeout_error)))).
  { apply (nsteps_l _ _ _ (PState 0 (PTest 0))); [exists (EvNow 0); constructor; lia|].
    apply (nsteps_l _ _ _ (PState 0 (PSettled (Raise timeout_error))));
      [exists (EvNow 0); constructor; [lia|reflexivity]|constructor]. }
  split; [exact Hk|]. exact (poller_machine_steps_bound 0 (JFin 100) 0 2 _ Hk).
Defined.

