(* ===== verification/ConsoleCapture.v ===== *)
(** * Console capture: [captureConsoleLogs]

    [src/.github/skills/webapp-testing/test-helper.js], lines 27-37. The
    function allocates an array ([const logs = []]), registers on the
    page a ["console"] listener that pushes [{type, text, timestamp}] into
    that array (lines 29-35), and returns the array itself: the caller and
    the listener share it, and it keeps growing after the call returns.

    The model keeps the shared store explicit: a heap of arrays
    ([cw_arrays], a [gmap] from locations), the next free location, the
    clock, and the ["console"] listeners of every page. Dispatching a
    console message follows Node's [EventEmitter.emit]: the listeners of
    the page run in registration order, and a listener that throws stops
    the dispatch. [cstep] is the step relation of everything that can
    happen to this state: a capture, a console message on a page, time
    passing, a listener registered by other code, and the caller
    mutating an array it holds.

    Theorems: the invariant [wf] (no dangling listener, fresh
    allocation, each array registered once) holds of every reachable
    state; a capture allocates a fresh empty array and appends exactly
    one listener; a message appends exactly one entry to every array
    listening on its page and touches no other array; arrays only grow
    except by the caller's own mutations; every entry's timestamp is
    [toISOString] of a past time ([arrays_typed]) in every reachable
    state; after any run that leaves the returned array to the helper,
    the array is exactly [logged_messages] of the run (one entry per
    message of its page on a valid clock, in order), with non-decreasing
    stamps between the capture and the current clock; two captures on
    one page return distinct arrays that both receive every later
    message; the spec's scenario C. *)

From stdpp Require Import base gmap list.
From Stdlib Require Import ZArith String Sorted.
From S2P Require Import Prelude JsRuntime DateIso.
Local Open Scope Z_scope.

(** Locations of JavaScript arrays and identities of pages. *)
Abbreviation loc := positive.
Abbreviation page_id := positive.

(** A Playwright [ConsoleMessage]: what [msg.type()] and [msg.text()]
    return. *)
Record console_message : Type := ConsoleMessage {
  msg_type : string;
  msg_text : string
}.

(** The object literal of lines 30-34. *)
Record log_entry : Type := LogEntry {
  type : string;
  text : string;
  timestamp : string
}.

(** A ["console"] listener: the closure of line 29, which holds the
    array [logs], or a listener registered by other code. *)
Inductive listener : Type :=
| PushLog (logs : loc)
| OtherListener (id : nat).

Record cworld : Type := CWorld {
  cw_clock : Z;
  cw_arrays : gmap loc (list log_entry);
  cw_next : loc;
  cw_listeners : gmap page_id (list listener)
}.

(** The ["console"] listeners of a page, in registration order. *)
Definition listeners_of (p : page_id) (w : cworld) : list listener :=
  default [] (cw_listeners w !! p).

(** [const logs = []] *)
Definition alloc_array (w : cworld) : cworld * loc :=
  let l := cw_next w in
  (CWorld (cw_clock w) (<[l := []]> (cw_arrays w)) (Pos.succ l) (cw_listeners w), l).

(** [page.on("console", fn)]: [fn] goes last. *)
Definition page_on_console (p : page_id) (fn : listener) (w : cworld) : cworld :=
  CWorld (cw_clock w) (cw_arrays w) (cw_next w)
         (<[p := listeners_of p w ++ [fn]]> (cw_listeners w)).

(** Lines 27-37. *)
Definition captureConsoleLogs (p : page_id) (w : cworld) : cworld * loc :=
  let '(w1, logs) := alloc_array w in
  let w2 := page_on_console p (PushLog logs) w1 in
  (w2, logs).

(** [logs.push(x)]; [logs] always denotes an array (see [wf]). *)
Definition array_push (l : loc) (x : log_entry) (w : cworld) : cworld :=
  match cw_arrays w !! l with
  | Some xs => CWorld (cw_clock w) (<[l := xs ++ [x]]> (cw_arrays w)) (cw_next w)
                      (cw_listeners w)
  | None => w
  end.

(** Lines 29-35, the body of the listener: [msg.type()], [msg.text()],
    then [new Date().toISOString()], which throws a [RangeError] on an
    invalid clock before [push] is called. *)
Definition console_listener (logs : loc) (msg : console_message) (w : cworld)
  : cworld * option exn :=
  match to_iso_string (cw_clock w) with
  | None => (w, Some invalid_time_value)
  | Some ts => (array_push logs (LogEntry (msg_type msg) (msg_text msg) ts) w, None)
  end.

Definition run_listener (fn : listener) (msg : console_message) (w : cworld)
  : cworld * option exn :=
  match fn with
  | PushLog logs => console_listener logs msg w
  | OtherListener _ => (w, None)
  end.

(** [EventEmitter.emit("console", msg)]: listeners in order; the first
    exception stops the dispatch and is thrown to the emitter. *)
Fixpoint emit_listeners (fns : list listener) (msg : console_message) (w : cworld)
  : cworld * option exn :=
  match fns with
  | [] => (w, None)
  | fn :: fns' =>
      match run_listener fn msg w with
      | (w', None) => emit_listeners fns' msg w'
      | (w', Some e) => (w', Some e)
      end
  end.

Definition emit_console (p : page_id) (msg : console_message) (w : cworld)
  : cworld * option exn :=
  emit_listeners (listeners_of p w) msg w.

(** ** Everything that can happen to the state *)

(** Time passes by [dt] ms. *)
Definition clock_advance (dt : Z) (w : cworld) : cworld :=
  CWorld (cw_clock w + dt) (cw_arrays w) (cw_next w) (cw_listeners w).

Inductive caction : Type :=
| ACapture (p : page_id)                         (** [captureConsoleLogs(page)] *)
| AEmit (p : page_id) (msg : console_message)    (** the page logs [msg] *)
| ATick (dt : Z)                                 (** time passes *)
| AOther (p : page_id) (id : nat)                (** other code calls [page.on] *)
| AMutate (l : loc) (f : list log_entry -> list log_entry).
                                                 (** the caller changes its array *)

Inductive cstep : cworld -> caction -> cworld -> Prop :=
| cstep_capture p w w' l :
    captureConsoleLogs p w = (w', l) -> cstep w (ACapture p) w'
| cstep_emit p msg w :
    cstep w (AEmit p msg) (fst (emit_console p msg w))
| cstep_tick dt w :
    0 <= dt -> cstep w (ATick dt) (clock_advance dt w)
| cstep_other p id w :
    cstep w (AOther p id) (page_on_console p (OtherListener id) w)
| cstep_mutate l f xs w :
    cw_arrays w !! l = Some xs ->
    cstep w (AMutate l f)
          (CWorld (cw_clock w) (<[l := f xs]> (cw_arrays w)) (cw_next w) (cw_listeners w)).

(** Runs: sequences of steps. *)
Inductive csteps : cworld -> list caction -> cworld -> Prop :=
| csteps_nil w : csteps w [] w
| csteps_cons w a w1 acts w2 :
    cstep w a w1 -> csteps w1 acts w2 -> csteps w (a :: acts) w2.

(** The state before any capture, at time [t]. *)
Definition cw_init (t : Z) : cworld := CWorld t ∅ 1%positive ∅.

(** ** The invariant *)

(** The arrays the helper's listeners push into, in order. *)
Fixpoint pushed (fns : list listener) : list loc :=
  match fns with
  | [] => []
  | PushLog l :: fns' => l :: pushed fns'
  | OtherListener _ :: fns' => pushed fns'
  end.

Lemma pushed_app a b : pushed (a ++ b) = pushed a ++ pushed b.
Proof. induction a as [|[l|i] a IH]; simpl; congruence. Qed.

(** [wf w]: every allocated location is below [cw_next]; every listener
    of the helper pushes into an allocated array; no array is pushed into
    twice by the listeners of a page, nor by listeners of two pages. *)
Record wf (w : cworld) : Prop := {
  wf_fresh : forall l, is_Some (cw_arrays w !! l) -> (l < cw_next w)%positive;
  wf_alloc : forall p l, l ∈ pushed (listeners_of p w) -> is_Some (cw_arrays w !! l);
  wf_nodup : forall p, NoDup (pushed (listeners_of p w));
  wf_disjoint : forall p1 p2 l,
      l ∈ pushed (listeners_of p1 w) -> l ∈ pushed (listeners_of p2 w) -> p1 = p2
}.

Lemma listeners_of_on p' p fn w :
  listeners_of p' (page_on_console p fn w) =
  if decide (p = p') then listeners_of p w ++ [fn] else listeners_of p' w.
Proof.
  unfold listeners_of, page_on_console. simpl.
  rewrite lookup_insert. case_decide; subst; reflexivity.
Qed.

(** The next location is fresh. *)
Lemma wf_next_fresh w : wf w -> cw_arrays w !! cw_next w = None.
Proof.
  intros Hwf. destruct (cw_arrays w !! cw_next w) eqn:E; [|reflexivity].
  exfalso. assert (Hlt : (cw_next w < cw_next w)%positive) by (apply wf_fresh; eauto). lia.
Qed.

(** A fresh location is not listened to. *)
Lemma wf_next_not_pushed w p : wf w -> cw_next w ∉ pushed (listeners_of p w).
Proof.
  intros Hwf Hin. apply (wf_alloc w Hwf) in Hin. rewrite wf_next_fresh in Hin by done.
  by destruct Hin.
Qed.

(** [grows w w']: only the contents of existing arrays changed, each by
    appending. *)
Record grows (w w' : cworld) : Prop := {
  grows_clock : cw_clock w' = cw_clock w;
  grows_next : cw_next w' = cw_next w;
  grows_listeners : cw_listeners w' = cw_listeners w;
  grows_some : forall l xs, cw_arrays w !! l = Some xs ->
                            exists ys, cw_arrays w' !! l = Some (xs ++ ys);
  grows_none : forall l, cw_arrays w !! l = None -> cw_arrays w' !! l = None
}.

Lemma grows_refl w : grows w w.
Proof. split; auto. intros l xs ->. exists []. by rewrite app_nil_r. Qed.

Lemma grows_trans w1 w2 w3 : grows w1 w2 -> grows w2 w3 -> grows w1 w3.
Proof.
  intros [C1 N1 L1 S1 O1] [C2 N2 L2 S2 O2]. split; try congruence; auto.
  intros l xs H. destruct (S1 l xs H) as [ys H']. destruct (S2 l _ H') as [zs H''].
  exists (ys ++ zs). by rewrite H'', app_assoc.
Qed.

Lemma array_push_grows l x w : grows w (array_push l x w).
Proof.
  unfold array_push. destruct (cw_arrays w !! l) as [xs|] eqn:E; [|apply grows_refl].
  split; simpl; auto.
  - intros l' ys H. destruct (decide (l = l')) as [<-|Hne].
    + rewrite lookup_insert_eq. rewrite E in H. injection H as <-. by exists [x].
    + rewrite lookup_insert_ne by done. exists []. by rewrite H, app_nil_r.
  - intros l' H. rewrite lookup_insert_ne; [done|]. congruence.
Qed.

Lemma run_listener_grows fn msg w : grows w (fst (run_listener fn msg w)).
Proof.
  destruct fn as [l|i]; simpl; [|apply grows_refl].
  unfold console_listener. destruct (to_iso_string _); simpl;
    [apply array_push_grows|apply grows_refl].
Qed.

Lemma emit_listeners_grows fns msg w : grows w (fst (emit_listeners fns msg w)).
Proof.
  revert w. induction fns as [|fn fns IH]; intros w; simpl; [apply grows_refl|].
  pose proof (run_listener_grows fn msg w) as G.
  destruct (run_listener fn msg w) as [w' [e|]]; simpl in *; [done|].
  eapply grows_trans; eauto.
Qed.

#[export] Hint Resolve grows_refl array_push_grows run_listener_grows
  emit_listeners_grows : js.

Lemma listeners_of_grows p w w' : grows w w' -> listeners_of p w' = listeners_of p w.
Proof. intros G. unfold listeners_of. by rewrite (grows_listeners _ _ G). Qed.

Lemma is_Some_grows l w w' :
  grows w w' -> is_Some (cw_arrays w' !! l) <-> is_Some (cw_arrays w !! l).
Proof.
  intros G. split.
  - intros Hs. destruct (cw_arrays w !! l) eqn:E; [done|].
    rewrite (grows_none _ _ G l E) in Hs. by destruct Hs.
  - intros [xs Hxs]. destruct (grows_some _ _ G l xs Hxs) as [ys ->]. done.
Qed.

Lemma wf_grows w w' : wf w -> grows w w' -> wf w'.
Proof.
  intros Hwf G. split; intros *; rewrite ?(listeners_of_grows _ _ _ G),
    ?(is_Some_grows _ _ _ G), ?(grows_next _ _ G); apply Hwf.
Qed.

(** ** Effect of a capture *)

Lemma captureConsoleLogs_eq p w :
  captureConsoleLogs p w =
  (CWorld (cw_clock w) (<[cw_next w := []]> (cw_arrays w)) (Pos.succ (cw_next w))
          (<[p := listeners_of p w ++ [PushLog (cw_next w)]]> (cw_listeners w)),
   cw_next w).
Proof. reflexivity. Qed.

Lemma listeners_of_capture p p' w :
  listeners_of p' (fst (captureConsoleLogs p w)) =
  if decide (p = p') then listeners_of p w ++ [PushLog (cw_next w)] else listeners_of p' w.
Proof. apply (listeners_of_on p' p (PushLog (cw_next w)) (fst (alloc_array w))). Qed.

(** Membership in the listened arrays of a page after a capture. *)
Lemma pushed_capture p p' w l :
  l ∈ pushed (listeners_of p' (fst (captureConsoleLogs p w))) <->
  l ∈ pushed (listeners_of p' w) \/ (p = p' /\ l = cw_next w).
Proof.
  rewrite listeners_of_capture. case_decide as Hp.
  - subst. rewrite pushed_app, elem_of_app. cbn [pushed]. rewrite list_elem_of_singleton.
    split; [intros [H|H]; auto | intros [H|[_ H]]; auto].
  - split; [auto|]. intros [H|[H _]]; [done|contradiction].
Qed.

Lemma wf_capture p w : wf w -> wf (fst (captureConsoleLogs p w)).
Proof.
  intros Hwf. pose proof (wf_next_not_pushed w) as Hfresh.
  split.
  - rewrite captureConsoleLogs_eq. simpl. intros l Hl.
    rewrite lookup_insert in Hl. case_decide; [subst; lia|].
    apply (wf_fresh w Hwf) in Hl. lia.
  - intros p' l Hin. rewrite captureConsoleLogs_eq. simpl. rewrite lookup_insert.
    apply pushed_capture in Hin as [Hin | [_ ->]]; case_decide; try done.
    by apply (wf_alloc w Hwf p').
  - intros p'. rewrite listeners_of_capture. case_decide; [subst|apply Hwf].
    rewrite pushed_app. apply NoDup_app. split; [apply Hwf|]. split.
    + intros x Hx ->%list_elem_of_singleton. by apply (Hfresh p').
    + apply NoDup_singleton.
  - intros p1 p2 l H1 H2.
    apply pushed_capture in H1 as [H1 | [<- ->]]; apply pushed_capture in H2 as [H2 | [<- Hl]].
    + by apply (wf_disjoint w Hwf p1 p2 l).
    + subst. by destruct (Hfresh p1).
    + by destruct (Hfresh p2).
    + done.
Qed.

(** ** Effect of a console message *)

(** An array no listener of the page pushes into is left unchanged. *)
Lemma emit_listeners_notin fns msg w l :
  l ∉ pushed fns ->
  cw_arrays (fst (emit_listeners fns msg w)) !! l = cw_arrays w !! l.
Proof.
  revert w. induction fns as [|[l'|i] fns IH]; intros w Hl; simpl in *; [done| |by apply IH].
  rewrite elem_of_cons in Hl.
  unfold console_listener. destruct (to_iso_string _) as [ts|]; simpl; [|done].
  rewrite IH by tauto. unfold array_push.
  destruct (cw_arrays w !! l'); simpl; [|done].
  rewrite lookup_insert_ne; [done|]. intros ->. tauto.
Qed.

(** On a valid clock, an array a listener of the page pushes into gets
    exactly one more entry, stamped with the current time. *)
Lemma emit_listeners_in fns msg w l ts xs :
  to_iso_string (cw_clock w) = Some ts -> NoDup (pushed fns) -> l ∈ pushed fns ->
  cw_arrays w !! l = Some xs ->
  cw_arrays (fst (emit_listeners fns msg w)) !! l =
    Some (xs ++ [LogEntry (msg_type msg) (msg_text msg) ts]).
Proof.
  revert w. induction fns as [|[l'|i] fns IH]; intros w Hts Hnd Hin Hxs; simpl in *.
  - by apply elem_of_nil in Hin.
  - unfold console_listener. rewrite Hts. simpl.
    apply NoDup_cons in Hnd as [Hnot Hnd]. apply elem_of_cons in Hin as [-> | Hin].
    + rewrite emit_listeners_notin by done. unfold array_push. rewrite Hxs. simpl.
      by rewrite lookup_insert_eq.
    + apply IH; auto.
      * by rewrite (grows_clock _ _ (array_push_grows l' _ w)).
      * unfold array_push. destruct (cw_arrays w !! l'); simpl; [|done].
        rewrite lookup_insert_ne; [done|]. intros ->. contradiction.
  - by apply IH.
Qed.

(** ** Every step preserves the invariant *)

(** [wf] reads the arrays only through which locations are allocated. *)
Lemma wf_same_shape w w' :
  wf w -> cw_next w' = cw_next w -> cw_listeners w' = cw_listeners w ->
  (forall l, is_Some (cw_arrays w' !! l) <-> is_Some (cw_arrays w !! l)) -> wf w'.
Proof.
  intros Hwf Hn Hl Hs.
  assert (HL : forall p, listeners_of p w' = listeners_of p w)
    by (intros p; unfold listeners_of; by rewrite Hl).
  split; intros *; rewrite ?HL, ?Hs, ?Hn; apply Hwf.
Qed.

Lemma wf_other p id w : wf w -> wf (page_on_console p (OtherListener id) w).
Proof.
  intros Hwf.
  assert (HP : forall p', pushed (listeners_of p' (page_on_console p (OtherListener id) w))
                          = pushed (listeners_of p' w)).
  { intros p'. rewrite listeners_of_on. case_decide; subst; [|done].
    by rewrite pushed_app, app_nil_r. }
  split; intros *; rewrite ?HP; apply Hwf.
Qed.

Lemma cstep_wf w a w' : wf w -> cstep w a w' -> wf w'.
Proof.
  intros Hwf Hs. destruct Hs as [p w w' l Hc | p msg w | dt w Hdt | p id w | l f xs w Hxs].
  - replace w' with (fst (captureConsoleLogs p w)) by (by rewrite Hc).
    by apply wf_capture.
  - eapply wf_grows; eauto with js.
  - by apply wf_same_shape with w.
  - by apply wf_other.
  - apply wf_same_shape with w; auto. intros l'. simpl.
    rewrite lookup_insert. case_decide; subst; [rewrite Hxs|]; done.
Qed.

Lemma wf_init t : wf (cw_init t).
Proof.
  split; simpl.
  - intros l Hl. rewrite lookup_empty in Hl. by destruct Hl.
  - intros p l. unfold listeners_of. simpl. rewrite lookup_empty. simpl.
    by rewrite elem_of_nil.
  - intros p. unfold listeners_of. simpl. rewrite lookup_empty. constructor.
  - intros p1 p2 l. unfold listeners_of. simpl. rewrite lookup_empty. simpl.
    by rewrite elem_of_nil.
Qed.

(** Runs keep the invariant. *)
Lemma csteps_wf w acts w' : wf w -> csteps w acts w' -> wf w'.
Proof.
  intros Hwf Hr. revert Hwf.
  induction Hr as [|w0 a w1 acts w2 Hs Hr IH]; auto.
  intros Hwf. apply IH. eapply cstep_wf; eauto.
Qed.

Lemma csteps_app w1 acts1 w2 acts2 w3 :
  csteps w1 acts1 w2 -> csteps w2 acts2 w3 -> csteps w1 (acts1 ++ acts2) w3.
Proof. induction 1; simpl; eauto using csteps_cons. Qed.

(** ** Properties of [captureConsoleLogs] *)

(** C12. Invariant: in every state reachable from the start by captures,
    console messages, time passing, listeners of other code and the
    caller's mutations of its arrays, every listener of the helper pushes
    into an allocated array, allocation is fresh, and no array is
    registered twice. *)
Theorem reachable_wf t acts w : csteps (cw_init t) acts w -> wf w.
Proof. intros Hr. eapply csteps_wf; [apply wf_init|exact Hr]. Qed.

(** C13. A capture allocates a fresh, empty array, appends exactly one
    listener (pushing into that array) after the page's existing
    listeners, and changes nothing else: no other array, no other page. *)
Theorem captureConsoleLogs_spec p w w' l :
  wf w -> captureConsoleLogs p w = (w', l) ->
  cw_arrays w !! l = None /\
  cw_arrays w' = <[l := []]> (cw_arrays w) /\
  listeners_of p w' = listeners_of p w ++ [PushLog l] /\
  (forall p', p' <> p -> listeners_of p' w' = listeners_of p' w).
Proof.
  intros Hwf Hc.
  assert (Hw' : w' = fst (captureConsoleLogs p w)) by (by rewrite Hc).
  assert (Hl : l = cw_next w) by (rewrite captureConsoleLogs_eq in Hc; by injection Hc).
  subst w' l. split; [by apply wf_next_fresh|]. split; [done|]. split.
  - by rewrite listeners_of_capture, decide_True.
  - intros p' Hne. rewrite listeners_of_capture, decide_False; congruence.
Qed.

(** C14. A console message on a page, on a valid clock, appends exactly
    one entry [{type: msg.type(), text: msg.text(), timestamp}] to every
    array a listener of that page pushes into, stamped with the current
    time. *)
Theorem emit_console_appends p msg w l ts xs :
  wf w -> l ∈ pushed (listeners_of p w) ->
  to_iso_string (cw_clock w) = Some ts -> cw_arrays w !! l = Some xs ->
  cw_arrays (fst (emit_console p msg w)) !! l =
    Some (xs ++ [LogEntry (msg_type msg) (msg_text msg) ts]).
Proof. intros Hwf Hin Hts Hxs. apply emit_listeners_in; auto. apply Hwf. Qed.

(** C15. Isolation: a console message leaves untouched every array no
    listener of its page pushes into (arrays captured on other pages,
    arrays of the caller). *)
Theorem emit_console_isolation p msg w l :
  l ∉ pushed (listeners_of p w) ->
  cw_arrays (fst (emit_console p msg w)) !! l = cw_arrays w !! l.
Proof. apply emit_listeners_notin. Qed.

(** C16. Aliasing: the array [captureConsoleLogs] returns is the one its
    listener fills: a message emitted after the call returns appears in
    it, and it holds nothing logged before the call. *)
Theorem captureConsoleLogs_receives p msg w w1 l ts :
  wf w -> captureConsoleLogs p w = (w1, l) -> to_iso_string (cw_clock w) = Some ts ->
  cw_arrays (fst (emit_console p msg w1)) !! l =
    Some [LogEntry (msg_type msg) (msg_text msg) ts].
Proof.
  intros Hwf Hc Hts.
  assert (Hw1 : w1 = fst (captureConsoleLogs p w)) by (by rewrite Hc).
  assert (Hl : l = cw_next w) by (rewrite captureConsoleLogs_eq in Hc; by injection Hc).
  pose proof (wf_capture p w Hwf) as Hwf1. rewrite <- Hw1 in Hwf1.
  apply (emit_listeners_in _ msg w1 l ts []); [| apply Hwf1 | |].
  - subst w1. by rewrite captureConsoleLogs_eq.
  - rewrite Hw1, listeners_of_capture, decide_True, pushed_app, elem_of_app by done.
    right. simpl. subst l. by apply list_elem_of_singleton.
  - subst w1 l. rewrite captureConsoleLogs_eq. cbn [fst cw_arrays]. by rewrite lookup_insert_eq.
Qed.

(** C17. Append-only: apart from the caller's own mutations of an array
    it holds, no step removes or reorders entries: every array only
    grows, without bound and without eviction. *)
Theorem cstep_append_only w a w' l xs :
  wf w -> cstep w a w' -> (forall l' f, a <> AMutate l' f) ->
  cw_arrays w !! l = Some xs -> exists ys, cw_arrays w' !! l = Some (xs ++ ys).
Proof.
  intros Hwf Hs Ha Hxs.
  destruct Hs as [p w w' l' Hc | p msg w | dt w Hdt | p id w | l' f ys w Hys].
  - rewrite captureConsoleLogs_eq in Hc. injection Hc as <- <-. simpl.
    exists []. rewrite app_nil_r, lookup_insert_ne; [done|].
    intros Heq. rewrite <- Heq, wf_next_fresh in Hxs by done. discriminate.
  - eapply grows_some; eauto with js.
  - exists []. by rewrite app_nil_r.
  - exists []. by rewrite app_nil_r.
  - by destruct (Ha l' f).
Qed.

(** On an invalid clock, no listener of the helper changes anything. *)
Lemma emit_listeners_invalid fns msg w :
  to_iso_string (cw_clock w) = None ->
  fst (emit_listeners fns msg w) = w /\
  (pushed fns <> [] -> snd (emit_listeners fns msg w) = Some invalid_time_value).
Proof.
  intros Hts. induction fns as [|[l|i] fns IH]; simpl; [by split|..].
  - unfold console_listener. rewrite Hts. by split.
  - exact IH.
Qed.

(** C18. Error path: when the clock is not a valid time value,
    [toISOString] throws inside the listener before [push]: the message
    is dropped from every array, the state is unchanged, and the
    [RangeError] reaches the emitter as soon as the page has a listener
    of the helper (later listeners do not run). *)
Theorem emit_console_invalid_clock p msg w :
  to_iso_string (cw_clock w) = None ->
  fst (emit_console p msg w) = w /\
  (pushed (listeners_of p w) <> [] -> snd (emit_console p msg w) = Some invalid_time_value).
Proof. apply emit_listeners_invalid. Qed.

(** ** Scenarios *)

Definition msg_log : console_message := ConsoleMessage "log" "page loaded".
Definition msg_error : console_message := ConsoleMessage "error" "request failed".
Definition msg_warning : console_message := ConsoleMessage "warning" "deprecated API".

(** Scenario C: a page that logs a ["log"], an ["error"] and a
    ["warning"] message, 5 ms apart, after the capture: the returned
    array holds exactly three entries, in emission order, with the
    types, texts and time stamps of the messages; a message logged
    before the capture is not in it. *)
Example scenario_C :
  let w0 := fst (emit_console 1 (ConsoleMessage "log" "too early") (cw_init 1700000000000)) in
  let '(w1, logs) := captureConsoleLogs 1 w0 in
  let w2 := fst (emit_console 1 msg_log w1) in
  let w3 := fst (emit_console 1 msg_error (clock_advance 5 w2)) in
  let w4 := fst (emit_console 1 msg_warning (clock_advance 5 w3)) in
  cw_arrays w4 !! logs =
    Some [LogEntry "log" "page loaded" "2023-11-14T22:13:20.000Z";
          LogEntry "error" "request failed" "2023-11-14T22:13:20.005Z";
          LogEntry "warning" "deprecated API" "2023-11-14T22:13:20.010Z"].
Proof. vm_compute. reflexivity. Qed.

(** ** Types of the array entries

    An entry is well typed at clock [c] when its [timestamp] is what
    [new Date().toISOString()] returns for a time no later than [c]; the
    arrays are well typed when all their entries are. The caller's own
    mutations are required to keep entries well typed. *)
Definition entry_typed (c : Z) (e : log_entry) : Prop :=
  exists t, t <= c /\ to_iso_string t = Some (timestamp e).

Definition arrays_typed (w : cworld) : Prop :=
  forall l xs, cw_arrays w !! l = Some xs -> Forall (entry_typed (cw_clock w)) xs.

Definition action_typed (a : caction) : Prop :=
  match a with
  | AMutate _ f => forall c xs, Forall (entry_typed c) xs -> Forall (entry_typed c) (f xs)
  | _ => True
  end.

Lemma entry_typed_mono c c' e : c <= c' -> entry_typed c e -> entry_typed c' e.
Proof. intros Hc (t & Ht & Hs). exists t. split; [lia|exact Hs]. Qed.

Lemma arrays_typed_insert w l xs :
  arrays_typed w -> Forall (entry_typed (cw_clock w)) xs ->
  forall l' ys, <[l := xs]> (cw_arrays w) !! l' = Some ys -> Forall (entry_typed (cw_clock w)) ys.
Proof.
  intros Hw Hxs l' ys. rewrite lookup_insert. case_decide; [by intros [= <-]|apply Hw].
Qed.

Lemma emit_listeners_typed fns msg w :
  arrays_typed w -> arrays_typed (fst (emit_listeners fns msg w)).
Proof.
  revert w. induction fns as [|[l|i] fns IH]; intros w Hw; simpl; [done| |by apply IH].
  unfold console_listener. destruct (to_iso_string (cw_clock w)) as [ts|] eqn:Hts; [|done].
  simpl. apply IH. unfold array_push. destruct (cw_arrays w !! l) as [xs|] eqn:Hxs; [|done].
  intros l' ys Hl'. cbn [cw_arrays cw_clock] in Hl' |- *.
  refine (arrays_typed_insert w l _ Hw _ l' ys Hl').
  apply Forall_app. split; [exact (Hw l xs Hxs)|]. constructor; [|constructor].
  exists (cw_clock w). split; [lia|exact Hts].
Qed.

Lemma cstep_typed w a w' : arrays_typed w -> action_typed a -> cstep w a w' -> arrays_typed w'.
Proof.
  intros Hw Ha Hs. destruct Hs as [p w w' l Hc | p msg w | dt w Hdt | p id w | l f xs w Hxs].
  - rewrite captureConsoleLogs_eq in Hc. injection Hc as <- <-.
    intros l' ys Hl'. exact (arrays_typed_insert w _ [] Hw ltac:(constructor) l' ys Hl').
  - by apply emit_listeners_typed.
  - intros l xs Hxs. eapply Forall_impl; [exact (Hw l xs Hxs)|].
    intros e. apply entry_typed_mono. cbn. lia.
  - exact Hw.
  - intros l' ys Hl'. refine (arrays_typed_insert w l _ Hw _ l' ys Hl'). exact (Ha _ _ (Hw l xs Hxs)).
Qed.

(** C39. Types: in every state reachable from the start, as long as
    the caller's own mutations keep entries well typed, every entry of
    every array has a [timestamp] that [toISOString] produced for a time
    no later than the current clock: a real ISO date, never in the
    future. *)
Theorem reachable_typed t acts w :
  csteps (cw_init t) acts w -> Forall action_typed acts -> arrays_typed w.
Proof.
  intros Hr. assert (Hw : arrays_typed (cw_init t))
    by (intros l xs Hl; cbn in Hl; by rewrite lookup_empty in Hl).
  revert Hw. induction Hr as [|w0 a w1 acts w2 Hs Hr IH]; intros Hw Ha; [done|].
  apply Forall_cons in Ha as [Ha Has]. apply IH; [|done]. by apply (cstep_typed w0 a).
Qed.

(** ** What a captured array holds after any run

    [logged_messages p c acts]: the entries the listener of a capture on
    page [p] pushes during the run [acts] started at clock [c], each with
    the time it was stamped: one per console message of [p] on a valid
    clock, in the order of the messages. *)
Fixpoint logged_messages (p : page_id) (c : Z) (acts : list caction) : list (Z * log_entry) :=
  match acts with
  | [] => []
  | ATick dt :: acts' => logged_messages p (c + dt) acts'
  | AEmit p' msg :: acts' =>
      match decide (p' = p), to_iso_string c with
      | left _, Some ts => (c, LogEntry (msg_type msg) (msg_text msg) ts) :: logged_messages p c acts'
      | _, _ => logged_messages p c acts'
      end
  | _ :: acts' => logged_messages p c acts'
  end.

(** The run does not touch the caller's array [l] itself. *)
Definition keeps_array (l : loc) (a : caction) : Prop :=
  match a with AMutate l' _ => l' <> l | _ => True end.

Section Contents.
Variables (p : page_id) (l : loc).

(** A step keeps the listener of [l] on [p]. *)
Lemma cstep_listened w a w' :
  cstep w a w' -> l ∈ pushed (listeners_of p w) -> l ∈ pushed (listeners_of p w').
Proof.
  intros Hs Hin. destruct Hs as [p' w w'' l' Hc | p' msg w | dt w Hdt | p' id w | l' f ys w Hys].
  - replace w'' with (fst (captureConsoleLogs p' w)) by (by rewrite Hc).
    apply pushed_capture. by left.
  - unfold emit_console. by rewrite (listeners_of_grows p _ _ (emit_listeners_grows _ _ _)).
  - exact Hin.
  - rewrite listeners_of_on. case_decide; [|done]. subst. by rewrite pushed_app, app_nil_r.
  - exact Hin.
Qed.

(** One step: the array gains the entry of a message of [p] on a valid
    clock, and nothing else. *)
Lemma cstep_contents w a w' xs :
  wf w -> cstep w a w' -> keeps_array l a -> l ∈ pushed (listeners_of p w) ->
  cw_arrays w !! l = Some xs ->
  cw_arrays w' !! l = Some (xs ++ map snd (logged_messages p (cw_clock w) [a])) /\
  cw_clock w' = match a with ATick dt => cw_clock w + dt | _ => cw_clock w end.
Proof.
  intros Hwf Hs Ha Hin Hxs.
  destruct Hs as [p' w w'' l' Hc | p' msg w | dt w Hdt | p' id w | l' f ys w Hys];
    cbn [logged_messages map]; rewrite ?app_nil_r.
  - rewrite captureConsoleLogs_eq in Hc. injection Hc as <- <-. cbn.
    rewrite lookup_insert_ne; [done|]. intros Heq. rewrite <- Heq, wf_next_fresh in Hxs by done.
    discriminate.
  - pose proof (emit_listeners_grows (listeners_of p' w) msg w) as G.
    unfold emit_console. rewrite (grows_clock _ _ G). split; [|done].
    destruct (decide (p' = p)) as [->|Hne].
    + destruct (to_iso_string (cw_clock w)) as [ts|] eqn:Hts; cbn [map].
      * apply emit_listeners_in; auto. apply Hwf.
      * destruct (emit_listeners_invalid (listeners_of p w) msg w Hts) as [-> _]. by rewrite ?app_nil_r.
    + rewrite emit_listeners_notin; [by rewrite ?app_nil_r|].
      intros Hin'. apply Hne. exact (wf_disjoint w Hwf p' p l Hin' Hin).
  - split; [by rewrite ?app_nil_r|reflexivity].
  - split; [by rewrite ?app_nil_r|reflexivity].
  - cbn. rewrite lookup_insert_ne by (cbn in Ha; congruence). by rewrite ?app_nil_r.
Qed.

(** A run: the array gains exactly the entries of the messages of [p]. *)
Lemma csteps_contents w acts w' xs :
  csteps w acts w' -> wf w -> Forall (keeps_array l) acts -> l ∈ pushed (listeners_of p w) ->
  cw_arrays w !! l = Some xs ->
  cw_arrays w' !! l = Some (xs ++ map snd (logged_messages p (cw_clock w) acts)).
Proof.
  intros Hr. revert xs. induction Hr as [w|w a w1 acts w2 Hs Hr IH]; intros xs Hwf Ha Hin Hxs.
  - by rewrite app_nil_r.
  - apply Forall_cons in Ha as [Ha Has].
    destruct (cstep_contents w a w1 xs Hwf Hs Ha Hin Hxs) as [H1 Hc].
    rewrite (IH _ (cstep_wf _ _ _ Hwf Hs) Has (cstep_listened _ _ _ Hs Hin) H1), Hc.
    rewrite <- app_assoc. f_equal. f_equal.
    destruct a; cbn [logged_messages]; try reflexivity.
    rewrite ?app_nil_r. repeat case_match; reflexivity.
Qed.
End Contents.

(** A step moves the clock by the time that passes, if any. *)
Lemma cstep_clock w a w' :
  cstep w a w' ->
  cw_clock w' = match a with ATick dt => cw_clock w + dt | _ => cw_clock w end /\
  cw_clock w <= cw_clock w'.
Proof.
  intros Hs. destruct Hs as [p' w w'' l' Hc | p' msg w | dt w Hdt | p' id w | l' f ys w Hys].
  - rewrite captureConsoleLogs_eq in Hc. injection Hc as <- _. cbn. lia.
  - unfold emit_console. rewrite (grows_clock _ _ (emit_listeners_grows _ _ _)). lia.
  - cbn. lia.
  - cbn. lia.
  - cbn. lia.
Qed.

(** The entries of a run are stamped in order, between its first and
    its last clock, each with its own time. *)
Lemma logged_messages_times p w acts w' :
  csteps w acts w' ->
  let L := logged_messages p (cw_clock w) acts in
  StronglySorted Z.le (map fst L) /\
  Forall (fun te => cw_clock w <= fst te <= cw_clock w' /\
                    to_iso_string (fst te) = Some (timestamp (snd te))) L.
Proof.
  induction 1 as [w|w a w1 acts w2 Hs Hr IH]; cbv zeta; [split; constructor|].
  destruct IH as [Hsort Hall]. destruct (cstep_clock _ _ _ Hs) as [Hc1 Hle].
  assert (Hmono : cw_clock w1 <= cw_clock w2).
  { clear -Hr. induction Hr as [|w a w1 acts w2 Hs _ IH]; [lia|].
    pose proof (proj2 (cstep_clock _ _ _ Hs)). lia. }
  assert (Hall' : Forall (fun te => cw_clock w <= fst te <= cw_clock w2 /\
                          to_iso_string (fst te) = Some (timestamp (snd te)))
                   (logged_messages p (cw_clock w1) acts)).
  { eapply Forall_impl; [exact Hall|]. intros te [Ht He]. split; [lia|exact He]. }
  destruct a as [p'|p' msg|dt|p' id|l' f]; cbn [logged_messages]; rewrite Hc1 in *;
    try (split; assumption).
  destruct (decide (p' = p)); [|split; assumption].
  destruct (to_iso_string (cw_clock w)) as [ts|] eqn:Hts; [|split; assumption].
  cbn [map fst]. split.
  - constructor; [exact Hsort|]. apply List.Forall_forall. intros t Ht.
    apply in_map_iff in Ht as [te [<- Hte]].
    rewrite List.Forall_forall in Hall'. apply Hall' in Hte. lia.
  - constructor; [cbn; split; [lia|exact Hts]|exact Hall'].
Qed.

(** After a capture and a run that leaves its array to the helper, the
    array holds the entries of the run's messages of its page. *)
Lemma capture_run_contents p w w1 l acts w2 :
  wf w -> captureConsoleLogs p w = (w1, l) -> csteps w1 acts w2 ->
  Forall (keeps_array l) acts ->
  cw_arrays w2 !! l = Some (map snd (logged_messages p (cw_clock w1) acts)).
Proof.
  intros Hwf Hc Hr Ha.
  assert (Hw1 : w1 = fst (captureConsoleLogs p w)) by (by rewrite Hc).
  assert (Hl : l = cw_next w) by (rewrite captureConsoleLogs_eq in Hc; by injection Hc).
  apply (csteps_contents p l w1 acts w2 [] Hr); [by subst; apply wf_capture|exact Ha| |].
  - subst. apply pushed_capture. by right.
  - subst. rewrite captureConsoleLogs_eq. cbn. by rewrite lookup_insert_eq.
Qed.

(** C23. The array [captureConsoleLogs] returns ("console 消息数组",
    lines 22-26): after any run of steps that leaves that array to the
    helper, it holds exactly one entry per console message of its page
    logged on a valid clock, in the order of the messages, each built
    from the message and the time it was logged, and nothing else. *)
Theorem captureConsoleLogs_contents p w w1 l acts w2 :
  wf w -> captureConsoleLogs p w = (w1, l) -> csteps w1 acts w2 ->
  Forall (keeps_array l) acts ->
  cw_arrays w2 !! l = Some (map snd (logged_messages p (cw_clock w1) acts)).
Proof.
  exact (capture_run_contents p w w1 l acts w2).
Qed.

(** C25. Chronological order: after any such run, the entries of the
    array are stamped with non-decreasing times, all between the capture
    and the current clock, each entry's [timestamp] being
    [toISOString] of its own time. *)
Theorem captureConsoleLogs_chronological p w w1 l acts w2 :
  wf w -> captureConsoleLogs p w = (w1, l) -> csteps w1 acts w2 ->
  Forall (keeps_array l) acts ->
  exists L, cw_arrays w2 !! l = Some (map snd L) /\ StronglySorted Z.le (map fst L) /\
    Forall (fun te => cw_clock w1 <= fst te <= cw_clock w2 /\
                      to_iso_string (fst te) = Some (timestamp (snd te))) L.
Proof.
  intros Hwf Hc Hr Ha. exists (logged_messages p (cw_clock w1) acts).
  split; [exact (capture_run_contents p w w1 l acts w2 Hwf Hc Hr Ha)|].
  exact (logged_messages_times p w1 acts w2 Hr).
Qed.

(** C26. Two captures on the same page return two distinct arrays, and
    after any run that leaves both to the helper, each holds the entries
    of every message the page logged after the second capture: every
    message is recorded once per capture, since neither listener is ever
    removed. *)
Theorem two_captures_independent p w w1 l1 w2 l2 acts w3 :
  wf w -> captureConsoleLogs p w = (w1, l1) -> captureConsoleLogs p w1 = (w2, l2) ->
  csteps w2 acts w3 -> Forall (keeps_array l1) acts -> Forall (keeps_array l2) acts ->
  l1 <> l2 /\
  cw_arrays w3 !! l1 = Some (map snd (logged_messages p (cw_clock w2) acts)) /\
  cw_arrays w3 !! l2 = Some (map snd (logged_messages p (cw_clock w2) acts)).
Proof.
  intros Hwf Hc1 Hc2 Hr Ha1 Ha2.
  assert (Hwf1 : wf w1) by (replace w1 with (fst (captureConsoleLogs p w)) by (by rewrite Hc1);
                            by apply wf_capture).
  split; [|split].
  - assert (Hl2 : l2 = cw_next w1) by (rewrite captureConsoleLogs_eq in Hc2; by injection Hc2).
    pose proof (capture_run_contents p w w1 l1 [] w1 Hwf Hc1 (csteps_nil _) (Forall_nil_2 _)) as H1.
    intros ->. rewrite Hl2, wf_next_fresh in H1 by done. discriminate.
  - assert (Hclk : cw_clock w2 = cw_clock w1)
      by (rewrite captureConsoleLogs_eq in Hc2; by injection Hc2 as <- _).
    rewrite Hclk.
    exact (capture_run_contents p w w1 l1 (ACapture p :: acts) w3 Hwf Hc1
             (csteps_cons _ _ _ _ _ (cstep_capture p w1 w2 l2 Hc2) Hr) (@List.Forall_cons _ (keeps_array l1) (ACapture p) acts I Ha1)).
  - exact (capture_run_contents p w1 w2 l2 acts w3 Hwf1 Hc2 Hr Ha2).
Qed.

(** ** Witnesses *)

(** The state after one capture on page 1 at the epoch, and the same at
    an invalid time value. *)
Definition cw_captured : cworld := fst (captureConsoleLogs 1 (cw_init 0)).
Definition cw_captured_bad : cworld := fst (captureConsoleLogs 1 (cw_init (max_time + 1))).

Lemma reachable_wf_witness : wf cw_captured.
Proof.
  apply (reachable_wf 0 [ACapture 1]).
  eapply csteps_cons; [eapply cstep_capture; reflexivity | constructor].
Defined.

Lemma captureConsoleLogs_spec_witness :
  cw_arrays (cw_init 0) !! 1%positive = None /\
  cw_arrays cw_captured = <[1%positive := []]> (cw_arrays (cw_init 0)) /\
  listeners_of 1 cw_captured = listeners_of 1 (cw_init 0) ++ [PushLog 1] /\
  (forall p', p' <> 1%positive -> listeners_of p' cw_captured = listeners_of p' (cw_init 0)).
Proof.
  apply (captureConsoleLogs_spec 1 (cw_init 0) cw_captured 1).
  - apply wf_init.
  - reflexivity.
Defined.

Lemma emit_console_appends_witness :
  cw_arrays (fst (emit_console 1 msg_log cw_captured)) !! 1%positive =
    Some ([] ++ [LogEntry (msg_type msg_log) (msg_text msg_log) "1970-01-01T00:00:00.000Z"]).
Proof.
  apply (emit_console_appends 1 msg_log cw_captured 1 _ []).
  - apply wf_capture, wf_init.
  - apply list_elem_of_In. vm_compute. auto.
  - vm_compute. reflexivity.
  - vm_compute. reflexivity.
Defined.

Lemma emit_console_isolation_witness :
  cw_arrays (fst (emit_console 1 msg_log cw_captured)) !! 2%positive
  = cw_arrays cw_captured !! 2%positive.
Proof.
  apply (emit_console_isolation 1 msg_log cw_captured 2).
  rewrite list_elem_of_In. vm_compute. intros [H|[]]. discriminate.
Defined.

Lemma captureConsoleLogs_receives_witness :
  cw_arrays (fst (emit_console 1 msg_log cw_captured)) !! 1%positive =
    Some [LogEntry (msg_type msg_log) (msg_text msg_log) "1970-01-01T00:00:00.000Z"].
Proof.
  apply (captureConsoleLogs_receives 1 msg_log (cw_init 0) cw_captured 1).
  - apply wf_init.
  - reflexivity.
  - vm_compute. reflexivity.
Defined.

Lemma cstep_append_only_witness :
  exists ys, cw_arrays (fst (emit_console 1 msg_log cw_captured)) !! 1%positive = Some ([] ++ ys).
Proof.
  apply (cstep_append_only cw_captured (AEmit 1 msg_log)).
  - apply wf_capture, wf_init.
  - constructor.
  - intros l f. discriminate.
  - vm_compute. reflexivity.
Defined.

Lemma emit_console_invalid_clock_witness :
  fst (emit_console 1 msg_log cw_captured_bad) = cw_captured_bad /\
  (pushed (listeners_of 1 cw_captured_bad) <> [] ->
   snd (emit_console 1 msg_log cw_captured_bad) = Some invalid_time_value).
Proof.
  apply emit_console_invalid_clock. vm_compute. reflexivity.
Defined.

Lemma reachable_typed_witness :
  arrays_typed (fst (emit_console 1 msg_log cw_captured)).
Proof.
  apply (reachable_typed 0 [ACapture 1; AEmit 1 msg_log]).
  - eapply csteps_cons; [eapply cstep_capture; reflexivity|].
    eapply csteps_cons; [apply cstep_emit|constructor].
  - repeat constructor.
Defined.

(** A run after the capture on page 1: a message on page 1, 5 ms, a
    message on page 2, a message on page 1. *)
Definition run_acts : list caction :=
  [AEmit 1 msg_log; ATick 5; AEmit 2 msg_error; AEmit 1 msg_warning].

(** The world after [run_acts] from [w]. *)
Definition after_run (w : cworld) : cworld :=
  fst (emit_console 1 msg_warning
         (fst (emit_console 2 msg_error
                 (clock_advance 5 (fst (emit_console 1 msg_log w)))))).

Definition cw_after_run : cworld := after_run cw_captured.

Lemma run_acts_csteps w : csteps w run_acts (after_run w).
Proof.
  eapply csteps_cons; [apply cstep_emit|].
  eapply csteps_cons; [apply cstep_tick; lia|].
  eapply csteps_cons; [apply cstep_emit|].
  eapply csteps_cons; [apply cstep_emit|constructor].
Qed.

Lemma captureConsoleLogs_contents_witness :
  cw_arrays cw_after_run !! 1%positive =
    Some [LogEntry "log" "page loaded" "1970-01-01T00:00:00.000Z";
          LogEntry "warning" "deprecated API" "1970-01-01T00:00:00.005Z"].
Proof.
  apply (captureConsoleLogs_contents 1 (cw_init 0) cw_captured 1 run_acts).
  - apply wf_init.
  - reflexivity.
  - apply (run_acts_csteps cw_captured).
  - repeat constructor.
Defined.

Lemma captureConsoleLogs_chronological_witness :
  exists L, cw_arrays cw_after_run !! 1%positive = Some (map snd L) /\
    StronglySorted Z.le (map fst L) /\
    Forall (fun te => cw_clock cw_captured <= fst te <= cw_clock cw_after_run /\
                      to_iso_string (fst te) = Some (timestamp (snd te))) L.
Proof.
  apply (captureConsoleLogs_chronological 1 (cw_init 0) cw_captured 1 run_acts).
  - apply wf_init.
  - reflexivity.
  - apply (run_acts_csteps cw_captured).
  - repeat constructor.
Defined.

(** A second capture on page 1 after [cw_captured]. *)
Definition cw_captured_twice : cworld := fst (captureConsoleLogs 1 cw_captured).

Lemma two_captures_independent_witness :
  1%positive <> 2%positive /\
  cw_arrays (after_run cw_captured_twice) !! 1%positive =
    Some [LogEntry "log" "page loaded" "1970-01-01T00:00:00.000Z";
          LogEntry "warning" "deprecated API" "1970-01-01T00:00:00.005Z"] /\
  cw_arrays (after_run cw_captured_twice) !! 2%positive =
    Some [LogEntry "log" "page loaded" "1970-01-01T00:00:00.000Z";
          LogEntry "warning" "deprecated API" "1970-01-01T00:00:00.005Z"].
Proof.
  apply (two_captures_independent 1 (cw_init 0) cw_captured 1 cw_captured_twice 2 run_acts).
  - apply wf_init.
  - reflexivity.
  - reflexivity.
  - apply run_acts_csteps.
  - repeat constructor.
  - repeat constructor.
Defined.
