(* ===== verification/ScreenshotName.v ===== *)
(** * Reading a screenshot file name back

    A parser for the names [captureScreenshot] builds (line 46,
    [`${name}-${timestamp}.png`] with the stamp of line 45), and the round
    trip: the parser gives back the base name and the exact millisecond
    the clock read. Hence two captures produce the same file name only
    when they have the same base name and read the same millisecond. The
    parser is a tool of the proofs, not code of the program. *)

From Stdlib Require Import ZArith List String Ascii Lia Bool.
From S2P Require Import Prelude JsRuntime DateIso JsString Screenshot.
Import ListNotations.
Local Open Scope string_scope.
Local Open Scope Z_scope.

(** ** A small parser over strings *)

Definition obind {A B} (m : option A) (f : A -> option B) : option B :=
  match m with Some a => f a | None => None end.

(** The value of a decimal digit character. *)
Definition digit_value (c : ascii) : Z := Z.of_N (N_of_ascii c) - 48.

(** Reads exactly [n] digits, accumulating into [acc]. *)
Fixpoint read_digits (n : nat) (acc : Z) (s : string) : option (Z * string) :=
  match n with
  | O => Some (acc, s)
  | S n' =>
      match s with
      | String c s' =>
          if is_digit c then read_digits n' (acc * 10 + digit_value c) s' else None
      | EmptyString => None
      end
  end.

(** Reads the character [c]. *)
Definition expect (c : ascii) (s : string) : option string :=
  match s with
  | String c' s' => if Ascii.eqb c c' then Some s' else None
  | EmptyString => None
  end.

(** The year field: four digits, or a sign and six digits. *)
Definition read_year (s : string) : option (Z * string) :=
  match s with
  | String c s' =>
      if Ascii.eqb c "+" then read_digits 6 0 s'
      else if Ascii.eqb c "-" then
        obind (read_digits 6 0 s') (fun '(y, r) => Some (- y, r))
      else read_digits 4 0 s
  | EmptyString => None
  end.

(** [YYYY-MM-DDTHH-mm-ss-sssZ] (after line 45) back to a time value. *)
Definition parse_stamp (s : string) : option Z :=
  obind (read_year s) (fun '(y, s) =>
  obind (expect "-" s) (fun s =>
  obind (read_digits 2 0 s) (fun '(mo, s) =>
  obind (expect "-" s) (fun s =>
  obind (read_digits 2 0 s) (fun '(d, s) =>
  obind (expect "T" s) (fun s =>
  obind (read_digits 2 0 s) (fun '(h, s) =>
  obind (expect "-" s) (fun s =>
  obind (read_digits 2 0 s) (fun '(mi, s) =>
  obind (expect "-" s) (fun s =>
  obind (read_digits 2 0 s) (fun '(sec, s) =>
  obind (expect "-" s) (fun s =>
  obind (read_digits 3 0 s) (fun '(ms, s) =>
  obind (expect "Z" s) (fun s =>
  match s with
  | EmptyString =>
      Some (days_from_civil y mo d * ms_per_day + h * 3600000 + mi * 60000
            + sec * 1000 + ms)
  | _ => None
  end)))))))))))))).

(** Splits off the last [n] characters. *)
Definition split_suffix (n : nat) (s : string) : option (string * string) :=
  let l := String.length s in
  if Nat.leb n l then Some (substring 0 (l - n) s, substring (l - n) n s) else None.

(** [<name>-<stamp>] with a stamp of [k] characters. *)
Definition parse_name_at (k : nat) (base : string) : option (string * Z) :=
  obind (split_suffix k base) (fun '(pre, st) =>
  obind (parse_stamp st) (fun t =>
  obind (split_suffix 1 pre) (fun '(name, sep) =>
  if String.eqb sep "-" then Some (name, t) else None))).

(** A file name of line 46 back to its base name and time value: the
    stamp has 24 characters, or 27 for a signed year. *)
Definition parse_screenshot_name (f : string) : option (string * Z) :=
  obind (split_suffix 4 f) (fun '(base, ext) =>
  if String.eqb ext ".png" then
    match parse_name_at 24 base with
    | Some r => Some r
    | None => parse_name_at 27 base
    end
  else None).

(** ** Reading a padded number *)

Lemma digit_value_digit k : 0 <= k < 10 -> digit_value (digit k) = k.
Proof.
  intros Hk.
  assert (k = 0 \/ k = 1 \/ k = 2 \/ k = 3 \/ k = 4 \/ k = 5 \/ k = 6 \/ k = 7
          \/ k = 8 \/ k = 9) as Hc by lia.
  repeat destruct Hc as [-> | Hc]; try reflexivity. subst. reflexivity.
Qed.

(** Reading [a + b] digits is reading [a], then [b]. *)
Lemma read_digits_plus a b acc s :
  read_digits (a + b) acc s =
  obind (read_digits a acc s) (fun '(v, r) => read_digits b v r).
Proof.
  revert acc s. induction a as [|a IH]; intros acc s; [reflexivity|].
  destruct s as [|c s]; [reflexivity|]. simpl. destruct (is_digit c); [apply IH|reflexivity].
Qed.
Lemma read_digits_pad w k acc rest :
  read_digits w acc (pad w k ++ rest) =
  Some (acc * 10 ^ Z.of_nat w + k mod 10 ^ Z.of_nat w, rest).
Proof.
  revert k acc rest. induction w as [|w IH]; intros k acc rest.
  - simpl. f_equal. f_equal. rewrite Z.mod_1_r. lia.
  - replace (S w) with (w + 1)%nat at 1 by lia. rewrite read_digits_plus.
    cbn [pad]. rewrite string_app_assoc, IH. cbn [obind].
    pose proof (Z.mod_pos_bound k 10 ltac:(lia)) as Hk.
    cbn [read_digits String.append]. rewrite digit_is_digit, digit_value_digit by lia.
    f_equal. f_equal. rewrite Nat2Z.inj_succ, Z.pow_succ_r by lia.
    rewrite Z.rem_mul_r by lia. ring.
Qed.

(** A padded number of positive width starts with a digit. *)
Lemma pad_head w n : exists c s, pad (S w) n = String c s /\ is_digit c = true.
Proof.
  pose proof (pad_length (S w) n) as Hl. pose proof (pad_digits (S w) n) as Hd.
  destruct (pad (S w) n) as [|c s]; [discriminate|].
  apply andb_true_iff in Hd as [Hc _]. eauto.
Qed.

Lemma read_year_digit c s :
  is_digit c = true -> read_year (String c s) = read_digits 4 0 (String c s).
Proof.
  intros Hc. unfold read_year.
  destruct (Ascii.eqb_spec c "+"); [subst; discriminate|].
  destruct (Ascii.eqb_spec c "-"); [subst; discriminate|]. reflexivity.
Qed.

(** [read_year] reads back every year [year_string] writes. *)
Lemma read_year_string y rest :
  Z.abs y <= 999999 -> read_year (year_string y ++ rest) = Some (y, rest).
Proof.
  intros Hy. unfold year_string.
  destruct ((0 <=? y) && (y <=? 9999)) eqn:Hr.
  - apply andb_true_iff in Hr as [H1 H2]. apply Z.leb_le in H1, H2.
    destruct (pad_head 3 y) as (c & s & Hp & Hc).
    rewrite Hp. cbn [String.append]. rewrite read_year_digit by exact Hc.
    change (String c (s ++ rest)) with (String c s ++ rest). rewrite <- Hp.
    rewrite read_digits_pad. cbn -[Z.pow]. rewrite Z.mod_small; [reflexivity|].
    cbn. lia.
  - destruct (Z.ltb_spec y 0); cbn [String.append read_year Ascii.eqb Bool.eqb andb];
      rewrite read_digits_pad; cbn -[Z.abs];
      rewrite Z.mod_small by lia; f_equal; f_equal; lia.
Qed.

Lemma replace_colon_dot_year y : replace_colon_dot (year_string y) = year_string y.
Proof.
  unfold year_string. destruct (_ && _); [apply replace_colon_dot_pad|].
  destruct (y <? 0); cbn [String.append replace_colon_dot Ascii.eqb Bool.eqb andb orb];
    rewrite replace_colon_dot_pad; reflexivity.
Qed.

Lemma read_pad_small w k rest :
  0 <= k < 10 ^ Z.of_nat w -> read_digits w 0 (pad w k ++ rest) = Some (k, rest).
Proof. intros Hk. rewrite read_digits_pad, Z.mod_small by exact Hk. now replace (0 * _ + k) with k by lia. Qed.

Lemma Some_string_inj (a b : string) : Some a = Some b -> a = b.
Proof. congruence. Qed.

(** The stamp of a valid time value, field by field. *)
Lemma iso_stamp_eq t iso :
  to_iso_string t = Some iso ->
  exists y m d,
    Z.abs y <= 999999 /\ civil_from_days (t / ms_per_day) = (y, m, d) /\
    replace_colon_dot iso =
      year_string y ++ "-" ++ pad 2 m ++ "-" ++ pad 2 d ++ "T"
      ++ pad 2 (t mod ms_per_day / 3600000) ++ "-" ++ pad 2 (t mod ms_per_day / 60000 mod 60)
      ++ "-" ++ pad 2 (t mod ms_per_day / 1000 mod 60) ++ "-"
      ++ pad 3 (t mod ms_per_day mod 1000) ++ "Z".
Proof.
  unfold to_iso_string. destruct (Z.leb_spec (Z.abs t) max_time) as [Ht|]; [|discriminate].
  pose proof (civil_year_bound t Ht) as Hy.
  destruct (civil_from_days (t / ms_per_day)) as [[y m] d]. cbn [fst] in Hy.
  intros Heq. apply Some_string_inj in Heq. subst iso. exists y, m, d.
  split; [exact Hy|]. split; [reflexivity|].
  rewrite !replace_colon_dot_app, replace_colon_dot_year, !replace_colon_dot_pad.
  reflexivity.
Qed.

Lemma parse_stamp_iso t iso :
  to_iso_string t = Some iso -> parse_stamp (replace_colon_dot iso) = Some t.
Proof.
  intros Hiso. apply iso_stamp_eq in Hiso as (y & m & d & Hy & Hc & ->).
  pose proof (civil_roundtrip (t / ms_per_day)) as Hr. rewrite Hc in Hr.
  destruct Hr as (Hm & Hd & Hdays).
  pose proof (time_fields t) as Hf. cbv zeta in Hf.
  destruct Hf as (Hh & Hmi & Hs & Hms & Ht').
  cbn [String.append]. unfold parse_stamp. rewrite read_year_string by exact Hy.
  cbn [obind expect Ascii.eqb Bool.eqb andb].
  repeat (rewrite read_pad_small
            by (change (10 ^ Z.of_nat 2) with 100; change (10 ^ Z.of_nat 3) with 1000; lia);
          cbn [obind expect Ascii.eqb Bool.eqb andb String.append]).
  rewrite Hdays. f_equal. lia.
Qed.

(** ** Splitting a file name *)

Lemma substring_all s : substring 0 (String.length s) s = s.
Proof. induction s as [|c s IH]; [reflexivity|]. cbn [String.length substring]. rewrite IH. reflexivity. Qed.

Lemma substring_app_l a b : substring 0 (String.length a) (a ++ b) = a.
Proof. induction a as [|c a IH]; [destruct b; reflexivity|]. cbn [String.length substring String.append]. rewrite IH. reflexivity. Qed.

Lemma substring_app_r a b : substring (String.length a) (String.length b) (a ++ b) = b.
Proof. induction a; simpl; [apply substring_all | assumption]. Qed.

Lemma split_suffix_app a b n :
  String.length b = n -> split_suffix n (a ++ b) = Some (a, b).
Proof.
  intros <-. unfold split_suffix. rewrite string_length_app.
  replace (Nat.leb _ _) with true by (symmetry; apply Nat.leb_le; lia).
  replace (String.length a + String.length b - String.length b)%nat with (String.length a) by lia.
  rewrite substring_app_l, substring_app_r. reflexivity.
Qed.

Lemma pad_add a b n : pad (a + b) n = pad a (n / 10 ^ Z.of_nat b) ++ pad b n.
Proof.
  revert n. induction b as [|b IH]; intros n.
  - rewrite Nat.add_0_r, Z.div_1_r, string_app_nil_r. reflexivity.
  - rewrite Nat.add_succ_r. cbn [pad]. rewrite IH, string_app_assoc.
    rewrite Nat2Z.inj_succ, Z.pow_succ_r, Z.div_div by lia. reflexivity.
Qed.

Lemma digit_sep c : is_digit c = true -> String.eqb (String c "") "-" = false.
Proof.
  intros Hc. apply String.eqb_neq. intros [= ->]. discriminate.
Qed.

Lemma parse_name_at_ok k name st t :
  String.length st = k -> parse_stamp st = Some t ->
  parse_name_at k ((name ++ "-") ++ st) = Some (name, t).
Proof.
  intros Hl Hp. unfold parse_name_at. rewrite split_suffix_app by exact Hl.
  cbn [obind]. rewrite Hp. cbn [obind]. rewrite split_suffix_app by reflexivity.
  reflexivity.
Qed.

Lemma parse_name_at_digit k pre c st :
  String.length st = k -> is_digit c = true ->
  parse_name_at k ((pre ++ String c "") ++ st) = None.
Proof.
  intros Hl Hc. unfold parse_name_at. rewrite split_suffix_app by exact Hl.
  cbn [obind]. destruct (parse_stamp st); [|reflexivity]. cbn [obind].
  rewrite split_suffix_app by reflexivity. cbn [obind].
  rewrite digit_sep by exact Hc. reflexivity.
Qed.

Lemma parse_screenshot_name_filename name t iso :
  to_iso_string t = Some iso ->
  parse_screenshot_name (screenshot_filename name (replace_colon_dot iso)) = Some (name, t).
Proof.
  intros Hiso. pose proof (parse_stamp_iso t iso Hiso) as Hp.
  apply iso_stamp_eq in Hiso as (y & m & d & Hy & _ & Hst).
  unfold screenshot_filename, parse_screenshot_name.
  replace (name ++ "-" ++ replace_colon_dot iso ++ ".png")
    with (((name ++ "-") ++ replace_colon_dot iso) ++ ".png")
    by (rewrite !string_app_assoc; reflexivity).
  rewrite split_suffix_app by reflexivity. cbn [obind]. rewrite String.eqb_refl.
  rewrite Hst in Hp |- *. 
  match goal with |- context [year_string y ++ ?r] => remember r as rest eqn:Hrest end.
  assert (Hl : String.length rest = 20%nat)
    by (subst rest; rewrite !string_length_app, !pad_length; reflexivity).
  clear Hrest Hst.
  destruct (year_string_cases y) as [Hys | (sign & Hsign & Hys)]; rewrite Hys in Hp |- *.
  - rewrite (parse_name_at_ok 24 name _ t); [reflexivity| |exact Hp].
    rewrite string_length_app, pad_length, Hl. reflexivity.
  - replace ((name ++ "-") ++ String sign (pad 6 (Z.abs y)) ++ rest)
      with (((name ++ "-" ++ String sign (pad 1 (Z.abs y / 10 ^ 4 / 10)))
               ++ String (digit (Z.abs y / 10 ^ 4 mod 10)) "") ++ (pad 4 (Z.abs y) ++ rest))
      by (rewrite (pad_add 2 4); cbn [pad]; rewrite !string_app_assoc; reflexivity).
    rewrite parse_name_at_digit.
    + match goal with |- parse_name_at 27 ?b = _ =>
        replace b with ((name ++ "-") ++ String sign (pad 6 (Z.abs y)) ++ rest)
          by (rewrite (pad_add 2 4); cbn [pad]; rewrite !string_app_assoc; reflexivity) end.
      apply parse_name_at_ok; [|exact Hp].
      destruct Hsign as [-> | ->]; cbn [String.append String.length];
        rewrite string_length_app, pad_length, Hl; reflexivity.
    + rewrite string_length_app, pad_length, Hl. reflexivity.
    + apply digit_is_digit, Z.mod_pos_bound. lia.
Qed.

(** ** File names identify the capture *)

Section Names.
Context {W : Type} `{Runtime W}.

(** C29. Round trip: the file name a resolved capture returns reads back,
    by [parse_screenshot_name], to the base name, [ToString] of the
    [name] argument whatever its type (["undefined"] when it is omitted),
    and the time value [new Date()] read (the capture's first event). *)
Theorem captureScreenshot_name_roundtrip obj page name w v :
  r_result (captureScreenshot_js obj page name w) = Done v ->
  exists f t,
    v = JString f /\
    hd_error (r_trace (captureScreenshot_js obj page name w)) = Some (ShotNewDate t) /\
    parse_screenshot_name f = Some (js_to_string obj name, t).
Proof.
  intros Hr. apply captureScreenshot_done in Hr as (iso & Hiso & -> & Hhd).
  eexists _, _. split; [reflexivity|]. split; [exact Hhd|].
  now apply parse_screenshot_name_filename.
Qed.

(** C30. Collisions: two resolved captures return the same file name if
    and only if their names have the same [ToString] and they read the
    same millisecond. So names collide across base names only through
    [ToString] (the number [1] and the string ["1"]), and never across
    milliseconds. *)
Theorem captureScreenshot_name_injective obj page1 page2 name1 name2 w1 w2 v1 v2 :
  r_result (captureScreenshot_js obj page1 name1 w1) = Done v1 ->
  r_result (captureScreenshot_js obj page2 name2 w2) = Done v2 ->
  (v1 = v2 <->
   js_to_string obj name1 = js_to_string obj name2 /\
   clock (date_now_tick w1) = clock (date_now_tick w2)).
Proof.
  intros H1 H2.
  apply captureScreenshot_done in H1 as (iso1 & Hiso1 & -> & _).
  apply captureScreenshot_done in H2 as (iso2 & Hiso2 & -> & _).
  split.
  - intros [= Hf].
    apply (parse_screenshot_name_filename (js_to_string obj name1)) in Hiso1 as Hp1.
    apply (parse_screenshot_name_filename (js_to_string obj name2)) in Hiso2 as Hp2.
    rewrite Hf, Hp2 in Hp1. now injection Hp1 as -> ->.
  - intros [Hn Ht]. rewrite Ht, Hiso2 in Hiso1. injection Hiso1 as ->. now rewrite Hn.
Qed.
End Names.

(** ** Witnesses *)

(** Objects print as ["[object Object]"], the default [toString]. *)
Definition object_string : nat -> string := fun _ => "[object Object]".

Lemma captureScreenshot_name_roundtrip_witness :
  exists f t,
    JString "undefined-2023-11-14T22-13-20-123Z.png" = JString f /\
    hd_error (r_trace (captureScreenshot_js object_string instant_page JUndefined
                         (SimWorld 1700000000123 0)))
      = Some (ShotNewDate t) /\
    parse_screenshot_name f = Some ("undefined", t).
Proof.
  apply (captureScreenshot_name_roundtrip (W:=sim_world) object_string instant_page JUndefined).
  vm_compute. reflexivity.
Defined.

(** The number [1] and the string ["1"] as base names, at the first
    millisecond of year -1 (a signed, 27-character stamp), from worlds
    whose call counters differ: the two files are the same. *)
Lemma captureScreenshot_name_injective_witness :
  JString "1--000001-01-01T00-00-00-000Z.png" = JString "1--000001-01-01T00-00-00-000Z.png" <->
  "1" = "1" /\
  clock (date_now_tick (SimWorld (-62198755200000) 0))
  = clock (date_now_tick (SimWorld (-62198755200000) 7)).
Proof.
  apply (captureScreenshot_name_injective (W:=sim_world) object_string instant_page instant_page
           (JNumber (JFin 1)) (JString "1") (SimWorld (-62198755200000) 0)
           (SimWorld (-62198755200000) 7));
    vm_compute; reflexivity.
Defined.
