(* ===== verification/Exports.v ===== *)
(** * The module and a client that composes its three functions

    [module.exports] (lines 52-56) gives a test script the three
    helpers. They meet in one event loop: the array [captureConsoleLogs]
    returns fills while [waitForCondition] sleeps between two calls of
    its condition, and [captureScreenshot] then reads the clock the poller
    left. [eworld] is that event loop: the console state of
    [ConsoleCapture] and the queue of the console messages the pages will
    log, each at its time. A timer of [d] ms lets the event loop dispatch,
    in order, every message due before it fires, each at its own time,
    through the steps [cstep] of [ConsoleCapture]; so the invariant [wf]
    of the console state is kept. [ew_runtime] makes [eworld] a runtime
    of [JsRuntime], with its laws. [module_exports obj_str] takes what
    objects' [toString] methods return, since [captureScreenshot] prints
    a name of any type.

    Theorems: a test script that captures the logs of a page and waits
    for [logs.length > 0] resolves [true] with the entry of the message in
    its array when the page logs before the deadline (less one interval),
    and rejects with the timeout error with its array still empty when the
    page logs after the deadline (plus one interval), in which case the
    whole script rejects before [captureScreenshot] runs; the whole script
    through [module_exports] runs the poller's events, then the
    screenshot's, and returns the array and the file name stamped with
    the clock the poller resolved at. *)

From stdpp Require Import base gmap list.
From Stdlib Require Import ZArith String.
From S2P Require Import Prelude JsRuntime Poller DateIso JsString Screenshot ConsoleCapture.
Local Open Scope Z_scope.
Local Open Scope js_scope.

(** ** The event loop of a test script *)

(** A console message the page [on_page] will log at time [at_time]. *)
Record scheduled : Type := Scheduled {
  at_time : Z;
  on_page : page_id;
  message : console_message
}.

Record eworld : Type := EWorld {
  ew_console : cworld;
  ew_pending : list scheduled
}.

(** Time passes until [t] (if [t] is not already past). *)
Definition clock_to (t : Z) (c : cworld) : cworld :=
  clock_advance (Z.max 0 (t - cw_clock c)) c.

(** The messages due by [target], dispatched in order, each at its time;
    the queue keeps the messages still to come. *)
Fixpoint deliver (target : Z) (q : list scheduled) (c : cworld) : cworld * list scheduled :=
  match q with
  | [] => (c, [])
  | ev :: q' =>
      if at_time ev <=? target then
        deliver target q' (fst (emit_console (on_page ev) (message ev) (clock_to (at_time ev) c)))
      else (c, q)
  end.

(** A timer of [d] ms: the messages due before it fires, then the clock
    reaches its end. *)
Definition ew_timer_wait (d : Z) (w : eworld) : eworld :=
  let target := cw_clock (ew_console w) + d in
  let '(c, q) := deliver target (ew_pending w) (ew_console w) in
  EWorld (clock_to target c) q.

#[export] Instance ew_runtime : Runtime eworld := {
  clock := fun w => cw_clock (ew_console w);
  date_now_tick := fun w => w;
  timer_wait := ew_timer_wait
}.

(** ** The module *)

(** The events of a script that uses the poller and the screenshot. *)
Inductive script_event : Type :=
| SPoll (e : poll_event)
| SShot (e : shot_event).

(** [module.exports = { waitForCondition, captureConsoleLogs,
    captureScreenshot }]: what [require] gives the script. *)
Record test_helper : Type := TestHelper {
  export_waitForCondition :
    nat -> (eworld -> eworld * completion) -> option jsnum -> option jsnum ->
    JsM eworld poll_event jsval;
  export_captureConsoleLogs : page_id -> eworld -> eworld * loc;
  export_captureScreenshot :
    (screenshot_options -> eworld -> eworld * completion) -> jsval ->
    JsM eworld shot_event jsval
}.

(** Lines 52-56. [captureConsoleLogs] is synchronous and acts on the
    console state of the event loop; [captureScreenshot] takes a name of
    any type ([obj_str]: what objects' [toString] methods return). *)
Definition module_exports (obj_str : nat -> string) : test_helper := {|
  export_waitForCondition := waitForCondition;
  export_captureConsoleLogs := fun p w =>
    let '(c, l) := captureConsoleLogs p (ew_console w) in (EWorld c (ew_pending w), l);
  export_captureScreenshot := captureScreenshot_js obj_str
|}.

(** ** A client *)

(** [() => logs.length > 0] *)
Definition logs_nonempty (l : loc) (w : eworld) : eworld * completion :=
  (w, Normal (JBool (Nat.ltb 0 (List.length (default [] (cw_arrays (ew_console w) !! l)))))).

(** [const logs = captureConsoleLogs(page);
     await waitForCondition(() => logs.length > 0, timeout, interval);
     const file = await captureScreenshot(page, name);] *)
Definition wait_for_log_script (H : test_helper) (fuel : nat) (p : page_id)
           (shot : screenshot_options -> eworld -> eworld * completion) (name : jsval)
           (timeout interval : option jsnum) : JsM eworld script_event (loc * jsval) :=
  fun w =>
    let '(w1, l) := export_captureConsoleLogs H p w in
    (let* _ := map_trace SPoll (export_waitForCondition H fuel (logs_nonempty l) timeout interval) in
     let* f := map_trace SShot (export_captureScreenshot H shot name) in
     ret (l, f)) w1.

(** ** The event loop keeps the console state well formed *)

Lemma clock_to_clock t c : cw_clock (clock_to t c) = Z.max (cw_clock c) t.
Proof. unfold clock_to, clock_advance. cbn. lia. Qed.

Lemma clock_to_listeners t c p : listeners_of p (clock_to t c) = listeners_of p c.
Proof. reflexivity. Qed.

Lemma clock_to_step t c : cstep c (ATick (Z.max 0 (t - cw_clock c))) (clock_to t c).
Proof. constructor. lia. Qed.

(** Dispatching the due messages is a run of console steps. *)
Lemma deliver_csteps target q c :
  exists acts, csteps c acts (fst (deliver target q c)).
Proof.
  revert c. induction q as [|ev q IH]; intros c; cbn [deliver].
  - exists []. constructor.
  - destruct (at_time ev <=? target); [|exists []; constructor].
    destruct (IH (fst (emit_console (on_page ev) (message ev) (clock_to (at_time ev) c))))
      as [acts Hacts].
    exists (ATick (Z.max 0 (at_time ev - cw_clock c)) :: AEmit (on_page ev) (message ev) :: acts).
    econstructor; [apply clock_to_step|]. econstructor; [constructor|exact Hacts].
Qed.

Lemma ew_timer_wait_csteps d w :
  exists acts, csteps (ew_console w) acts (ew_console (ew_timer_wait d w)).
Proof.
  unfold ew_timer_wait.
  destruct (deliver_csteps (cw_clock (ew_console w) + d) (ew_pending w) (ew_console w))
    as [acts Hacts].
  destruct (deliver _ _ _) as [c q]. cbn in *.
  exists (acts ++ [ATick (Z.max 0 (cw_clock (ew_console w) + d - cw_clock c))]).
  eapply csteps_app; [exact Hacts|]. econstructor; [apply clock_to_step|constructor].
Qed.

(** Timers of the event loop keep the console state well formed. *)
Lemma ew_timer_wait_wf d w : wf (ew_console w) -> wf (ew_console (ew_timer_wait d w)).
Proof.
  intros Hwf. destruct (ew_timer_wait_csteps d w) as [acts Hacts].
  exact (csteps_wf _ _ _ Hwf Hacts).
Qed.

#[export] Instance ew_runtime_laws : RuntimeLaws eworld.
Proof.
  split; intros; cbn; [lia|]. unfold ew_timer_wait.
  destruct (deliver _ _ _) as [c q]. unfold clock_to, clock_advance. cbn. lia.
Qed.

(** ** A page that logs one message while the script waits *)

Section WaitForLog.
Variables (p : page_id) (msg : console_message) (tm : Z) (ts : string) (l : loc).
Hypothesis Hts : to_iso_string tm = Some ts.

(** The message is still to come and the array is empty. *)
Definition waiting (w : eworld) : Prop :=
  ew_pending w = [Scheduled tm p msg] /\ cw_arrays (ew_console w) !! l = Some [] /\
  listeners_of p (ew_console w) = [PushLog l] /\ cw_clock (ew_console w) < tm.

(** The message was logged into the array, stamped with its time. *)
Definition logged (w : eworld) : Prop :=
  ew_pending w = [] /\
  cw_arrays (ew_console w) !! l = Some [LogEntry (msg_type msg) (msg_text msg) ts] /\
  listeners_of p (ew_console w) = [PushLog l].

Lemma timer_early d w :
  0 <= d -> waiting w -> cw_clock (ew_console w) + d < tm ->
  waiting (ew_timer_wait d w) /\
  cw_clock (ew_console (ew_timer_wait d w)) = cw_clock (ew_console w) + d.
Proof.
  intros Hd0 (Hq & Ha & Hl & Hc) Hd. unfold ew_timer_wait. rewrite Hq. cbn [deliver at_time].
  destruct (Z.leb_spec tm (cw_clock (ew_console w) + d)); [lia|].
  unfold waiting, clock_to, clock_advance, listeners_of in *. cbn. repeat split; auto; lia.
Qed.

Lemma timer_late d w :
  waiting w -> tm <= cw_clock (ew_console w) + d ->
  logged (ew_timer_wait d w) /\
  cw_clock (ew_console (ew_timer_wait d w)) = cw_clock (ew_console w) + d.
Proof.
  intros (Hq & Ha & Hl & Hc) Hd. unfold ew_timer_wait. rewrite Hq. cbn [deliver at_time on_page message].
  destruct (Z.leb_spec tm (cw_clock (ew_console w) + d)); [|lia]. cbn [deliver fst snd].
  set (c1 := clock_to tm (ew_console w)).
  assert (Hc1 : cw_clock c1 = tm) by (subst c1; rewrite clock_to_clock; lia).
  assert (Hl1 : listeners_of p c1 = [PushLog l]) by exact Hl.
  pose proof (emit_listeners_grows (listeners_of p c1) msg c1) as Hg.
  assert (Harr : cw_arrays (fst (emit_console p msg c1)) !! l =
                 Some ([] ++ [LogEntry (msg_type msg) (msg_text msg) ts])).
  { apply emit_listeners_in; [by rewrite Hc1|rewrite Hl1; apply NoDup_singleton|
                              rewrite Hl1; by apply list_elem_of_singleton|exact Ha]. }
  split; [split; [done|split]|].
  - exact Harr.
  - cbn [ew_console]. rewrite clock_to_listeners. unfold emit_console.
    by rewrite (listeners_of_grows p _ _ Hg).
  - cbn [ew_console]. rewrite clock_to_clock. unfold emit_console.
    rewrite (grows_clock _ _ Hg). lia.
Qed.

Lemma logs_nonempty_waiting w : waiting w -> logs_nonempty l w = (w, Normal (JBool false)).
Proof. intros (_ & Ha & _). unfold logs_nonempty. by rewrite Ha. Qed.

Lemma logs_nonempty_logged w : logged w -> logs_nonempty l w = (w, Normal (JBool true)).
Proof. intros (_ & Ha & _). unfold logs_nonempty. by rewrite Ha. Qed.

(** A round once the message was logged: the condition is true. *)
Lemma poll_logged n s Tms I w :
  logged w -> cw_clock (ew_console w) - s < Tms -> (1 <= n)%nat ->
  poll_loop n (logs_nonempty l) s (JFin Tms) I w =
  mkRun w [EvNow (cw_clock (ew_console w)); EvCall (Normal (JBool true))] (Done (JBool true)).
Proof.
  intros Hw Ht Hn. destruct n as [|n]; [lia|]. rewrite poll_loop_S. cbv zeta.
  cbn [clock date_now_tick ew_runtime js_lt]. rewrite (proj2 (Z.ltb_lt _ _) Ht).
  by rewrite logs_nonempty_logged.
Qed.

(** While the message is to come, each round sleeps; the round after the
    timer during which the page logs resolves [true]. *)
Lemma poll_waiting n s Tms I w :
  waiting w -> tm - s + timer_delay I <= Tms ->
  (Z.to_nat (tm - cw_clock (ew_console w)) + 2 <= n)%nat ->
  let r := poll_loop n (logs_nonempty l) s (JFin Tms) I w in
  r_result r = Done (JBool true) /\ logged (r_world r) /\
  tm <= cw_clock (ew_console (r_world r)) < tm + timer_delay I.
Proof.
  revert w. induction n as [|n IH]; intros w Hw HT Hn; [lia|]. cbv zeta.
  pose proof (timer_delay_pos I) as Hd.
  assert (Hc : cw_clock (ew_console w) < tm) by apply Hw.
  rewrite poll_loop_S. cbv zeta. cbn [clock date_now_tick ew_runtime js_lt].
  rewrite (proj2 (Z.ltb_lt (cw_clock (ew_console w) - s) Tms)) by lia.
  rewrite (logs_nonempty_waiting w Hw). cbn [truthy r_result r_world].
  destruct (Z.ltb_spec (cw_clock (ew_console w) + timer_delay I) tm) as [Hlt|Hge].
  - destruct (timer_early (timer_delay I) w ltac:(lia) Hw Hlt) as [Hw' Hc'].
    apply IH; [exact Hw'|exact HT|]. change timer_wait with ew_timer_wait. rewrite Hc'.
    lia.
  - destruct (timer_late (timer_delay I) w Hw Hge) as [Hw' Hc'].
    change timer_wait with ew_timer_wait. rewrite poll_logged; [|exact Hw'|rewrite Hc'; lia|lia].
    cbn [r_result r_world]. rewrite Hc'. split; [done|]. split; [exact Hw'|]. lia.
Qed.

(** When the page logs after the deadline plus one interval, every
    round finds the array empty until the poller gives up. *)
Lemma poll_waiting_timeout n s Tms I w :
  waiting w -> s + Tms + timer_delay I <= tm ->
  (Z.to_nat (Tms - (cw_clock (ew_console w) - s)) < n)%nat ->
  let r := poll_loop n (logs_nonempty l) s (JFin Tms) I w in
  r_result r = Raise timeout_error /\ waiting (r_world r).
Proof.
  revert w. induction n as [|n IH]; intros w Hw HT Hn; [lia|]. cbv zeta.
  pose proof (timer_delay_pos I) as Hd.
  rewrite poll_loop_S. cbv zeta. cbn [clock date_now_tick ew_runtime js_lt].
  destruct (Z.ltb_spec (cw_clock (ew_console w) - s) Tms) as [Ht|Ht]; [|by split].
  rewrite (logs_nonempty_waiting w Hw). cbn [truthy r_result r_world].
  destruct (timer_early (timer_delay I) w ltac:(lia) Hw ltac:(lia)) as [Hw' Hc'].
  apply IH; [exact Hw'|exact HT|]. change timer_wait with ew_timer_wait. rewrite Hc'. lia.
Qed.
End WaitForLog.

(** ** The client through the module *)

(** After the capture of a page nobody listens to, the script's world
    waits for the message. *)
Lemma capture_waiting obj p msg tm w w1 l :
  listeners_of p (ew_console w) = [] -> ew_pending w = [Scheduled tm p msg] ->
  cw_clock (ew_console w) < tm ->
  export_captureConsoleLogs (module_exports obj) p w = (w1, l) ->
  waiting p msg tm l w1 /\ cw_clock (ew_console w1) = cw_clock (ew_console w).
Proof.
  intros Hl Hq Hc Hcap. cbn [export_captureConsoleLogs module_exports] in Hcap.
  rewrite captureConsoleLogs_eq in Hcap. injection Hcap as <- <-.
  unfold waiting. cbn [ew_console ew_pending cw_arrays cw_clock].
  split; [|done]. split; [exact Hq|]. split; [by rewrite lookup_insert_eq|]. split; [|exact Hc].
  pose proof (listeners_of_capture p p (ew_console w)) as HL.
  rewrite captureConsoleLogs_eq, decide_True in HL by done. cbn [fst] in HL. by rewrite HL, Hl.
Qed.

(** The wait of the script, from the capture. *)
Lemma wait_for_log_poll p msg tm ts w1 l fuel Tms I :
  to_iso_string tm = Some ts ->
  waiting p msg tm l w1 -> tm - cw_clock (ew_console w1) + timer_delay I <= Tms ->
  (Z.to_nat (tm - cw_clock (ew_console w1)) + 2 <= fuel)%nat ->
  let r := waitForCondition fuel (logs_nonempty l) (Some (JFin Tms)) (Some I) w1 in
  r_result r = Done (JBool true) /\ logged p msg ts l (r_world r) /\
  tm <= cw_clock (ew_console (r_world r)) < tm + timer_delay I.
Proof.
  intros Hts Hw HT Hf. cbv zeta. rewrite waitForCondition_unfold. cbv zeta.
  cbn [param_default r_result r_world clock date_now_tick ew_runtime].
  by apply (poll_waiting p msg tm ts l Hts).
Qed.

(** C36. Composition: a script captures the console of a page nobody
    listens to yet, then waits for [logs.length > 0]; the page logs
    [msg] at [tm], at least one interval before the deadline. The wait
    resolves [true], and the array the capture returned holds exactly the
    entry of [msg], stamped with the time it was logged: the listener
    filled, during a timer of the poller, the array the poller reads. *)
Theorem wait_for_log_resolves obj p msg tm ts w w1 l fuel Tms I :
  listeners_of p (ew_console w) = [] -> ew_pending w = [Scheduled tm p msg] ->
  to_iso_string tm = Some ts ->
  cw_clock (ew_console w) < tm -> tm - cw_clock (ew_console w) + timer_delay I <= Tms ->
  (Z.to_nat (tm - cw_clock (ew_console w)) + 2 <= fuel)%nat ->
  export_captureConsoleLogs (module_exports obj) p w = (w1, l) ->
  let r := export_waitForCondition (module_exports obj) fuel (logs_nonempty l)
             (Some (JFin Tms)) (Some I) w1 in
  r_result r = Done (JBool true) /\
  cw_arrays (ew_console (r_world r)) !! l = Some [LogEntry (msg_type msg) (msg_text msg) ts].
Proof.
  intros Hl Hq Hts Hc HT Hf Hcap.
  destruct (capture_waiting obj p msg tm w w1 l Hl Hq Hc Hcap) as [Hw Hc1].
  destruct (wait_for_log_poll p msg tm ts w1 l fuel Tms I Hts Hw) as (Hr & (_ & Ha & _) & _);
    [lia|lia|].
  split; [exact Hr|exact Ha].
Qed.

(** The wait of the script when the page logs too late, from the
    capture. *)
Lemma wait_for_log_late p msg tm w1 l fuel Tms I :
  waiting p msg tm l w1 -> 0 <= Tms -> cw_clock (ew_console w1) + Tms + timer_delay I <= tm ->
  (Z.to_nat Tms < fuel)%nat ->
  let r := waitForCondition fuel (logs_nonempty l) (Some (JFin Tms)) (Some I) w1 in
  r_result r = Raise timeout_error /\ cw_arrays (ew_console (r_world r)) !! l = Some [].
Proof.
  intros Hw HT0 HT Hf. pose proof (timer_delay_pos I).
  cbv zeta. rewrite waitForCondition_unfold. cbv zeta.
  cbn [param_default r_result r_world clock date_now_tick ew_runtime].
  destruct (poll_waiting_timeout p msg tm l fuel (cw_clock (ew_console w1)) Tms I w1 Hw)
    as (Hr & (_ & Ha & _)); [lia|lia|].
  split; [exact Hr|exact Ha].
Qed.

(** C37. When the page logs only after the deadline plus one interval,
    the wait rejects with the timeout error, and the array is still
    empty when it does: the message comes too late for the poller. *)
Theorem wait_for_log_times_out obj p msg tm w w1 l fuel Tms I :
  listeners_of p (ew_console w) = [] -> ew_pending w = [Scheduled tm p msg] ->
  0 <= Tms -> cw_clock (ew_console w) + Tms + timer_delay I <= tm ->
  (Z.to_nat Tms < fuel)%nat ->
  export_captureConsoleLogs (module_exports obj) p w = (w1, l) ->
  let r := export_waitForCondition (module_exports obj) fuel (logs_nonempty l)
             (Some (JFin Tms)) (Some I) w1 in
  r_result r = Raise timeout_error /\ cw_arrays (ew_console (r_world r)) !! l = Some [].
Proof.
  intros Hl Hq HT0 HT Hf Hcap. pose proof (timer_delay_pos I).
  destruct (capture_waiting obj p msg tm w w1 l Hl Hq ltac:(lia) Hcap) as [Hw Hc1].
  apply (wait_for_log_late p msg tm w1 l fuel Tms I Hw HT0); [lia|exact Hf].
Qed.


(** C38. The whole script through [module_exports]: it resolves with
    the array and the file name of the screenshot; its events are those
    of the poller, then the clock read, the screenshot and the printed
    line of [captureScreenshot]; the stamp is the time the poller
    resolved, within one interval after the page logged. *)
Theorem wait_for_log_script_runs obj p msg tm w w1 l fuel Tms I shot name :
  listeners_of p (ew_console w) = [] -> ew_pending w = [Scheduled tm p msg] ->
  cw_clock (ew_console w) < tm -> tm - cw_clock (ew_console w) + timer_delay I <= Tms ->
  - max_time <= tm -> tm + timer_delay I <= max_time ->
  (Z.to_nat (tm - cw_clock (ew_console w)) + 2 <= fuel)%nat ->
  (forall o w', exists w'' img, shot o w' = (w'', Normal img)) ->
  export_captureConsoleLogs (module_exports obj) p w = (w1, l) ->
  let r := wait_for_log_script (module_exports obj) fuel p shot name (Some (JFin Tms)) (Some I) w in
  exists tr t iso img,
    tm <= t < tm + timer_delay I /\ to_iso_string t = Some iso /\
    let f := screenshot_filename (js_to_string obj name) (replace_colon_dot iso) in
    r_result r = Done (l, JString f) /\
    r_trace r = List.map SPoll tr ++
                [SShot (ShotNewDate t); SShot (ShotCapture (ScreenshotOptions f true) (Normal img));
                 SShot (ShotStdout (saved_message f))].
Proof.
  intros Hl Hq Hc HT Hlo Hhi Hf Hshot Hcap. pose proof (timer_delay_pos I).
  destruct (to_iso_string_valid tm) as [ts Hts]; [lia|].
  destruct (capture_waiting obj p msg tm w w1 l Hl Hq Hc Hcap) as [Hw Hc1].
  destruct (wait_for_log_poll p msg tm ts w1 l fuel Tms I Hts Hw) as (Hr & _ & Ht);
    [lia|lia|].
  set (r1 := waitForCondition fuel (logs_nonempty l) (Some (JFin Tms)) (Some I) w1) in *.
  set (t := cw_clock (ew_console (r_world r1))) in *.
  destruct (to_iso_string_valid t) as [iso Hiso]; [lia|].
  set (f := screenshot_filename (js_to_string obj name) (replace_colon_dot iso)).
  destruct (Hshot (ScreenshotOptions f true) (r_world r1)) as (w2 & img & Hs).
  assert (Hcs : captureScreenshot shot (js_to_string obj name) (r_world r1) =
                mkRun w2 [ShotNewDate t; ShotCapture (ScreenshotOptions f true) (Normal img);
                          ShotStdout (saved_message f)] (Done (JString f))).
  { rewrite captureScreenshot_unfold. cbv zeta.
    change (clock (date_now_tick (r_world r1))) with t. rewrite Hiso.
    change (date_now_tick (r_world r1)) with (r_world r1). change (screenshot_filename (js_to_string obj name) (replace_colon_dot iso)) with f. by rewrite Hs. }
  cbv zeta. unfold wait_for_log_script. rewrite Hcap.
  cbn [export_waitForCondition export_captureScreenshot module_exports].
  unfold captureScreenshot_js. rewrite (bind_map_trace_done _ _ _ _ _ Hr).
  rewrite (bind_map_trace_done SShot (captureScreenshot shot (js_to_string obj name)) _ (r_world r1) (JString f));
    [|by rewrite Hcs].
  rewrite Hcs. exists (r_trace r1), t, iso, img. split; [lia|]. split; [exact Hiso|].
  split; [reflexivity|]. rewrite app_nil_r. reflexivity.
Qed.

(** ** Witnesses *)

(** A script started at 1000 ms on a fresh page 1, which logs at [tm]. *)
Definition script_world (tm : Z) : eworld := EWorld (cw_init 1000) [Scheduled tm 1 msg_log].

(** Objects print as the default [Object.prototype.toString] does. *)
Definition default_obj_str : nat -> string := fun _ => "[object Object]"%string.

(** A page whose screenshot succeeds at once. *)
Definition instant_shot : screenshot_options -> eworld -> eworld * completion :=
  fun _ w => (w, Normal (JObject 0)).

Lemma wait_for_log_resolves_witness :
  let w := script_world 1250 in
  let w1 := fst (export_captureConsoleLogs (module_exports default_obj_str) 1 w) in
  let l := snd (export_captureConsoleLogs (module_exports default_obj_str) 1 w) in
  let r := export_waitForCondition (module_exports default_obj_str) 300 (logs_nonempty l)
             (Some (JFin 5000)) (Some (JFin 100)) w1 in
  r_result r = Done (JBool true) /\
  cw_arrays (ew_console (r_world r)) !! l =
    Some [LogEntry (msg_type msg_log) (msg_text msg_log) "1970-01-01T00:00:01.250Z"].
Proof.
  cbv zeta.
  apply (wait_for_log_resolves default_obj_str 1 msg_log 1250 _ (script_world 1250)
           _ _ 300 5000 (JFin 100));
    first [vm_compute; reflexivity | vm_compute; discriminate | cbn; lia].
Defined.

Lemma wait_for_log_times_out_witness :
  let w := script_world 2000 in
  let w1 := fst (export_captureConsoleLogs (module_exports default_obj_str) 1 w) in
  let l := snd (export_captureConsoleLogs (module_exports default_obj_str) 1 w) in
  let r := export_waitForCondition (module_exports default_obj_str) 501 (logs_nonempty l)
             (Some (JFin 500)) (Some (JFin 100)) w1 in
  r_result r = Raise timeout_error /\ cw_arrays (ew_console (r_world r)) !! l = Some [].
Proof.
  cbv zeta.
  apply (wait_for_log_times_out default_obj_str 1 msg_log 2000 (script_world 2000)
           _ _ 501 500 (JFin 100));
    first [vm_compute; reflexivity | vm_compute; discriminate | cbn; lia].
Defined.

Lemma wait_for_log_script_runs_witness :
  let w := script_world 1250 in
  let l := snd (export_captureConsoleLogs (module_exports default_obj_str) 1 w) in
  let r := wait_for_log_script (module_exports default_obj_str) 300 1 instant_shot (JString "after-log")
             (Some (JFin 5000)) (Some (JFin 100)) w in
  exists tr t iso img,
    1250 <= t < 1250 + timer_delay (JFin 100) /\ to_iso_string t = Some iso /\
    let f := screenshot_filename "after-log" (replace_colon_dot iso) in
    r_result r = Done (l, JString f) /\
    r_trace r = List.map SPoll tr ++
                [SShot (ShotNewDate t); SShot (ShotCapture (ScreenshotOptions f true) (Normal img));
                 SShot (ShotStdout (saved_message f))].
Proof.
  cbv zeta.
  apply (wait_for_log_script_runs default_obj_str 1 msg_log 1250 (script_world 1250)
           (fst (export_captureConsoleLogs (module_exports default_obj_str) 1 (script_world 1250))) _
           300 5000 (JFin 100) instant_shot (JString "after-log"));
    try first [vm_compute; reflexivity | vm_compute; discriminate | cbn; lia].
  intros o w'. exists w', (JObject 0). reflexivity.
Defined.

